(** * BeatBrain: conversion utilities ([beatbrain/utils.py])

    A shallow embedding of the conversion pipeline of [beatbrain/utils.py]:
    data-type detection, fixed-length chunking, normalisation and
    de-normalisation of decibel spectrograms, the converter batch loops and
    the three dispatcher entry points.

    Conventions.
    - A 2-D numpy array is a list of rows together with its width
      ([shape[-1]]), so that arrays with no rows still have a last axis.
    - Python exceptions are values of [exn]; fallible code returns [result].
    - Array entries are real numbers (module [Numeric]): the arithmetic of
      the source is read in exact real arithmetic, with numpy's [nan] for
      the quotient [0/0] kept as a value of its own. Statements about
      ranges and order are the same in floating point; where rounding
      matters (the way from the normalised values back to decibels) the
      operations are rounded by a function that follows the standard
      model of floating-point arithmetic.
    - The file system, standard output and the calls of the third-party
      libraries are explicit (module [Convert]). *)

From Stdlib Require Import Reals Lra Lia.
From stdpp Require Import gmap strings list fin_maps pretty.

Local Open Scope nat_scope.
Set Warnings "-clear-no-such-hyp".

(** ** Exceptions and results *)

Inductive exn :=
  | ValueError (msg : string)
  | ZeroDivisionError (msg : string)
  | LibraryError (msg : string).

Inductive result (A : Type) :=
  | Ok (a : A)
  | Raise (e : exn).
Arguments Ok {A} a.
Arguments Raise {A} e.

Definition bind_result {A B} (r : result A) (k : A → result B) : result B :=
  match r with
  | Ok a => k a
  | Raise e => Raise e
  end.

#[global] Instance result_ret : MRet result := λ A a, Ok a.
#[global] Instance result_bind : MBind result := λ A B k r, bind_result r k.

(** ** Two-dimensional arrays *)

Module Array.

Record array2 (A : Type) := Array2 { rows : list (list A); width : nat }.
Arguments Array2 {A} rows width.
Arguments rows {A} a.
Arguments width {A} a.

(** [shape[0]] and [shape[-1]]. *)
Definition shape0 {A} (a : array2 A) : nat := length (rows a).
Definition shape1 {A} (a : array2 A) : nat := width a.

(** Every row has [shape[-1]] entries. *)
Definition wf {A} (a : array2 A) : Prop :=
  Forall (λ r, length r = width a) (rows a).

(** Python's [seq[:stop]] on a sequence of length [n]: a negative [stop]
    counts from the end, and the bounds are clamped. *)
Definition slice_stop (stop : Z) (n : nat) : nat :=
  if (stop <? 0)%Z then Z.to_nat (Z.max 0 (Z.of_nat n + stop))
  else Z.to_nat (Z.min stop (Z.of_nat n)).

(** [a[:, :stop]] *)
Definition take_cols {A} (stop : Z) (a : array2 A) : array2 A :=
  let k := slice_stop stop (width a) in
  Array2 (take k <$> rows a) k.

(** [np.pad(a, ((0, 0), (0, p)), mode='constant')]: [p] zeros are appended
    to every row. *)
Definition pad_right {A} (zero : A) (p : nat) (a : array2 A) : array2 A :=
  Array2 ((λ r, r ++ replicate p zero) <$> rows a) (width a + p).

(** The [i]-th of the sub-arrays of width [w]: columns [i*w .. (i+1)*w). *)
Definition col_block {A} (w i : nat) (a : array2 A) : array2 A :=
  Array2 ((λ r, take w (drop (i * w) r)) <$> rows a) w.

(** [np.split(a, sections, axis=1)] with an integer [sections]:
    [N % sections] is evaluated first (a [ZeroDivisionError] when
    [sections] is 0), an uneven division is a [ValueError], and otherwise
    the array is cut into [sections] blocks of [N // sections] columns. *)
Definition np_split {A} (a : array2 A) (sections : nat) : result (list (array2 A)) :=
  if decide (sections = 0) then
    Raise (ZeroDivisionError "integer division or modulo by zero")
  else if decide (width a `mod` sections = 0) then
    Ok ((λ i, col_block (width a `div` sections) i a) <$> seq 0 sections)
  else Raise (ValueError "array split does not result in an equal division").

(** Row-wise juxtaposition of two arrays. *)
Definition hcat {A} (a b : array2 A) : array2 A :=
  Array2 (zip_with app (rows a) (rows b)) (width a + width b).

(** [np.concatenate(chunks, axis=-1)]: at least one array is needed and all
    must agree on [shape[0]]. *)
Definition np_concatenate {A} (chunks : list (array2 A)) : result (array2 A) :=
  match chunks with
  | [] => Raise (ValueError "need at least one array to concatenate")
  | c :: cs =>
      if forallb (λ d, bool_decide (shape0 d = shape0 c)) cs
      then Ok (foldl hcat c cs)
      else Raise (ValueError "all the input array dimensions except for the concatenation axis must match exactly")
  end.

End Array.
Import Array.

(** ** [spec_to_chunks] *)

Section Chunks.
Context {A : Type} (zero : A).

(** [chunk_size] is a length: the model covers [chunk_size >= 0]. With
    [chunk_size = 0] the test [shape[-1] >= 0] holds and
    [shape[-1] % 0] raises. *)
Definition spec_to_chunks (spec : array2 A) (chunk_size : nat) (truncate : bool)
  : result (list (array2 A)) :=
  if decide (chunk_size ≤ shape1 spec) then
    if decide (chunk_size = 0) then
      Raise (ZeroDivisionError "integer division or modulo by zero")
    else
      let remainder := shape1 spec `mod` chunk_size in
      let spec :=
        if truncate then take_cols (- Z.of_nat remainder) spec
        else pad_right zero (chunk_size - remainder) spec in
      np_split spec (shape1 spec `div` chunk_size)
  else Ok [spec].

End Chunks.

(** Saving the chunks and loading them again keeps their order, so the
    array that [convert_numpy_to_audio] rebuilds (lines 220-222) from the
    chunks of [spec_to_chunks(spec, chunk_size, truncate=False)] is their
    concatenation along the last axis. *)
Definition reassemble {A} (zero : A) (spec : array2 A) (chunk_size : nat)
  : result (array2 A) :=
  chunks ← spec_to_chunks zero spec chunk_size false;
  np_concatenate chunks.

(** "A list of arrays of equal size, each of width exactly [chunk_size]". *)
Definition fixed_length_chunks {A} (chunk_size : nat)
    (r : result (list (array2 A))) : Prop :=
  ∃ chunks, r = Ok chunks
    ∧ Forall (λ c, shape1 c = chunk_size) chunks
    ∧ ∀ c c', c ∈ chunks → c' ∈ chunks → shape0 c = shape0 c'.

(** What the spec's words promise for [truncate=False]: the width of the
    reassembled array, "the smallest multiple of [chunk_size] that is
    [>= shape[-1]]". *)
Definition smallest_multiple_ge (chunk_size n : nat) : nat :=
  chunk_size * ((n + chunk_size - 1) `div` chunk_size).

(** ** Numeric steps: decibels, normalisation, de-normalisation *)

Module Numeric.

(** A numpy float: a real number, an infinity or [nan]. *)
Inductive npfloat :=
  | Fin (r : R)
  | PInf
  | NInf
  | NaN.

(** All entries of an array, in row-major order. *)
Definition entries {A} (a : array2 A) : list A := concat (rows a).

(** Element-wise application of [f]. *)
Definition amap {A B} (f : A → B) (a : array2 A) : array2 B :=
  Array2 ((λ r : list A, f <$> r) <$> rows a) (width a).

(** [a.min()] and [a.max()]: numpy raises on an array without entries. *)
Definition np_min (a : array2 R) : result R :=
  match entries a with
  | [] => Raise (ValueError "zero-size array to reduction operation minimum which has no identity")
  | x :: l => Ok (foldl Rmin x l)
  end.

Definition np_max (a : array2 R) : result R :=
  match entries a with
  | [] => Raise (ValueError "zero-size array to reduction operation maximum which has no identity")
  | x :: l => Ok (foldl Rmax x l)
  end.

(** Floating-point division of two finite numbers: [0/0] is [nan] and
    [x/0] an infinity (numpy warns and carries on). The quotient itself is
    the exact one; its rounding is added by [fround] below. *)
Definition fdiv (x y : R) : npfloat :=
  if Req_dec_T y 0 then
    if Req_dec_T x 0 then NaN
    else if Rlt_dec 0 x then PInf else NInf
  else Fin (x / y).

(** [v - c] and [c * v] for a finite constant [c]. *)
Definition fsub_const (v : npfloat) (c : R) : npfloat :=
  match v with
  | Fin r => Fin (r - c)
  | PInf => PInf
  | NInf => NInf
  | NaN => NaN
  end.

Definition fmul_const (c : R) (v : npfloat) : npfloat :=
  match v with
  | Fin r => Fin (c * r)
  | PInf => if Req_dec_T c 0 then NaN else if Rlt_dec 0 c then PInf else NInf
  | NInf => if Req_dec_T c 0 then NaN else if Rlt_dec 0 c then NInf else PInf
  | NaN => NaN
  end.

(** The normalisation of [convert_audio_to_numpy] and
    [convert_audio_to_image]:
    [spec = spec - spec.min(); spec = spec / np.abs(spec).max()]. *)
Definition normalize (spec : array2 R) : result (array2 npfloat) :=
  m ← np_min spec;
  let spec := amap (λ x, x - m)%R spec in
  M ← np_max (amap Rabs spec);
  Ok (amap (λ x, fdiv x M) spec).

(** The de-normalisation of [convert_numpy_to_audio]:
    [top_db * (spec - 1)], the argument of [db_to_power]. *)
Definition denormalize (top_db : R) (spec : array2 npfloat) : array2 npfloat :=
  amap (λ v, fmul_const top_db (fsub_const v 1)) spec.

(** [np.log10] on positive reals. *)
Definition log10 (x : R) : R := (ln x / ln 10)%R.

(** The floor [amin] of [librosa.power_to_db], at its default [1e-10]. *)
Definition amin : R := (/ 10 ^ 10)%R.

(** One entry of [log_spec]:
    [10 log10(max(amin, s)) - 10 log10(max(amin, ref_value))]. *)
Definition decibels (ref_value s : R) : R :=
  (10 * log10 (Rmax amin s) - 10 * log10 (Rmax amin ref_value))%R.

(** [librosa.power_to_db(S, ref=np.max, top_db=top_db)], from librosa's
    definition (third-party code): [ref_value = np.max(S)], [log_spec] is
    computed entry by entry, a negative [top_db] is rejected, and the
    result is [np.maximum(log_spec, log_spec.max() - top_db)]. *)
Definition power_to_db (spec : array2 R) (top_db : R) : result (array2 R) :=
  ref_value ← np_max spec;
  let log_spec := amap (decibels ref_value) spec in
  if Rlt_dec top_db 0 then Raise (LibraryError "top_db must be non-negative")
  else
    mx ← np_max log_spec;
    Ok (amap (λ x, Rmax x (mx - top_db))%R log_spec).

(** librosa's default for [top_db], used when the argument is left out. *)
Definition default_top_db : R := 80%R.

(** Normalising a decibel array and mapping it back with
    [top_db * (v - 1)], as [convert_audio_to_numpy] followed by
    [convert_numpy_to_audio] does to every entry that is not padding. *)
Definition normalize_then_denormalize (top_db : R) (d : array2 R)
  : result (array2 npfloat) :=
  v ← normalize d;
  Ok (denormalize top_db v).

(** "Entries all lie in [0, 1], with maximum exactly 1": the outcome is an
    array of finite numbers with these bounds. *)
Definition normalized_unit_range (r : result (array2 npfloat)) : Prop :=
  ∃ out : array2 R, r = Ok (amap Fin out)
    ∧ Forall (λ x, 0 <= x <= 1)%R (entries out)
    ∧ np_max out = Ok 1%R.

(** *** Floating point

    numpy computes in the float type of the array (binary32 for what
    librosa returns from binary32 audio, binary64 otherwise): an operation
    returns its exact result rounded to the nearest float. [rnd] stands
    for that rounding. The standard model of floating-point arithmetic
    asks of it what [rounding u rnd] says: rounding is monotone and odd,
    and its relative error is at most the unit roundoff [u] ([2^-24] for
    binary32, [2^-53] for binary64); overflow and underflow are left
    aside. A number is representable when rounding leaves it alone. *)
Record rounding (u : R) (rnd : R → R) : Prop := Rounding {
  rnd_monotone : ∀ x y, (x <= y)%R → (rnd x <= rnd y)%R;
  rnd_odd : ∀ x, rnd (- x)%R = (- rnd x)%R;
  rnd_error : ∀ x, (Rabs (rnd x - x) <= u * Rabs x)%R
}.

Definition representable (rnd : R → R) (x : R) : Prop := rnd x = x.

Definition fround (rnd : R → R) (v : npfloat) : npfloat :=
  match v with
  | Fin r => Fin (rnd r)
  | _ => v
  end.

(** [normalize] and [denormalize] with every subtraction, division and
    multiplication rounded. The minimum, the maximum and the absolute
    value of floats are exact. With the identity for [rnd] these are
    [normalize] and [denormalize]. *)
Definition normalize_rounded (rnd : R → R) (spec : array2 R)
  : result (array2 npfloat) :=
  m ← np_min spec;
  let spec := amap (λ x, rnd (x - m))%R spec in
  M ← np_max (amap Rabs spec);
  Ok (amap (λ x, fround rnd (fdiv x M)) spec).

Definition denormalize_rounded (rnd : R → R) (top_db : R) (spec : array2 npfloat)
  : array2 npfloat :=
  amap (λ v, fround rnd (fmul_const top_db (fround rnd (fsub_const v 1)))) spec.

Definition normalize_then_denormalize_rounded (rnd : R → R) (top_db : R)
    (d : array2 R) : result (array2 npfloat) :=
  v ← normalize_rounded rnd d;
  Ok (denormalize_rounded rnd top_db v).

(** [power_to_db] as numpy computes it: [lg] stands for [np.log10] on
    floats, and every product and difference is rounded ([log_spec] is
    [10.0 * np.log10(...)], then [log_spec -= 10.0 * np.log10(...)], and
    the floor is [log_spec.max() - top_db]). *)
Definition decibels_rounded (rnd lg : R → R) (ref_value s : R) : R :=
  rnd (rnd (10 * lg (Rmax amin s)) - rnd (10 * lg (Rmax amin ref_value)))%R.

Definition power_to_db_rounded (rnd lg : R → R) (spec : array2 R) (top_db : R)
  : result (array2 R) :=
  ref_value ← np_max spec;
  let log_spec := amap (decibels_rounded rnd lg ref_value) spec in
  if Rlt_dec top_db 0 then Raise (LibraryError "top_db must be non-negative")
  else
    mx ← np_max log_spec;
    Ok (amap (λ x, Rmax x (rnd (mx - top_db)))%R log_spec).

(** One entry of [librosa.db_to_power(S_db, ref=ref)], from librosa's
    definition (third-party code): [ref * 10.0 ** (0.1 * S_db)]. *)
Definition db_to_power_entry (ref x : R) : R := (ref * Rpower 10 (/ 10 * x))%R.

End Numeric.
Import Numeric.

(** ** Paths, the file system and effects *)

(** A [pathlib.Path] is the list of its components below a fixed root;
    the empty list is [Path('.')]. *)
Abbreviation path := (list string).

Module Pathlib.

(** [str.rfind(c)]: the index of the last occurrence of [c]. *)
Fixpoint rfind (c : Ascii.ascii) (s : string) : option nat :=
  match s with
  | EmptyString => None
  | String a s' =>
      match rfind c s' with
      | Some i => Some (S i)
      | None => if Ascii.eqb a c then Some 0 else None
      end
  end.

(** [Path.name]: the final component, empty for [Path('.')]. *)
Definition name (p : path) : string := List.last p "".

(** The index at which the suffix of a name starts: the last dot, when it
    is neither the first nor the last character ([0 < i < len(name) - 1]). *)
Definition suffix_index (nm : string) : option nat :=
  match rfind (Ascii.ascii_of_nat 46) nm with
  | Some i => if bool_decide (0 < i ∧ i < String.length nm - 1) then Some i else None
  | None => None
  end.

(** [Path.suffix] and [Path.stem]. *)
Definition suffix (p : path) : string :=
  match suffix_index (name p) with
  | Some i => String.substring i (String.length (name p) - i) (name p)
  | None => ""
  end.

Definition stem (p : path) : string :=
  match suffix_index (name p) with
  | Some i => String.substring 0 i (name p)
  | None => name p
  end.

(** [s[1:]] *)
Definition drop_first (s : string) : string :=
  match s with
  | EmptyString => ""
  | String _ s' => s'
  end.

(** [Path.parent]; the parent of [Path('.')] is itself. *)
Definition parent (p : path) : path := removelast p.

(** [Path(s)] for a string [s] without separators. *)
Definition segment (s : string) : path :=
  if decide (s = "") then [] else [s].

(** [p.joinpath(q)] for a relative [q]. *)
Definition joinpath (p q : path) : path := p ++ q.

(** [str(p)] *)
Definition str (p : path) : string :=
  match p with
  | [] => "."
  | _ => String.concat "/" p
  end.

End Pathlib.

Module Convert.
Import Pathlib.

Inductive DataType :=
  | AUDIO
  | NUMPY
  | IMAGE
  | UNKNOWN
  | AMBIGUOUS
  | ERROR.

(** [ARRAY = 2] is an alias of [NUMPY = 2]. *)
Definition ARRAY : DataType := NUMPY.

#[global] Instance DataType_eq_dec : EqDecision DataType.
Proof. solve_decision. Defined.

Definition DataType_value (d : DataType) : nat :=
  match d with
  | AUDIO => 1 | NUMPY => 2 | IMAGE => 3
  | UNKNOWN => 4 | AMBIGUOUS => 5 | ERROR => 6
  end.

Definition DataType_of_value (n : nat) : option DataType :=
  match n with
  | 1 => Some AUDIO | 2 => Some NUMPY | 3 => Some IMAGE
  | 4 => Some UNKNOWN | 5 => Some AMBIGUOUS | 6 => Some ERROR
  | _ => None
  end.

#[global] Instance DataType_countable : Countable DataType.
Proof.
  apply (inj_countable DataType_value DataType_of_value).
  intros []; reflexivity.
Defined.

(** [dtype.name] *)
Definition DataType_name (d : DataType) : string :=
  match d with
  | AUDIO => "AUDIO" | NUMPY => "NUMPY" | IMAGE => "IMAGE"
  | UNKNOWN => "UNKNOWN" | AMBIGUOUS => "AMBIGUOUS" | ERROR => "ERROR"
  end.

Definition SUPPORTED_EXTENSIONS : list (DataType * list string) :=
  [ (AUDIO, ["wav"; "flac"; "mp3"; "ogg"]);
    (NUMPY, ["npy"; "npz"]);
    (IMAGE, ["tiff"]) ].

(** *** The world: files, standard output, and which converters ran *)

Inductive entry :=
  | Dir
  | File (data : list Byte.byte).

(** The six converter functions, for the record of calls. *)
Inductive converter :=
  | AudioToNumpy
  | ImageToNumpy
  | AudioToImage
  | NumpyToImage
  | NumpyToAudio
  | ImageToAudio.

(** [entered] is specification state: every converter notes its own entry
    there, so that theorems can say which converter a dispatcher called.
    Nothing reads it. *)
Record world := World {
  fs : gmap path entry;
  stdout : list string;
  entered : list converter
}.

Definition M (A : Type) : Type := world → result A * world.

#[global] Instance M_ret : MRet M := λ A a w, (Ok a, w).
#[global] Instance M_bind : MBind M := λ A B k m w,
  match m w with
  | (Ok a, w') => k a w'
  | (Raise e, w') => (Raise e, w')
  end.

Definition raise {A} (e : exn) : M A := λ w, (Raise e, w).

Definition lift_result {A} (r : result A) : M A := λ w, (r, w).

Definition get_fs : M (gmap path entry) := λ w, (Ok (fs w), w).

(** A library call that reads files. *)
Definition lift_read {A} (f : gmap path entry → result A) : M A :=
  λ w, (f (fs w), w).

(** A library call that reads and writes files; it sees nothing else. *)
Definition lift_fs {A} (f : gmap path entry → result A * gmap path entry) : M A :=
  λ w, let '(r, fs') := f (fs w) in (r, World fs' (stdout w) (entered w)).

(** [print(s)] and [tqdm.write(s)]: one more line on standard output. *)
Definition print (s : string) : M unit :=
  λ w, (Ok (), World (fs w) (stdout w ++ [s]) (entered w)).

Definition tqdm_write (s : string) : M unit := print s.

Definition enter (c : converter) : M unit :=
  λ w, (Ok (), World (fs w) (stdout w) (entered w ++ [c])).

(** [for i, x in enumerate(xs): st = body(i, x, st)], counting from [i];
    [st] holds the variables the body rebinds. *)
Fixpoint for_enumerate {X St} (body : nat → X → St → M St)
    (i : nat) (xs : list X) (st : St) : M St :=
  match xs with
  | [] => mret st
  | x :: xs' => st' ← body i x st; for_enumerate body (S i) xs' st'
  end.

(** *** Files *)

Definition is_file (fs : gmap path entry) (p : path) : bool :=
  match fs !! p with Some (File _) => true | _ => false end.

Definition is_dir (fs : gmap path entry) (p : path) : bool :=
  match fs !! p with Some Dir => true | _ => false end.

Definition exists_ (fs : gmap path entry) (p : path) : bool :=
  match fs !! p with Some _ => true | None => false end.

(** [p.rglob('*')]: every entry strictly below [p], in listing order. *)
Definition rglob (fs : gmap path entry) (p : path) : list path :=
  filter (λ q, p `prefix_of` q ∧ p ≠ q) (map_to_list fs).*1.

(** [filter(Path.is_file, p.rglob('*'))] *)
Definition rglob_files (fs : gmap path entry) (p : path) : list path :=
  filter (λ q, is_file fs q) (rglob fs p).

(** ANSI colour codes of [colorama.Fore]. *)
Definition ESC : string := String (Ascii.ascii_of_nat 27) "".
Definition Fore_CYAN : string := ESC +:+ "[36m".
Definition Fore_YELLOW : string := ESC +:+ "[33m".
Definition Fore_RESET : string := ESC +:+ "[39m".
Definition newline : string := String (Ascii.ascii_of_nat 10) "".

(** *** [get_data_type] *)

(** The files looked at (lines 53-57). *)
Definition files_under (fs : gmap path entry) (p : path) : list path :=
  if is_file fs p then [p]
  else if is_dir fs p then rglob_files fs p
  else [].

(** [f.suffix[1:]] *)
Definition extension (f : path) : string := drop_first (suffix f).

(** The two nested loops over files and [SUPPORTED_EXTENSIONS.items()]
    (lines 58-62): [add_matches] is the inner loop for one file. *)
Definition add_matches (found : gset DataType) (f : path) : gset DataType :=
  foldl (λ found '(dtype, exts),
           let suffix := extension f in
           if decide (suffix ∈ exts) then found ∪ {[dtype]} else found)
        found SUPPORTED_EXTENSIONS.

Definition found_types (files : list path) : gset DataType :=
  foldl add_matches ∅ files.

(** [repr] of the matched set in the error message; Python's set order is
    not fixed, the order of [elements] is used here, and no statement
    below depends on it. *)
Definition show_types (found : gset DataType) : string :=
  "{" +:+ String.concat ", "
    ((λ d, "<DataType." +:+ DataType_name d +:+ ": " +:+ pretty (DataType_value d) +:+ ">")
       <$> elements found) +:+ "}".

(** The three-way test on the number of matched types (lines 63-72). *)
Definition classify (found_types : gset DataType) (raise_exception : bool)
  : result DataType :=
  if decide (size found_types = 0) then
    if raise_exception
    then Raise (ValueError "Unknown source data type. No known file types we matched.")
    else Ok UNKNOWN
  else if decide (size found_types = 1) then
    match elements found_types with
    | d :: _ => Ok d
    | [] => Raise (LibraryError "pop from an empty set")
    end
  else
    if raise_exception
    then Raise (ValueError ("Ambiguous source data type. The following types were matched: "
                            +:+ show_types found_types))
    else Ok AMBIGUOUS.

Definition get_data_type (p : path) (raise_exception : bool) : M DataType :=
  print "Checking input type(s)...";;
  fs ← get_fs;
  let found_types := found_types (files_under fs p) in
  dtype ← lift_result (classify found_types raise_exception);
  print ("Determined input type to be " +:+ Fore_CYAN +:+ "'" +:+ DataType_name dtype
         +:+ "'" +:+ Fore_RESET);;
  mret dtype.

(** *** Library calls

    The calls into pathlib, natsort, librosa, numpy, PIL and soundfile that
    the converters make. File contents are read and written only through
    them. *)
Record Library := {
  (** [natsorted(paths)] *)
  natsorted : list path → list path;
  (** [p.relative_to(base)] and [p.with_suffix(s)] *)
  relative_to : path → path → result path;
  with_suffix : path → string → result path;
  (** [p.mkdir(parents=True, exist_ok=True)] *)
  Path_mkdir : path → gmap path entry → result unit * gmap path entry;
  (** [librosa.load(str(p), sr=, offset=, duration=, res_type=)] *)
  librosa_load : path → Z → R → option R → string → gmap path entry → result (list R * Z);
  (** [librosa.feature.melspectrogram(audio, sr=, n_fft=, hop_length=, n_mels=)] *)
  melspectrogram : list R → Z → nat → nat → nat → result (array2 R);
  (** [librosa.db_to_power(spec, ref=)] *)
  db_to_power : array2 npfloat → R → array2 npfloat;
  (** [librosa.feature.inverse.mel_to_audio(spec, sr=, n_fft=, hop_length=)] *)
  mel_to_audio : array2 npfloat → Z → nat → nat → result (list R);
  (** [np.savez_compressed(p, *chunks)] *)
  np_savez_compressed : path → list (array2 npfloat) → gmap path entry → result unit * gmap path entry;
  (** [with np.load(p) as npz: list(npz.values())] *)
  np_load : path → gmap path entry → result (list (array2 npfloat));
  (** [Image.fromarray(chunk, mode='F').save(p)] *)
  Image_save : array2 npfloat → path → gmap path entry → result unit * gmap path entry;
  (** [sf.write(p, audio, sr)] *)
  sf_write : path → list R → Z → gmap path entry → result unit * gmap path entry
}.

(** [chunk[::-1]]: the rows in reverse order. *)
Definition flip_rows {A} (chunk : array2 A) : array2 A :=
  Array2 (reverse (rows chunk)) (width chunk).

(** The loop head shared by every converter:
    [for i, path in enumerate(paths): if i < skip: continue; <step>]. *)
Definition skip_loop {St} (skip : Z) (step : path → St → M St)
    (paths : list path) (st : St) : M St :=
  for_enumerate
    (λ i path st, if bool_decide (Z.of_nat i < skip)%Z then mret st else step path st)
    0 paths st.

(** Processing every path of a list in turn, without a skip test. *)
Fixpoint for_each {St} (step : path → St → M St) (paths : list path) (st : St) : M St :=
  match paths with
  | [] => mret st
  | p :: ps => st' ← step p st; for_each step ps st'
  end.

Section Converters.
Context (L : Library).
(** [settings.TOP_DB] and [settings.N_MELS]; the settings module is not
    part of the sources at hand. *)
Context (TOP_DB : R) (N_MELS : nat).

Definition quoted (p : path) : string :=
  Fore_YELLOW +:+ "'" +:+ str p +:+ "'" +:+ Fore_RESET.

(** The paths a converter walks (lines 108-113, and the same lines in
    three more converters). *)
Definition input_paths (inp : path) : M (list path) :=
  fs ← get_fs;
  if negb (exists_ fs inp) then
    raise (ValueError ("Input must be a valid file or directory. Got '" +:+ str inp +:+ "'"))
  else if is_dir fs inp then mret (natsorted L (rglob_files fs inp))
  else mret [inp].

(** Lines 121-125: from the loaded audio to the chunks that are saved. *)
Definition audio_to_numpy_chunks (audio : list R) (sr : Z)
    (n_fft hop_length n_mels chunk_size : nat) (truncate : bool)
  : result (list (array2 npfloat)) :=
  spec ← melspectrogram L audio sr n_fft hop_length n_mels;
  spec ← power_to_db spec TOP_DB;
  spec ← normalize spec;
  spec_to_chunks (Fin 0) spec chunk_size truncate.

(** Lines 157-161: the same steps in [convert_audio_to_image], where
    [power_to_db] is called without [top_db]. *)
Definition audio_to_image_chunks (audio : list R) (sr : Z)
    (n_fft hop_length n_mels chunk_size : nat) (truncate : bool)
  : result (list (array2 npfloat)) :=
  spec ← melspectrogram L audio sr n_fft hop_length n_mels;
  spec ← power_to_db spec default_top_db;
  spec ← normalize spec;
  spec_to_chunks (Fin 0) spec chunk_size truncate.

(** The loop body of [convert_audio_to_numpy] after the skip test; it
    rebinds [sr]. *)
Definition audio_to_numpy_file (inp out_dir : path) (offset : R) (duration : option R)
    (res_type : string) (n_fft hop_length n_mels chunk_size : nat) (truncate : bool)
    (p : path) (sr : Z) : M Z :=
  tqdm_write ("Converting " +:+ quoted p +:+ "...");;
  '(audio, sr) ← lift_read (librosa_load L p sr offset duration res_type);
  chunks ← lift_result
    (audio_to_numpy_chunks audio sr n_fft hop_length n_mels chunk_size truncate);
  rel ← lift_result (relative_to L p inp);
  let output := joinpath out_dir rel in
  let output := joinpath (parent output) (segment (stem output)) in
  lift_fs (Path_mkdir L (parent output));;
  lift_fs (np_savez_compressed L output chunks);;
  mret sr.

Definition convert_audio_to_numpy (inp out_dir : path) (sr : Z) (offset : R)
    (duration : option R) (res_type : string)
    (n_fft hop_length n_mels chunk_size : nat) (truncate : bool) (skip : Z) : M unit :=
  enter AudioToNumpy;;
  paths ← input_paths inp;
  print ("Converting files in " +:+ quoted inp +:+ " to Numpy arrays...");;
  print ("Arrays will be saved in " +:+ quoted out_dir +:+ newline);;
  skip_loop skip
    (audio_to_numpy_file inp out_dir offset duration res_type
       n_fft hop_length n_mels chunk_size truncate)
    paths sr;;
  mret ().

(** [# TODO: Implement]; the body is [pass]. *)
Definition convert_image_to_numpy (inp out_dir : path) (flip : bool) (skip : Z) : M unit :=
  enter ImageToNumpy;;
  mret ().

Definition audio_to_image_file (inp out_dir : path) (offset : R) (duration : option R)
    (res_type : string) (n_fft hop_length n_mels chunk_size : nat) (truncate flip : bool)
    (p : path) (sr : Z) : M Z :=
  tqdm_write ("Converting " +:+ quoted p +:+ "...");;
  '(audio, sr) ← lift_read (librosa_load L p sr offset duration res_type);
  chunks ← lift_result
    (audio_to_image_chunks audio sr n_fft hop_length n_mels chunk_size truncate);
  let chunks := if flip then flip_rows <$> chunks else chunks in
  tqdm_write ("Converting " +:+ quoted p +:+ "...");;
  rel ← lift_result (relative_to L p inp);
  let output := joinpath out_dir rel in
  let output := joinpath (parent output) (segment (stem output)) in
  lift_fs (Path_mkdir L output);;
  for_enumerate
    (λ j chunk (_ : unit),
       lift_fs (Image_save L chunk (joinpath output (segment (pretty j +:+ ".tiff")))))
    0 chunks ();;
  mret sr.

Definition convert_audio_to_image (inp out_dir : path) (sr : Z) (offset : R)
    (duration : option R) (res_type : string)
    (n_fft hop_length n_mels chunk_size : nat) (truncate flip : bool) (skip : Z) : M unit :=
  enter AudioToImage;;
  paths ← input_paths inp;
  print ("Converting files in " +:+ quoted inp +:+ " to images...");;
  print ("Images will be saved in " +:+ quoted out_dir +:+ newline);;
  skip_loop skip
    (audio_to_image_file inp out_dir offset duration res_type
       n_fft hop_length n_mels chunk_size truncate flip)
    paths sr;;
  mret ().

Definition numpy_to_image_file (inp out_dir : path) (flip : bool)
    (p : path) (_ : unit) : M unit :=
  tqdm_write ("Converting " +:+ quoted p +:+ "...");;
  rel ← lift_result (relative_to L p inp);
  let output := joinpath out_dir rel in
  let output := joinpath (parent output) (segment (stem output)) in
  lift_fs (Path_mkdir L output);;
  chunks ← lift_read (np_load L p);
  for_enumerate
    (λ j chunk (_ : unit),
       let chunk := if flip then flip_rows chunk else chunk in
       lift_fs (Image_save L chunk (joinpath output (segment (pretty j +:+ ".tiff")))))
    0 chunks ().

Definition convert_numpy_to_image (inp out_dir : path) (flip : bool) (skip : Z) : M unit :=
  enter NumpyToImage;;
  paths ← input_paths inp;
  print ("Converting files in " +:+ quoted inp +:+ " to images...");;
  print ("Images will be saved in " +:+ quoted out_dir +:+ newline);;
  skip_loop skip (numpy_to_image_file inp out_dir flip) paths ().

Definition numpy_to_audio_file (inp out_dir : path) (sr : Z) (n_fft hop_length : nat)
    (fmt : string) (p : path) (_ : unit) : M unit :=
  tqdm_write ("Converting " +:+ quoted p +:+ "...");;
  rel ← lift_result (relative_to L p inp);
  let output := joinpath out_dir rel in
  output ← lift_result
    (with_suffix L (joinpath (parent output) (segment (name output))) ("." +:+ fmt));
  lift_fs (Path_mkdir L (parent output));;
  chunks ← lift_read (np_load L p);
  spec ← lift_result (np_concatenate chunks);
  let spec := db_to_power L (denormalize TOP_DB spec) 50000 in
  audio ← lift_result (mel_to_audio L spec sr n_fft hop_length);
  lift_fs (sf_write L output audio sr).

Definition convert_numpy_to_audio (inp out_dir : path) (sr : Z) (n_fft hop_length : nat)
    (fmt : string) (offset : R) (duration : option R) (skip : Z) : M unit :=
  enter NumpyToAudio;;
  paths ← input_paths inp;
  print ("Converting files in " +:+ quoted inp +:+ " to audio...");;
  print ("Images will be saved in " +:+ quoted out_dir +:+ newline);;
  skip_loop skip (numpy_to_audio_file inp out_dir sr n_fft hop_length fmt) paths ().

(** [# TODO: Implement]: the directories that hold files are walked and
    printed. *)
Definition image_to_audio_paths (inp : path) : M (list path) :=
  fs ← get_fs;
  if negb (exists_ fs inp) then
    raise (ValueError ("Input must be a valid file or directory. Got '" +:+ str inp +:+ "'"))
  else if is_dir fs inp then
    mret (natsorted L (elements (list_to_set (parent <$> rglob_files fs inp) : gset path)))
  else mret [inp].

Definition convert_image_to_audio (inp out_dir : path) (sr : Z) (n_fft hop_length : nat)
    (fmt : string) (offset : R) (duration : option R) (flip : bool) (skip : Z) : M unit :=
  enter ImageToAudio;;
  paths ← image_to_audio_paths inp;
  print ("Converting files in " +:+ quoted inp +:+ " to images...");;
  print ("Images will be saved in " +:+ quoted out_dir +:+ newline);;
  skip_loop skip (λ p (_ : unit), print (str p)) paths ().

(** *** The dispatchers used by the command line *)

Definition convert_to_numpy (inp out_dir : path) (sr : Z) (offset : R)
    (duration : option R) (res_type : string)
    (n_fft hop_length n_mels chunk_size : nat) (truncate flip : bool) (skip : Z) : M unit :=
  dtype ← get_data_type inp true;
  if decide (dtype = AUDIO) then
    convert_audio_to_numpy inp out_dir sr offset duration res_type
      n_fft hop_length n_mels chunk_size truncate skip
  else if decide (dtype = IMAGE) then
    convert_image_to_numpy inp out_dir flip skip
  else mret ().

(** [n_mels] is not a parameter here: [convert_audio_to_image] runs with
    its default, [settings.N_MELS]. *)
Definition convert_to_image (inp out_dir : path) (sr : Z) (offset : R)
    (duration : option R) (res_type : string)
    (n_fft hop_length chunk_size : nat) (truncate flip : bool) (skip : Z) : M unit :=
  dtype ← get_data_type inp true;
  if decide (dtype = AUDIO) then
    convert_audio_to_image inp out_dir sr offset duration res_type
      n_fft hop_length N_MELS chunk_size truncate flip skip
  else if decide (dtype = NUMPY) then
    convert_numpy_to_image inp out_dir flip skip
  else mret ().

Definition convert_to_audio (inp out_dir : path) (sr : Z) (n_fft hop_length : nat)
    (fmt : string) (offset : R) (duration : option R) (flip : bool) (skip : Z) : M unit :=
  dtype ← get_data_type inp true;
  if decide (dtype = NUMPY) then
    convert_numpy_to_audio inp out_dir sr n_fft hop_length fmt offset duration skip
  else if decide (dtype = IMAGE) then
    convert_image_to_audio inp out_dir sr n_fft hop_length fmt offset duration flip skip
  else mret ().

End Converters.

(** *** Observations used in the statements *)

(** The extensions carried by the files under a path; a file whose name
    has no suffix carries none. *)
Definition extensions (fs : gmap path entry) (p : path) : gset string :=
  list_to_set (filter (λ e, e ≠ "") (extension <$> files_under fs p)).

(** The two messages of [get_data_type]; the second ends with the [repr]
    of the set of matched types. *)
Definition unknown_message : string :=
  "Unknown source data type. No known file types we matched.".

Definition ambiguous_message (shown : string) : string :=
  "Ambiguous source data type. The following types were matched: " +:+ shown.

(** "The same [DataType], and raises or not identically": both calls
    return the same type, or both raise the [ValueError] of an unknown
    type, or both raise the [ValueError] of an ambiguous type. How the
    matched set is shown in the second message is left open, the order in
    which Python shows a set not being fixed. *)
Definition same_outcome (r r' : result DataType) : Prop :=
  match r, r' with
  | Ok t, Ok t' => t = t'
  | Raise e, Raise e' =>
      (e = ValueError unknown_message ∧ e' = ValueError unknown_message)
      ∨ ∃ shown shown', e = ValueError (ambiguous_message shown)
                        ∧ e' = ValueError (ambiguous_message shown')
  | _, _ => False
  end.

(** The lines printed, and the converters entered, between two worlds. *)
Definition printed (w w' : world) : list string :=
  drop (length (stdout w)) (stdout w').

Definition invoked (w w' : world) : list converter :=
  drop (length (entered w)) (entered w').

(** A computation that enters no converter. *)
Definition keeps_entered {A} (m : M A) : Prop :=
  ∀ w, entered (m w).2 = entered w.

(** A computation that changes no file. *)
Definition keeps_fs {A} (m : M A) : Prop :=
  ∀ w, fs (m w).2 = fs w.

(** "The converter corresponding to the detected data type", for the
    dispatcher that produces [target]. *)
Definition converter_for (target detected : DataType) : option converter :=
  match target, detected with
  | NUMPY, AUDIO => Some AudioToNumpy
  | NUMPY, IMAGE => Some ImageToNumpy
  | IMAGE, AUDIO => Some AudioToImage
  | IMAGE, NUMPY => Some NumpyToImage
  | AUDIO, NUMPY => Some NumpyToAudio
  | AUDIO, IMAGE => Some ImageToAudio
  | _, _ => None
  end.

(** What a dispatcher for [target] does in a world [w] where [found] is
    the set of matched types: it fails in detection, before any converter
    is entered, exactly when [found] does not have one element; and with
    one matched type it enters the converter for that type, or none when
    there is none. *)
Definition dispatch_outcome (target : DataType) (found : gset DataType)
    (w : world) (out : result unit * world) : Prop :=
  ((∃ msg, out.1 = Raise (ValueError msg)) ∧ invoked w out.2 = [] ↔ size found ≠ 1)
  ∧ ∀ t, found = {[t]} →
      match converter_for target t with
      | Some c => invoked w out.2 = [c]
      | None => invoked w out.2 = [] ∧ out.1 = Ok ()
      end.

(** A library for examples: paths are kept in listing order, every call
    that reads or writes a file fails, and the mel spectrogram of any
    audio is [mel]. *)
Definition unavailable {A} : result A := Raise (LibraryError "unavailable").

Definition example_library (mel : array2 R) : Library := {|
  natsorted := λ paths, paths;
  relative_to := λ _ _, unavailable;
  with_suffix := λ _ _, unavailable;
  Path_mkdir := λ _ fs, (unavailable, fs);
  librosa_load := λ _ _ _ _ _ _, unavailable;
  melspectrogram := λ _ _ _ _ _, Ok mel;
  db_to_power := λ spec _, spec;
  mel_to_audio := λ _ _ _ _, unavailable;
  np_savez_compressed := λ _ _ fs, (unavailable, fs);
  np_load := λ _ _, unavailable;
  Image_save := λ _ _ fs, (unavailable, fs);
  sf_write := λ _ _ _ fs, (unavailable, fs)
|}.

(** A second library for examples, whose calls succeed: paths are sorted
    by their text (the natural order as long as no name holds a number of
    several digits), [relative_to] strips the base, directories and
    written files are noted in the file system, a file without bytes
    cannot be loaded, and any other file loads as the given audio or
    chunks. *)
Fixpoint insert_path (p : path) (l : list path) : list path :=
  match l with
  | [] => [p]
  | q :: l' => if String.leb (str p) (str q) then p :: l else q :: insert_path p l'
  end.

Definition sort_paths (l : list path) : list path := foldr insert_path [] l.

Definition strip_base (p base : path) : result path :=
  if decide (base `prefix_of` p) then Ok (drop (length base) p)
  else Raise (ValueError "path is not in the subpath of base").

Definition load_as {A} (a : A) (p : path) (fs : gmap path entry) : result A :=
  match fs !! p with
  | Some (File (_ :: _)) => Ok a
  | Some (File []) => Raise (LibraryError "no data in file")
  | _ => Raise (LibraryError "no such file")
  end.

Definition written : entry := File [Byte.x01].

Definition memory_library (mel : array2 R) (chunks : list (array2 npfloat))
  : Library := {|
  natsorted := sort_paths;
  relative_to := strip_base;
  with_suffix := λ p s, Ok (joinpath (parent p) (segment (stem p +:+ s)));
  Path_mkdir := λ p fs, (Ok (), <[p := Dir]> fs);
  librosa_load := λ p sr _ _ _ fs, load_as ([], sr) p fs;
  melspectrogram := λ _ _ _ _ _, Ok mel;
  db_to_power := λ spec _, spec;
  mel_to_audio := λ _ _ _ _, Ok [];
  np_savez_compressed := λ p _ fs,
    (Ok (), <[joinpath (parent p) (segment (name p +:+ ".npz")) := written]> fs);
  np_load := load_as chunks;
  Image_save := λ _ p fs, (Ok (), <[p := written]> fs);
  sf_write := λ p _ _ fs, (Ok (), <[p := written]> fs)
|}.

End Convert.
Import Pathlib Convert.

(** * Properties *)

(** ** Arrays: splitting and joining *)

Section ArrayFacts.
Context {A : Type}.
Implicit Types (a spec : array2 A) (r : list A).

Lemma slice_stop_neg (k n : nat) :
  0 < k → slice_stop (- Z.of_nat k) n = n - k.
Proof.
  intros Hk. unfold slice_stop.
  destruct (Z.ltb_spec (- Z.of_nat k) 0); lia.
Qed.

Lemma slice_stop_zero (n : nat) : slice_stop (- Z.of_nat 0) n = 0.
Proof. unfold slice_stop. simpl. lia. Qed.

Lemma wf_pad_right (zero : A) p a : wf a → wf (pad_right zero p a).
Proof.
  unfold wf, pad_right; simpl. intros Hwf.
  apply Forall_fmap. eapply Forall_impl; [exact Hwf|].
  intros r Hr; simpl in *. rewrite length_app, length_replicate. lia.
Qed.

Lemma pad_right_zero (zero : A) a : pad_right zero 0 a = a.
Proof.
  destruct a as [rs w]. unfold pad_right; simpl. f_equal; [|lia].
  rewrite <- (list_fmap_id rs) at 2. apply list_fmap_ext.
  intros _ r _. apply app_nil_r.
Qed.

Lemma np_split_multiple a cs n :
  cs ≠ 0 → n ≠ 0 → width a = n * cs →
  np_split a (width a `div` cs) = Ok ((λ i, col_block cs i a) <$> seq 0 n).
Proof.
  intros Hcs Hn Hw. unfold np_split.
  assert (width a `div` cs = n) as -> by (rewrite Hw; by apply Nat.div_mul).
  rewrite decide_False by done.
  rewrite decide_True by (rewrite Hw, Nat.mul_comm; by apply Nat.Div0.mod_mul).
  assert (width a `div` n = cs) as ->; [|done].
  rewrite Hw, Nat.mul_comm. by apply Nat.div_mul.
Qed.

Lemma hcat_take_block w j a :
  hcat (Array2 (take (j * w) <$> rows a) (j * w)) (col_block w j a)
  = Array2 (take (S j * w) <$> rows a) (S j * w).
Proof.
  unfold hcat, col_block; simpl. f_equal; [|lia].
  rewrite zip_with_fmap_l, zip_with_fmap_r, zip_with_diag.
  apply list_fmap_ext. intros _ r _. rewrite take_take_drop. f_equal; lia.
Qed.

Lemma foldl_hcat_blocks w a m : ∀ j,
  foldl hcat (Array2 (take (j * w) <$> rows a) (j * w))
        ((λ i, col_block w i a) <$> seq j m)
  = Array2 (take ((j + m) * w) <$> rows a) ((j + m) * w).
Proof.
  induction m as [|m IH]; intros j; simpl.
  - by rewrite Nat.add_0_r.
  - rewrite hcat_take_block, IH.
    by replace ((S j + m) * w) with ((j + S m) * w) by (f_equal; lia).
Qed.

Lemma take_all_rows a : wf a → take (width a) <$> rows a = rows a.
Proof.
  unfold wf. intros Hwf.
  rewrite <- (list_fmap_id (rows a)) at 2. apply list_fmap_ext.
  intros i r Hr. apply take_ge.
  pose proof (Forall_lookup_1 _ _ _ _ Hwf Hr) as Hlen. simpl in *. lia.
Qed.

(** Joining the blocks of an array puts it together again. *)
Lemma np_concatenate_blocks w a n :
  wf a → 0 < n → width a = n * w →
  np_concatenate ((λ i, col_block w i a) <$> seq 0 n) = Ok a.
Proof.
  intros Hwf Hn Hw. destruct n as [|n]; [lia|]. simpl.
  rewrite (proj2 (forallb_forall _ _)).
  - f_equal.
    replace (col_block w 0 a) with (Array2 (take (1 * w) <$> rows a) (1 * w)).
    + etrans; [apply (foldl_hcat_blocks w a n 1)|].
      replace ((1 + n) * w) with (width a) by lia.
      rewrite take_all_rows by done. by destruct a.
    + unfold col_block. f_equal; [|lia]. apply list_fmap_ext.
      intros _ r _. simpl. f_equal. lia.
  - intros d Hd. apply bool_decide_eq_true.
    apply list_elem_of_In, list_elem_of_fmap in Hd as (i & -> & _).
    unfold shape0, col_block; simpl. by rewrite !length_fmap.
Qed.

End ArrayFacts.

(** ** [spec_to_chunks] *)

Section ChunkFacts.
Context {A : Type} (zero : A).
Implicit Types (spec : array2 A).

Lemma spec_to_chunks_short spec cs truncate :
  shape1 spec < cs → spec_to_chunks zero spec cs truncate = Ok [spec].
Proof. intros H. unfold spec_to_chunks. by rewrite decide_False by lia. Qed.

Lemma spec_to_chunks_pad spec cs :
  1 ≤ cs ≤ shape1 spec →
  spec_to_chunks zero spec cs false
  = Ok ((λ i, col_block cs i (pad_right zero (cs - shape1 spec `mod` cs) spec))
          <$> seq 0 (shape1 spec `div` cs + 1)).
Proof.
  intros [Hcs Hle]. unfold spec_to_chunks, shape1 in *.
  rewrite decide_True by done. rewrite decide_False by lia.
  apply np_split_multiple; [lia..|]. simpl.
  pose proof (Nat.div_mod_eq (width spec) cs).
  pose proof (Nat.mod_upper_bound (width spec) cs). nia.
Qed.

Lemma spec_to_chunks_truncate spec cs :
  1 ≤ cs ≤ shape1 spec → shape1 spec `mod` cs ≠ 0 →
  spec_to_chunks zero spec cs true
  = Ok ((λ i, col_block cs i (take_cols (- Z.of_nat (shape1 spec `mod` cs)) spec))
          <$> seq 0 (shape1 spec `div` cs)).
Proof.
  intros [Hcs Hle] Hr. unfold spec_to_chunks, shape1 in *.
  rewrite decide_True by done. rewrite decide_False by lia.
  pose proof (Nat.div_mod_eq (width spec) cs).
  pose proof (Nat.mod_upper_bound (width spec) cs).
  apply np_split_multiple; [lia| |].
  - intros Hq. rewrite Hq in *. lia.
  - simpl. rewrite slice_stop_neg by lia. nia.
Qed.

(** With [truncate=True] and a width that is a multiple of [chunk_size],
    [spec[:, :-0]] is empty and [np.split] is asked for 0 sections. *)
Lemma spec_to_chunks_truncate_exact spec cs :
  1 ≤ cs ≤ shape1 spec → shape1 spec `mod` cs = 0 →
  spec_to_chunks zero spec cs true
  = Raise (ZeroDivisionError "integer division or modulo by zero").
Proof.
  intros [Hcs Hle] Hr. unfold spec_to_chunks, shape1 in *.
  rewrite decide_True by done. rewrite decide_False by lia.
  rewrite Hr. unfold np_split, take_cols; simpl.
  rewrite slice_stop_zero. rewrite Nat.Div0.div_0_l. done.
Qed.

Lemma fixed_length_blocks (a : array2 A) cs n :
  fixed_length_chunks cs (Ok ((λ i, col_block cs i a) <$> seq 0 n)).
Proof.
  eexists; split; [done|]. split.
  - apply Forall_fmap, Forall_forall. by intros.
  - intros c c' (i & -> & _)%list_elem_of_fmap (j & -> & _)%list_elem_of_fmap.
    unfold shape0, col_block; simpl. by rewrite !length_fmap.
Qed.

(** Where [spec_to_chunks] does cut chunks of one width: whenever it pads,
    and when it truncates a width that is no multiple of [chunk_size]. *)
Lemma spec_to_chunks_fixed_length spec cs truncate :
  1 ≤ cs ≤ shape1 spec →
  truncate = false ∨ shape1 spec `mod` cs ≠ 0 →
  fixed_length_chunks cs (spec_to_chunks zero spec cs truncate).
Proof.
  intros Hcs Hcase. destruct truncate.
  - destruct Hcase as [|Hr]; [done|].
    rewrite spec_to_chunks_truncate by done. apply fixed_length_blocks.
  - rewrite spec_to_chunks_pad by done. apply fixed_length_blocks.
Qed.

Lemma smallest_multiple_ge_spec cs n :
  1 ≤ cs →
  n ≤ smallest_multiple_ge cs n
  ∧ smallest_multiple_ge cs n `mod` cs = 0
  ∧ ∀ m, n ≤ m → m `mod` cs = 0 → smallest_multiple_ge cs n ≤ m.
Proof.
  intros Hcs. unfold smallest_multiple_ge.
  pose proof (Nat.div_mod_eq (n + cs - 1) cs) as Hdm.
  pose proof (Nat.mod_upper_bound (n + cs - 1) cs).
  split; [nia|]. split.
  - rewrite Nat.mul_comm. by apply Nat.Div0.mod_mul.
  - intros m Hm Hmod.
    pose proof (Nat.div_mod_eq m cs) as Hm'. rewrite Hmod in Hm'.
    assert ((n + cs - 1) `div` cs ≤ m `div` cs); [|nia].
    apply Nat.div_le_lower_bound; [lia|].
    assert ((n + cs - 1) `div` cs < m `div` cs + 1); [|nia].
    apply Nat.Div0.div_lt_upper_bound. nia.
Qed.

Lemma smallest_multiple_ge_remainder cs n :
  1 ≤ cs → n `mod` cs ≠ 0 →
  smallest_multiple_ge cs n = n + (cs - n `mod` cs).
Proof.
  intros Hcs Hr. unfold smallest_multiple_ge.
  pose proof (Nat.div_mod_eq n cs) as Hn.
  pose proof (Nat.mod_upper_bound n cs).
  assert ((n + cs - 1) `div` cs = n `div` cs + 1) as ->; [|nia].
  symmetry. apply (Nat.div_unique _ _ _ (n `mod` cs - 1)); lia.
Qed.

End ChunkFacts.

(** C1 (the code departs from the claim). With [truncate=True] and
    [shape[-1]] an exact multiple of [chunk_size], [spec_to_chunks] does
    not return chunks of width [chunk_size]: on the 1x2 array [[1, 2]]
    with [chunk_size = 2] the slice [spec[:, :-0]] is empty, [np.split] is
    called with 0 sections and a [ZeroDivisionError] is raised. *)
Theorem spec_to_chunks_truncate_exact_multiple_raises :
  let spec := Array2 [[Fin 1; Fin 2]] 2 in
  wf spec ∧ 1 ≤ 2 ≤ shape1 spec
  ∧ spec_to_chunks (Fin 0) spec 2 true
    = Raise (ZeroDivisionError "integer division or modulo by zero")
  ∧ ¬ fixed_length_chunks 2 (spec_to_chunks (Fin 0) spec 2 true).
Proof.
  simpl. split; [by repeat constructor|]. split; [unfold shape1; simpl; lia|].
  assert (spec_to_chunks (Fin 0) (Array2 [[Fin 1; Fin 2]] 2) 2 true
          = Raise (ZeroDivisionError "integer division or modulo by zero")) as Heq
    by (apply spec_to_chunks_truncate_exact; unfold shape1; simpl; [lia|done]).
  split; [exact Heq|].
  rewrite Heq. intros (chunks & Hc & _). discriminate Hc.
Qed.

Section ReassembleFacts.
Context {A : Type} (zero : A).
Implicit Types (spec : array2 A).

Lemma reassemble_short spec cs :
  shape1 spec < cs → reassemble zero spec cs = Ok spec.
Proof.
  intros H. unfold reassemble. by rewrite spec_to_chunks_short.
Qed.

(** Whenever [spec_to_chunks] pads, the chunks join to the padded array. *)
Lemma reassemble_long spec cs :
  wf spec → 1 ≤ cs ≤ shape1 spec →
  reassemble zero spec cs
  = Ok (pad_right zero (cs - shape1 spec `mod` cs) spec).
Proof.
  intros Hwf Hcs. unfold reassemble. rewrite spec_to_chunks_pad by done.
  change (Ok ?x ≫= ?k) with (k x).
  apply np_concatenate_blocks; [by apply wf_pad_right|lia|].
  unfold shape1 in *. simpl.
  pose proof (Nat.div_mod_eq (width spec) cs).
  pose proof (Nat.mod_upper_bound (width spec) cs). nia.
Qed.

(** C2 (amended). For a 2-D array [spec] and [chunk_size >= 1], joining
    the chunks of [spec_to_chunks(spec, chunk_size, truncate=False)] along
    the last axis gives [spec] followed by zeros on the last axis, so
    [spec] is a prefix of the result. When [shape[-1] < chunk_size] nothing
    is added (the single chunk is [spec] itself); when
    [shape[-1] >= chunk_size] is not a multiple of [chunk_size], the result
    has the smallest multiple of [chunk_size] that is [>= shape[-1]] as
    its width. *)
Theorem reassemble_is_zero_padding spec cs :
  wf spec → 1 ≤ cs →
  ∃ p, reassemble zero spec cs = Ok (pad_right zero p spec)
    ∧ (shape1 spec < cs → p = 0)
    ∧ (cs ≤ shape1 spec → shape1 spec `mod` cs ≠ 0 →
       shape1 spec + p = smallest_multiple_ge cs (shape1 spec)).
Proof.
  intros Hwf Hcs. destruct (decide (shape1 spec < cs)) as [Hlt|Hge].
  - exists 0. rewrite reassemble_short, pad_right_zero by done.
    split; [done|]. split; [done|lia].
  - exists (cs - shape1 spec `mod` cs).
    rewrite reassemble_long by (done || lia).
    split; [done|]. split; [lia|].
    intros _ Hr. by rewrite smallest_multiple_ge_remainder.
Qed.

End ReassembleFacts.

Lemma reassemble_is_zero_padding_witness :
  let spec := Array2 [[Fin 1; Fin 2; Fin 3]] 3 in
  wf spec ∧ 1 ≤ 2
  ∧ ∃ p, reassemble (Fin 0) spec 2 = Ok (pad_right (Fin 0) p spec)
      ∧ (shape1 spec < 2 → p = 0)
      ∧ (2 ≤ shape1 spec → shape1 spec `mod` 2 ≠ 0 →
         shape1 spec + p = smallest_multiple_ge 2 (shape1 spec)).
Proof.
  simpl.
  assert (wf (Array2 [[Fin 1; Fin 2; Fin 3]] 3)) as Hwf by (by repeat constructor).
  assert (1 ≤ 2) as Hcs by lia.
  split; [exact Hwf|]. split; [exact Hcs|].
  exact (reassemble_is_zero_padding (Fin 0) _ 2 Hwf Hcs).
Defined.

(** C2 as stated fails when [shape[-1] < chunk_size]: the 1x1 array [[1]]
    with [chunk_size = 2] comes back as it is, of width 1, not padded to
    width 2. *)
Lemma reassemble_short_not_padded :
  let spec := Array2 [[Fin 1]] 1 in
  wf spec ∧ 1 ≤ 2
  ∧ smallest_multiple_ge 2 (shape1 spec) = 2
  ∧ reassemble (Fin 0) spec 2 = Ok spec
  ∧ reassemble (Fin 0) spec 2
    ≠ Ok (pad_right (Fin 0) (smallest_multiple_ge 2 (shape1 spec) - shape1 spec) spec).
Proof.
  simpl. split; [by repeat constructor|]. split; [lia|]. split; [done|].
  split; [done|]. intros H. discriminate H.
Qed.

(** The same departure at an exact multiple: a whole chunk of zeros is
    appended to a 1x2 array with [chunk_size = 2]. *)
Lemma reassemble_exact_multiple_adds_chunk :
  reassemble (Fin 0) (Array2 [[Fin 1; Fin 2]] 2) 2
  = Ok (Array2 [[Fin 1; Fin 2; Fin 0; Fin 0]] 4).
Proof. reflexivity. Qed.

(** ** Minimum, maximum and element-wise maps *)

Section NumericFacts.
Local Open Scope R_scope.
Implicit Types (a d spec : array2 R) (l : list R).

Lemma foldl_Rmax_spec l : ∀ x,
  foldl Rmax x l ∈ x :: l ∧ ∀ e, e ∈ x :: l → e <= foldl Rmax x l.
Proof.
  induction l as [|y l IH]; intros x; simpl.
  - split; [left|]. intros e ->%list_elem_of_singleton. lra.
  - destruct (IH (Rmax x y)) as [Hin Hle]. split.
    + apply elem_of_cons in Hin as [->|Hin].
      * apply Rmax_case; [left|right; left].
      * do 2 right. done.
    + intros e He. pose proof (Hle (Rmax x y) ltac:(left)) as Hxy.
      pose proof (Rmax_l x y). pose proof (Rmax_r x y).
      apply elem_of_cons in He as [->|He]; [lra|].
      apply elem_of_cons in He as [->|He]; [lra|].
      apply Hle. by right.
Qed.

Lemma foldl_Rmin_spec l : ∀ x,
  foldl Rmin x l ∈ x :: l ∧ ∀ e, e ∈ x :: l → foldl Rmin x l <= e.
Proof.
  induction l as [|y l IH]; intros x; simpl.
  - split; [left|]. intros e ->%list_elem_of_singleton. lra.
  - destruct (IH (Rmin x y)) as [Hin Hle]. split.
    + apply elem_of_cons in Hin as [->|Hin].
      * apply Rmin_case; [left|right; left].
      * do 2 right. done.
    + intros e He. pose proof (Hle (Rmin x y) ltac:(left)) as Hxy.
      pose proof (Rmin_l x y). pose proof (Rmin_r x y).
      apply elem_of_cons in He as [->|He]; [lra|].
      apply elem_of_cons in He as [->|He]; [lra|].
      apply Hle. by right.
Qed.

(** [a.max()] is the entry that bounds all entries. *)
Lemma np_max_spec a M :
  np_max a = Ok M ↔ M ∈ entries a ∧ ∀ e, e ∈ entries a → e <= M.
Proof.
  unfold np_max. destruct (entries a) as [|x l] eqn:Hent.
  - split; [discriminate|]. intros [Hin _]. by apply elem_of_nil in Hin.
  - destruct (foldl_Rmax_spec l x) as [Hin Hle]. split.
    + intros [= <-]. done.
    + intros [HM HleM]. f_equal.
      pose proof (Hle M HM). pose proof (HleM _ Hin). lra.
Qed.

Lemma np_min_spec a m :
  np_min a = Ok m ↔ m ∈ entries a ∧ ∀ e, e ∈ entries a → m <= e.
Proof.
  unfold np_min. destruct (entries a) as [|x l] eqn:Hent.
  - split; [discriminate|]. intros [Hin _]. by apply elem_of_nil in Hin.
  - destruct (foldl_Rmin_spec l x) as [Hin Hle]. split.
    + intros [= <-]. done.
    + intros [HM HleM]. f_equal.
      pose proof (Hle m HM). pose proof (HleM _ Hin). lra.
Qed.

(** An array with an entry has a minimum and a maximum. *)
Lemma np_min_max_exist a x :
  x ∈ entries a → ∃ m M, np_min a = Ok m ∧ np_max a = Ok M.
Proof.
  unfold np_min, np_max. destruct (entries a); [by intros ?%elem_of_nil|eauto].
Qed.

Lemma entries_amap {A B} (f : A → B) (a : array2 A) :
  entries (amap f a) = f <$> entries a.
Proof.
  unfold entries, amap; simpl.
  induction (rows a) as [|r rs IH]; [done|].
  rewrite fmap_cons. cbn [concat]. by rewrite fmap_app, IH.
Qed.

Lemma amap_amap {A B C} (f : A → B) (g : B → C) (a : array2 A) :
  amap g (amap f a) = amap (g ∘ f) a.
Proof.
  unfold amap; simpl. f_equal.
  rewrite <- list_fmap_compose. apply list_fmap_ext.
  intros _ r _. simpl. by rewrite <- list_fmap_compose.
Qed.

Lemma amap_ext {A B} (f g : A → B) (a : array2 A) :
  (∀ x, x ∈ entries a → f x = g x) → amap f a = amap g a.
Proof.
  unfold amap, entries. intros Hfg. f_equal.
  apply list_fmap_ext. intros i r Hr. apply list_fmap_ext. intros j x Hx.
  apply Hfg. apply list_elem_of_In, in_concat. exists r.
  split; apply list_elem_of_In; by eapply list_elem_of_lookup_2.
Qed.

(** The maximum commutes with a non-decreasing map. *)
Lemma np_max_monotone (f : R → R) a M :
  (∀ x y, x <= y → f x <= f y) →
  np_max a = Ok M → np_max (amap f a) = Ok (f M).
Proof.
  intros Hf [Hin Hle]%np_max_spec. apply np_max_spec.
  rewrite entries_amap. split.
  - by apply list_elem_of_fmap_2.
  - intros e (x & -> & Hx)%list_elem_of_fmap. auto.
Qed.

Lemma np_min_monotone (f : R → R) a m :
  (∀ x y, x <= y → f x <= f y) →
  np_min a = Ok m → np_min (amap f a) = Ok (f m).
Proof.
  intros Hf [Hin Hle]%np_min_spec. apply np_min_spec.
  rewrite entries_amap. split.
  - by apply list_elem_of_fmap_2.
  - intros e (x & -> & Hx)%list_elem_of_fmap. auto.
Qed.

End NumericFacts.

(** ** Normalisation *)

Section NormalizeFacts.
Local Open Scope R_scope.
Implicit Types (a d spec : array2 R).

(** The two steps of the normalisation in one formula: the divisor is the
    spread between the largest and the smallest entry. *)
Lemma normalize_eq a m M :
  np_min a = Ok m → np_max a = Ok M →
  normalize a = Ok (amap (λ x, fdiv (x - m) (M - m)) a).
Proof.
  intros Hmin Hmax. unfold normalize. rewrite Hmin.
  change (Ok m ≫= ?k) with (k m). cbv beta zeta.
  assert (np_max (amap Rabs (amap (λ x, x - m) a)) = Ok (M - m)) as ->.
  { rewrite amap_amap.
    rewrite (amap_ext _ (λ x, x - m)).
    - apply (np_max_monotone (λ x, x - m)); [intros; lra|done].
    - intros x Hx. simpl. apply Rabs_pos_eq.
      apply np_min_spec in Hmin as [_ Hle]. specialize (Hle _ Hx). lra. }
  change (Ok ?x ≫= ?k) with (k x). cbv beta. by rewrite amap_amap.
Qed.

Lemma normalize_nonconstant a m M :
  np_min a = Ok m → np_max a = Ok M → m < M →
  normalize a = Ok (amap Fin (amap (λ x, (x - m) / (M - m)) a)).
Proof.
  intros Hmin Hmax Hlt. rewrite (normalize_eq _ _ _ Hmin Hmax), amap_amap.
  f_equal. apply amap_ext. intros x _. unfold fdiv; simpl.
  destruct (Req_dec_T (M - m) 0); [lra|done].
Qed.

(** A constant array is mapped to [nan] everywhere: each quotient is [0/0]. *)
Lemma normalize_constant a m :
  np_min a = Ok m → np_max a = Ok m →
  normalize a = Ok (amap (λ _, NaN) a).
Proof.
  intros Hmin Hmax. rewrite (normalize_eq _ _ _ Hmin Hmax).
  f_equal. apply amap_ext. intros x Hx. unfold fdiv.
  apply np_min_spec in Hmin as [_ Hge]. apply np_max_spec in Hmax as [_ Hle].
  specialize (Hge _ Hx). specialize (Hle _ Hx).
  destruct (Req_dec_T (m - m) 0); [|lra].
  destruct (Req_dec_T (x - m) 0); [done|lra].
Qed.

(** C4 (amended). For every real-valued array with two different entries,
    the normalisation (subtract the minimum, divide by the maximum absolute
    value) returns an array of finite numbers whose entries all lie in
    [0, 1], with maximum exactly 1. *)
Theorem normalize_unit_range spec x y :
  x ∈ entries spec → y ∈ entries spec → x ≠ y →
  normalized_unit_range (normalize spec).
Proof.
  intros Hx Hy Hxy.
  destruct (np_min_max_exist _ _ Hx) as (m & M & Hmin & Hmax).
  pose proof Hmin as [_ Hge]%np_min_spec.
  pose proof Hmax as [_ Hle]%np_max_spec.
  assert (m < M) as Hlt.
  { pose proof (Hge _ Hx). pose proof (Hge _ Hy).
    pose proof (Hle _ Hx). pose proof (Hle _ Hy). lra. }
  assert (0 < / (M - m)) as Hinv by (apply Rinv_0_lt_compat; lra).
  exists (amap (λ x, (x - m) / (M - m)) spec).
  split; [by apply normalize_nonconstant|]. split.
  - rewrite entries_amap. apply Forall_fmap, Forall_forall.
    intros e He. simpl. specialize (Hge _ He). specialize (Hle _ He).
    unfold Rdiv. split; [nra|].
    apply (Rmult_le_reg_r (M - m)); [lra|].
    rewrite Rmult_assoc, Rinv_l by lra. lra.
  - replace 1 with ((M - m) / (M - m)) by (field; lra).
    apply (np_max_monotone (λ x, (x - m) / (M - m))); [|done].
    intros u v Huv. unfold Rdiv. nra.
Qed.

End NormalizeFacts.

Lemma normalize_unit_range_witness :
  let spec := Array2 [[0; -40]]%R 2 in
  (0 ∈ entries spec ∧ -40 ∈ entries spec ∧ 0 ≠ -40)%R
  ∧ normalized_unit_range (normalize spec).
Proof.
  simpl.
  assert (0%R ∈ entries (Array2 [[0; -40]]%R 2)) as H0 by (left).
  assert ((-40)%R ∈ entries (Array2 [[0; -40]]%R 2)) as H1 by (right; left).
  assert (0%R ≠ (-40)%R) as Hne by lra.
  split; [done|].
  exact (normalize_unit_range _ _ _ H0 H1 Hne).
Defined.

(** ** Decibels: [power_to_db] and the way back *)

(** Minimum and maximum of an array given by its entries. *)
Ltac in_entries :=
  unfold entries; simpl; solve [ repeat first [ by left | right ] ].
Ltac bounds_entries :=
  let e := fresh "e" in let He := fresh "He" in
  intros e He; unfold entries in He; simpl in He; set_unfold;
  destruct_or!; subst; try done; lra.
Ltac extremum :=
  first [ apply np_min_spec | apply np_max_spec ]; split; [ in_entries | bounds_entries ].

Section DecibelFacts.
Local Open Scope R_scope.
Implicit Types (a d spec : array2 R).

Lemma ln_10_pos : 0 < ln 10.
Proof. rewrite <- ln_1. apply ln_increasing; lra. Qed.

Lemma log10_le x y : 0 < x → x <= y → log10 x <= log10 y.
Proof.
  intros Hx Hxy. unfold log10, Rdiv.
  pose proof ln_10_pos. pose proof (Rinv_0_lt_compat _ H).
  assert (ln x <= ln y); [|nra].
  destruct Hxy as [Hlt| ->]; [|lra]. left. by apply ln_increasing.
Qed.

Lemma log10_1 : log10 1 = 0.
Proof. unfold log10. rewrite ln_1. pose proof ln_10_pos. field. lra. Qed.

Lemma log10_inv_pow (n : nat) : log10 (/ 10 ^ n) = - INR n.
Proof.
  unfold log10. pose proof ln_10_pos.
  rewrite ln_Rinv by (apply pow_lt; lra). rewrite ln_pow by lra. field. lra.
Qed.

Lemma amin_pos : 0 < amin.
Proof. unfold amin. apply Rinv_0_lt_compat, pow_lt. lra. Qed.

Lemma decibels_monotone ref_value x y :
  x <= y → decibels ref_value x <= decibels ref_value y.
Proof.
  intros Hxy. unfold decibels.
  assert (log10 (Rmax amin x) <= log10 (Rmax amin y)); [|lra].
  apply log10_le.
  - pose proof amin_pos. pose proof (Rmax_l amin x). lra.
  - apply Rmax_lub; [apply Rmax_l|]. pose proof (Rmax_r amin y). lra.
Qed.

(** [power_to_db] in closed form. *)
Lemma power_to_db_eq spec top_db ref_value :
  np_max spec = Ok ref_value → 0 <= top_db →
  power_to_db spec top_db
  = Ok (amap (λ s, Rmax (decibels ref_value s) (- top_db)) spec).
Proof.
  intros Hmax Htop. unfold power_to_db. rewrite Hmax.
  change (Ok ?x ≫= ?k) with (k x). cbv beta zeta.
  destruct (Rlt_dec top_db 0) as [|_]; [lra|].
  rewrite (np_max_monotone (decibels ref_value) _ _
             (decibels_monotone ref_value) Hmax).
  change (Ok ?x ≫= ?k) with (k x). cbv beta.
  rewrite amap_amap. f_equal. apply amap_ext. intros s _. simpl.
  f_equal. unfold decibels. lra.
Qed.

(** With [ref=np.max] the largest decibel value is 0, and nothing lies
    more than [top_db] below it. *)
Lemma power_to_db_range spec top_db d :
  power_to_db spec top_db = Ok d →
  0 <= top_db ∧ np_max d = Ok 0 ∧ ∀ e, e ∈ entries d → - top_db <= e.
Proof.
  intros Hd.
  assert (∃ ref_value, np_max spec = Ok ref_value ∧ 0 <= top_db)
    as (ref_value & Hmax & Htop).
  { unfold power_to_db in Hd.
    destruct (np_max spec) as [ref_value|]; [|discriminate Hd].
    change (Ok ?x ≫= ?k) with (k x) in Hd. cbv beta zeta in Hd.
    destruct (Rlt_dec top_db 0); [discriminate Hd|].
    exists ref_value. split; [done|lra]. }
  rewrite (power_to_db_eq _ _ _ Hmax Htop) in Hd. injection Hd as <-.
  split; [done|]. split.
  - replace 0 with (Rmax (decibels ref_value ref_value) (- top_db)).
    + apply (np_max_monotone (λ s, Rmax (decibels ref_value s) (- top_db))); [|done].
      intros x y Hxy. pose proof (decibels_monotone ref_value _ _ Hxy).
      apply Rmax_lub; [|apply Rmax_r].
      pose proof (Rmax_l (decibels ref_value y) (- top_db)). lra.
    + unfold decibels. rewrite Rmax_left by lra. lra.
  - intros e He. rewrite entries_amap in He.
    apply list_elem_of_fmap in He as (s & -> & _). apply Rmax_r.
Qed.

(** Normalising and mapping back rescales the decibel values by
    [top_db / -min]. *)
Lemma normalize_then_denormalize_eq top_db d m :
  np_min d = Ok m → np_max d = Ok 0 → m < 0 →
  normalize_then_denormalize top_db d
  = Ok (amap (λ x, Fin (top_db * x / - m)) d).
Proof.
  intros Hmin Hmax Hm. unfold normalize_then_denormalize.
  rewrite (normalize_nonconstant _ _ _ Hmin Hmax Hm).
  change (Ok ?x ≫= ?k) with (k x). cbv beta.
  unfold denormalize. rewrite !amap_amap. f_equal.
  apply amap_ext. intros x _. simpl. f_equal. field. lra.
Qed.

(** In exact arithmetic the values come back when the floor is reached. *)
Lemma normalize_then_denormalize_exact TOP_DB d :
  np_max d = Ok 0 → 0 < TOP_DB → np_min d = Ok (- TOP_DB) →
  normalize_then_denormalize TOP_DB d = Ok (amap Fin d).
Proof.
  intros Hmax Htop Hmin.
  rewrite (normalize_then_denormalize_eq _ _ _ Hmin Hmax) by lra.
  f_equal. apply amap_ext. intros x _. f_equal. field. lra.
Qed.

Lemma inv_pow10_le_1 (n : nat) : / 10 ^ n <= 1.
Proof.
  rewrite <- Rinv_1. apply Rinv_le_contravar; [lra|].
  apply pow_R1_Rle. lra.
Qed.

Lemma decibels_one_one : decibels 1 1 = 0.
Proof. unfold decibels. lra. Qed.

Lemma decibels_one_inv_pow (n : nat) :
  (n ≤ 10)%nat → decibels 1 (/ 10 ^ n) = -10 * INR n.
Proof.
  intros Hn. unfold decibels. pose proof amin_pos.
  rewrite (Rmax_right amin 1) by (unfold amin; apply inv_pow10_le_1).
  rewrite (Rmax_right amin (/ 10 ^ n)).
  - rewrite log10_1, log10_inv_pow. lra.
  - unfold amin. apply Rinv_le_contravar; [apply pow_lt; lra|].
    apply Rle_pow; [lra|done].
Qed.

(** A spectrogram whose powers span 40 dB, and one that spans more than
    [top_db]. *)
Lemma power_to_db_example_40 :
  power_to_db (Array2 [[1; / 10 ^ 4]] 2) 80 = Ok (Array2 [[0; -40]] 2).
Proof.
  pose proof (inv_pow10_le_1 4).
  rewrite (power_to_db_eq _ _ 1); [|extremum|lra].
  unfold amap; cbn [rows width fmap list_fmap].
  rewrite decibels_one_one, decibels_one_inv_pow by lia. simpl INR.
  rewrite !Rmax_left by lra. repeat f_equal. lra.
Qed.

Lemma power_to_db_example_clipped :
  power_to_db (Array2 [[1; / 10 ^ 9]] 2) 80 = Ok (Array2 [[0; -80]] 2).
Proof.
  pose proof (inv_pow10_le_1 9).
  rewrite (power_to_db_eq _ _ 1); [|extremum|lra].
  unfold amap; cbn [rows width fmap list_fmap].
  rewrite decibels_one_one, decibels_one_inv_pow by lia. simpl INR.
  rewrite (Rmax_left 0) by lra. rewrite Rmax_right by lra. done.
Qed.

End DecibelFacts.

(** Silence: a mel power spectrogram of zeros has the decibel values 0. *)
Lemma power_to_db_silence :
  power_to_db (Array2 [[0; 0]]%R 2) 80 = Ok (Array2 [[0; 0]]%R 2).
Proof.
  rewrite (power_to_db_eq _ _ 0%R); [|extremum|lra].
  unfold amap, decibels; cbn [rows width fmap list_fmap].
  rewrite Rmax_left by lra. replace (10 * log10 (Rmax amin 0) - 10 * log10 (Rmax amin 0))%R
    with 0%R by lra. done.
Qed.

(** C4 as stated fails on a constant array, such as the decibel
    spectrogram of silence: the 1x2 array [[0, 0]] is normalised to
    [[nan, nan]]. *)
Lemma normalize_constant_is_nan :
  let spec := Array2 [[0; 0]]%R 2 in
  power_to_db spec 80 = Ok spec
  ∧ normalize spec = Ok (Array2 [[NaN; NaN]] 2)
  ∧ ¬ normalized_unit_range (normalize spec).
Proof.
  simpl. split; [exact power_to_db_silence|].
  assert (normalize (Array2 [[0; 0]]%R 2) = Ok (Array2 [[NaN; NaN]] 2)) as Heq.
  { rewrite (normalize_constant _ 0%R); [done|extremum|extremum]. }
  split; [exact Heq|]. rewrite Heq.
  intros (out & Hout & _). destruct out as [[|[|v r] rs] w]; discriminate Hout.
Qed.

(** ** Rounding: the way back in floating point *)

Section RoundingFacts.
Local Open Scope R_scope.
Context (u : R) (rnd : R → R) (Hrnd : rounding u rnd).
Implicit Types (a d spec : array2 R).

Lemma rnd_0 : rnd 0 = 0.
Proof.
  pose proof (rnd_error _ _ Hrnd 0) as H. rewrite Rabs_R0, Rmult_0_r in H.
  unfold Rabs in H. destruct (Rcase_abs _); lra.
Qed.

Lemma unit_roundoff_nonneg : 0 <= u.
Proof.
  pose proof (rnd_error _ _ Hrnd 1) as H. rewrite Rabs_R1, Rmult_1_r in H.
  pose proof (Rabs_pos (rnd 1 - 1)). lra.
Qed.

Lemma rnd_opp_representable x : representable rnd x → rnd (- x) = - x.
Proof. intros Hx. by rewrite (rnd_odd _ _ Hrnd), Hx. Qed.

(** Rounding stays between representable bounds. *)
Lemma rnd_between lo hi x :
  representable rnd lo → representable rnd hi →
  lo <= x <= hi → lo <= rnd x <= hi.
Proof.
  unfold representable. intros Hlo Hhi [H1 H2].
  pose proof (rnd_monotone _ _ Hrnd _ _ H1). pose proof (rnd_monotone _ _ Hrnd _ _ H2).
  lra.
Qed.

(** The error of one rounding, for an argument of size at most [b]. *)
Lemma rnd_error_bound x b :
  Rabs x <= b → - (u * b) <= rnd x - x <= u * b.
Proof.
  intros Hb. pose proof (rnd_error _ _ Hrnd x) as H.
  pose proof unit_roundoff_nonneg. pose proof (Rabs_pos x).
  assert (u * Rabs x <= u * b) by (by apply Rmult_le_compat_l).
  assert (Rabs (rnd x - x) <= u * b) as H' by lra.
  revert H'. unfold Rabs. destruct (Rcase_abs (rnd x - x)); lra.
Qed.

(** One entry on its way through normalisation (minimum [-T], spread [T])
    and back: four roundings, each with an error of at most [u * T]. *)
Lemma roundtrip_entry_error T x :
  0 < T → representable rnd 1 → representable rnd T → - T <= x <= 0 →
  Rabs (rnd (T * rnd (rnd (rnd (x - - T) / T) - 1)) - x) <= 4 * u * T.
Proof.
  intros HT H1 HrT [Hlo Hhi].
  pose proof unit_roundoff_nonneg as Hu.
  pose proof rnd_0 as H0.
  assert (0 < / T) as HiT by (by apply Rinv_0_lt_compat).
  set (a := x - - T). set (s := rnd a).
  assert (0 <= a <= T) as Ha by (unfold a; lra).
  assert (0 <= s <= T) as Hs by (by apply rnd_between).
  assert (- (u * T) <= s - a <= u * T) as E1.
  { apply rnd_error_bound. apply Rabs_le. lra. }
  set (c := s / T). set (q := rnd c).
  assert (T * c = s) as HTc by (unfold c; field; lra).
  assert (0 <= c <= 1) as Hc.
  { unfold c, Rdiv. split; [nra|].
    apply (Rmult_le_reg_r T); [lra|]. rewrite Rmult_assoc, Rinv_l by lra. lra. }
  assert (0 <= q <= 1) as Hq by (by apply rnd_between).
  assert (- (u * 1) <= q - c <= u * 1) as E2.
  { apply rnd_error_bound. apply Rabs_le. lra. }
  set (z := q - 1). set (v := rnd z).
  assert (- (1) <= v <= 0) as Hv.
  { apply rnd_between; [by apply rnd_opp_representable|done|unfold z; lra]. }
  assert (- (u * 1) <= v - z <= u * 1) as E3.
  { apply rnd_error_bound. apply Rabs_le. unfold z. lra. }
  set (y := T * v). set (r := rnd y).
  assert (- (u * T) <= r - y <= u * T) as E4.
  { apply rnd_error_bound. apply Rabs_le. unfold y. nra. }
  assert (r - x = (r - y) + T * (v - z) + T * (q - c) + (s - a)) as ->.
  { unfold y, z, a. lra. }
  assert (- (T * (u * 1)) <= T * (v - z) <= T * (u * 1)) as E3'.
  { split; [replace (- (T * (u * 1))) with (T * - (u * 1)) by lra|];
      apply Rmult_le_compat_l; lra. }
  assert (- (T * (u * 1)) <= T * (q - c) <= T * (u * 1)) as E2'.
  { split; [replace (- (T * (u * 1))) with (T * - (u * 1)) by lra|];
      apply Rmult_le_compat_l; lra. }
  apply Rabs_le. lra.
Qed.

(** The two ends of the range come back exactly. *)
Lemma roundtrip_entry_max T :
  0 < T → representable rnd 1 → representable rnd T →
  rnd (T * rnd (rnd (rnd (0 - - T) / T) - 1)) = 0.
Proof.
  intros HT H1 HrT.
  replace (0 - - T) with T by lra. rewrite HrT.
  replace (T / T) with 1 by (field; lra). rewrite H1.
  replace (1 - 1) with 0 by lra. rewrite rnd_0, Rmult_0_r. apply rnd_0.
Qed.

Lemma roundtrip_entry_min T :
  0 < T → representable rnd 1 → representable rnd T →
  rnd (T * rnd (rnd (rnd (- T - - T) / T) - 1)) = - T.
Proof.
  intros HT H1 HrT.
  replace (- T - - T) with 0 by lra. rewrite rnd_0.
  replace (0 / T) with 0 by (field; lra). rewrite rnd_0.
  replace (0 - 1) with (- (1)) by lra. rewrite (rnd_opp_representable 1 H1).
  replace (T * - (1)) with (- T) by lra. by apply rnd_opp_representable.
Qed.

(** The rounded normalisation in one formula. *)
Lemma normalize_rounded_eq a m M :
  np_min a = Ok m → np_max a = Ok M →
  normalize_rounded rnd a
  = Ok (amap (λ x, fround rnd (fdiv (rnd (x - m)) (rnd (M - m)))) a).
Proof.
  intros Hmin Hmax. unfold normalize_rounded. rewrite Hmin.
  change (Ok m ≫= ?k) with (k m). cbv beta zeta.
  assert (np_max (amap Rabs (amap (λ x, rnd (x - m)) a)) = Ok (rnd (M - m))) as ->.
  { rewrite amap_amap.
    rewrite (amap_ext _ (λ x, rnd (x - m))).
    - apply (np_max_monotone (λ x, rnd (x - m))); [|done].
      intros x y Hxy. apply (rnd_monotone _ _ Hrnd). lra.
    - intros x Hx. simpl. apply Rabs_pos_eq. rewrite <- rnd_0.
      apply (rnd_monotone _ _ Hrnd).
      apply np_min_spec in Hmin as [_ Hle]. specialize (Hle _ Hx). lra. }
  change (Ok ?x ≫= ?k) with (k x). cbv beta. by rewrite amap_amap.
Qed.

(** Normalising and mapping back an array with largest value 0 and
    smallest value [-T], entry by entry. *)
Lemma normalize_then_denormalize_rounded_eq T d :
  0 < T → representable rnd T →
  np_max d = Ok 0 → np_min d = Ok (- T) →
  normalize_then_denormalize_rounded rnd T d
  = Ok (amap (λ x, Fin (rnd (T * rnd (rnd (rnd (x - - T) / T) - 1)))) d).
Proof.
  intros HT HrT Hmax Hmin. unfold normalize_then_denormalize_rounded.
  rewrite (normalize_rounded_eq _ _ _ Hmin Hmax).
  change (Ok ?x ≫= ?k) with (k x). cbv beta.
  unfold denormalize_rounded. rewrite amap_amap. f_equal.
  apply amap_ext. intros x _. simpl.
  replace (0 - - T) with T by lra. rewrite HrT.
  unfold fdiv. destruct (Req_dec_T T 0) as [|_]; [lra|]. done.
Qed.

(** What [power_to_db] with [ref=np.max] returns, rounding included: the
    largest value is 0 and nothing lies below [-top_db]. *)
Lemma power_to_db_rounded_range (lg : R → R) spec top_db d :
  (∀ x y, 0 < x → x <= y → lg x <= lg y) →
  representable rnd top_db →
  power_to_db_rounded rnd lg spec top_db = Ok d →
  0 <= top_db ∧ np_max d = Ok 0 ∧ ∀ e, e ∈ entries d → - top_db <= e.
Proof.
  intros Hlg Htop Hd. unfold power_to_db_rounded in Hd.
  destruct (np_max spec) as [ref_value|] eqn:Hmax; [|discriminate Hd].
  change (Ok ?x ≫= ?k) with (k x) in Hd. cbv beta zeta in Hd.
  destruct (Rlt_dec top_db 0) as [|Hpos]; [discriminate Hd|].
  assert (∀ x y, x <= y →
    decibels_rounded rnd lg ref_value x <= decibels_rounded rnd lg ref_value y)
    as Hmono.
  { intros x y Hxy. unfold decibels_rounded.
    apply (rnd_monotone _ _ Hrnd).
    assert (rnd (10 * lg (Rmax amin x)) <= rnd (10 * lg (Rmax amin y))); [|lra].
    apply (rnd_monotone _ _ Hrnd).
    assert (lg (Rmax amin x) <= lg (Rmax amin y)); [|lra].
    apply Hlg.
    - pose proof amin_pos. pose proof (Rmax_l amin x). lra.
    - apply Rmax_lub; [apply Rmax_l|]. pose proof (Rmax_r amin y). lra. }
  assert (decibels_rounded rnd lg ref_value ref_value = 0) as Hzero.
  { unfold decibels_rounded.
    replace (rnd (10 * lg (Rmax amin ref_value)) - rnd (10 * lg (Rmax amin ref_value)))
      with 0 by lra.
    apply rnd_0. }
  rewrite (np_max_monotone _ _ _ Hmono Hmax), Hzero in Hd.
  change (Ok ?x ≫= ?k) with (k x) in Hd. cbv beta in Hd.
  replace (rnd (0 - top_db)) with (- top_db) in Hd
    by (replace (0 - top_db) with (- top_db) by lra;
        symmetry; by apply rnd_opp_representable).
  injection Hd as <-. split; [lra|]. split.
  - rewrite amap_amap.
    replace 0 with (Rmax (decibels_rounded rnd lg ref_value ref_value) (- top_db))
      by (rewrite Hzero; apply Rmax_left; lra).
    apply (np_max_monotone
             (λ s, Rmax (decibels_rounded rnd lg ref_value s) (- top_db))); [|done].
    intros x y Hxy. pose proof (Hmono _ _ Hxy).
    apply Rmax_lub; [|apply Rmax_r].
    pose proof (Rmax_l (decibels_rounded rnd lg ref_value y) (- top_db)). lra.
  - intros e He. rewrite entries_amap in He.
    apply list_elem_of_fmap in He as (s & -> & _). apply Rmax_r.
Qed.

(** C3 (amended). For every decibel array [d] that [power_to_db] produces
    in [convert_audio_to_numpy] and whose smallest value is [-TOP_DB] (the
    floor that [top_db] clips to is reached), the map
    [v -> TOP_DB * (v - 1)] of [convert_numpy_to_audio], applied to the
    normalised array, gives back the decibel values [d] up to rounding:
    every entry [x] comes back as a finite number [g x] within
    [4 * u * TOP_DB] of [x], [u] being the unit roundoff, and the largest
    value 0 and the smallest value [-TOP_DB] come back exactly. The mel
    power spectrogram is another matter: [db_to_power] with [ref=50000]
    maps the recovered maximum to 50000, whatever the largest power was. *)
Theorem denormalize_inverts_normalize (lg : R → R) spec TOP_DB d :
  (∀ x y, 0 < x → x <= y → lg x <= lg y) →
  representable rnd 1 → representable rnd TOP_DB → 0 < TOP_DB →
  power_to_db_rounded rnd lg spec TOP_DB = Ok d →
  np_min d = Ok (- TOP_DB) →
  ∃ g : R → R,
    normalize_then_denormalize_rounded rnd TOP_DB d = Ok (amap (λ x, Fin (g x)) d)
    ∧ (∀ x, x ∈ entries d → Rabs (g x - x) <= 4 * u * TOP_DB)
    ∧ g 0 = 0 ∧ g (- TOP_DB) = - TOP_DB
    ∧ db_to_power_entry 50000 (g 0) = 50000.
Proof.
  intros Hlg H1 HrT HT Hd Hmin.
  destruct (power_to_db_rounded_range _ _ _ _ Hlg HrT Hd) as (_ & Hmax & Hge).
  exists (λ x, rnd (TOP_DB * rnd (rnd (rnd (x - - TOP_DB) / TOP_DB) - 1))).
  split; [by apply normalize_then_denormalize_rounded_eq|]. split.
  - intros x Hx. apply roundtrip_entry_error; [done..|].
    split; [by apply Hge|].
    apply np_max_spec in Hmax as [_ Hle]. by apply Hle.
  - rewrite roundtrip_entry_max by done. split; [done|].
    split; [by apply roundtrip_entry_min|].
    unfold db_to_power_entry. rewrite Rmult_0_r, Rpower_O by lra. lra.
Qed.

End RoundingFacts.

(** Exact arithmetic is the rounding that changes nothing; its model of
    [power_to_db] is the one above. *)
Lemma rounding_exact (u : R) : (0 <= u)%R → rounding u (λ x, x).
Proof.
  intros Hu. split; [done|done|]. intros x.
  replace (x - x)%R with 0%R by lra. rewrite Rabs_R0.
  apply Rmult_le_pos; [done|apply Rabs_pos].
Qed.

Lemma power_to_db_rounded_exact spec top_db :
  power_to_db_rounded (λ x, x) log10 spec top_db = power_to_db spec top_db.
Proof. reflexivity. Qed.

Lemma denormalize_inverts_normalize_witness :
  let u := (/ 2 ^ 53)%R in
  let rnd := λ x : R, x in
  let spec := Array2 [[1; / 10 ^ 9]]%R 2 in
  let d := Array2 [[0; -80]]%R 2 in
  (rounding u rnd
   ∧ (∀ x y, 0 < x → x <= y → log10 x <= log10 y)%R
   ∧ representable rnd 1%R ∧ representable rnd 80%R ∧ (0 < 80)%R
   ∧ power_to_db_rounded rnd log10 spec 80 = Ok d
   ∧ np_min d = Ok (- 80)%R)
  ∧ ∃ g : R → R,
      normalize_then_denormalize_rounded rnd 80 d = Ok (amap (λ x, Fin (g x)) d)
      ∧ (∀ x, x ∈ entries d → Rabs (g x - x) <= 4 * u * 80)%R
      ∧ g 0%R = 0%R ∧ g (- 80)%R = (- 80)%R
      ∧ db_to_power_entry 50000 (g 0%R) = 50000%R.
Proof.
  cbv zeta.
  assert (0 <= / 2 ^ 53)%R as Hu.
  { left. apply Rinv_0_lt_compat, pow_lt. lra. }
  pose proof (rounding_exact _ Hu) as Hrnd.
  pose proof log10_le as Hlg.
  assert (representable (λ x : R, x) 1%R) as H1 by reflexivity.
  assert (representable (λ x : R, x) 80%R) as HrT by reflexivity.
  assert (0 < 80)%R as HT by lra.
  pose proof power_to_db_example_clipped as Hd.
  rewrite <- power_to_db_rounded_exact in Hd.
  assert (np_min (Array2 [[0; -80]]%R 2) = Ok (- 80)%R) as Hmin by extremum.
  split; [exact (conj Hrnd (conj Hlg (conj H1 (conj HrT (conj HT (conj Hd Hmin))))))|].
  exact (denormalize_inverts_normalize _ _ Hrnd log10 _ 80%R _ Hlg H1 HrT HT Hd Hmin).
Defined.

(** C3 as stated fails twice. When the spectrogram spans less than
    [TOP_DB] decibels the values are rescaled: with [TOP_DB = 80], the
    powers [[1, 0.0001]] give the decibel values [[0, -40]]; normalised
    they are [[1, 0]], and [80 * (v - 1)] maps them to [[0, -80]]. And
    when the decibel values do come back, the powers do not: the powers
    [[1, 0.000000001]] give [[0, -80]], which comes back as it is, and
    [db_to_power] with [ref=50000] maps its first entry to 50000, not 1. *)
Lemma denormalize_rescales_narrow_range :
  (let spec := Array2 [[1; / 10 ^ 4]]%R 2 in
   let d := Array2 [[0; -40]]%R 2 in
   power_to_db spec 80 = Ok d
   ∧ normalize_then_denormalize 80 d = Ok (Array2 [[Fin 0; Fin (-80)]] 2)
   ∧ normalize_then_denormalize 80 d ≠ Ok (amap Fin d))
  ∧ (let spec := Array2 [[1; / 10 ^ 9]]%R 2 in
     let d := Array2 [[0; -80]]%R 2 in
     power_to_db spec 80 = Ok d
     ∧ normalize_then_denormalize 80 d = Ok (amap Fin d)
     ∧ db_to_power_entry 50000 0 = 50000%R
     ∧ amap (db_to_power_entry 50000) d ≠ spec).
Proof.
  cbv zeta. split.
  - split; [exact power_to_db_example_40|].
    assert (normalize_then_denormalize 80 (Array2 [[0; -40]]%R 2)
            = Ok (Array2 [[Fin 0; Fin (-80)]] 2)) as Heq.
    { rewrite (normalize_then_denormalize_eq _ _ (-40)%R); [|extremum|extremum|lra].
      unfold amap; cbn [rows width fmap list_fmap]. repeat f_equal; field. }
    split; [exact Heq|]. rewrite Heq.
    unfold amap; cbn [rows width fmap list_fmap]. intros [= H]. lra.
  - split; [exact power_to_db_example_clipped|].
    assert (db_to_power_entry 50000 0 = 50000%R) as Hpow.
    { unfold db_to_power_entry. rewrite Rmult_0_r, Rpower_O by lra. lra. }
    split; [|split; [exact Hpow|]].
    + replace (-80)%R with (Ropp 80) by lra.
      apply normalize_then_denormalize_exact; [extremum|lra|extremum].
    + unfold amap; cbn [rows width fmap list_fmap]. rewrite Hpow.
      intros [= H _]. lra.
Qed.

(** ** Data-type detection *)

(** Case analysis on the tests of a definition. *)
Ltac split_tests :=
  repeat match goal with
         | |- context [decide ?P] => destruct (decide P)
         | |- context [match ?x with _ => _ end] => destruct x eqn:?
         end.

Section DetectionFacts.
Implicit Types (w : world) (p : path) (found : gset DataType).

(** What one extension adds to the set of matched types. *)
Lemma add_matches_spec found f d :
  d ∈ add_matches found f ↔ d ∈ found ∨ d ∈ add_matches ∅ f.
Proof.
  unfold add_matches, SUPPORTED_EXTENSIONS. cbn [foldl].
  split_tests; set_solver.
Qed.

Lemma add_matches_extension found f f' :
  extension f = extension f' → add_matches found f = add_matches found f'.
Proof. unfold add_matches. by intros ->. Qed.

Lemma foldl_add_matches_spec files : ∀ found d,
  d ∈ foldl add_matches found files
  ↔ d ∈ found ∨ ∃ f, f ∈ files ∧ d ∈ add_matches ∅ f.
Proof.
  induction files as [|f files IH]; intros found d; simpl.
  - set_solver.
  - rewrite IH, add_matches_spec. set_solver.
Qed.

Lemma found_types_spec files d :
  d ∈ found_types files ↔ ∃ f, f ∈ files ∧ d ∈ add_matches ∅ f.
Proof. unfold found_types. rewrite foldl_add_matches_spec. set_solver. Qed.

(** A file whose name has no suffix matches no type. *)
Lemma add_matches_carries_extension f d :
  d ∈ add_matches ∅ f → extension f ≠ "".
Proof.
  unfold add_matches, SUPPORTED_EXTENSIONS. cbn [foldl]. intros Hd Hnone.
  rewrite Hnone in Hd. revert Hd. split_tests; set_solver.
Qed.

(** The matched types are a function of the set of extensions. *)
Lemma found_types_extensions files files' :
  (list_to_set (filter (λ e, e ≠ "") (extension <$> files)) : gset string)
  = list_to_set (filter (λ e, e ≠ "") (extension <$> files')) →
  found_types files = found_types files'.
Proof.
  intros Hext. apply set_eq. intros d. rewrite !found_types_spec.
  assert (∀ l l' : list path,
    (list_to_set (filter (λ e, e ≠ "") (extension <$> l)) : gset string)
    = list_to_set (filter (λ e, e ≠ "") (extension <$> l')) →
    (∃ f, f ∈ l ∧ d ∈ add_matches ∅ f) → ∃ f, f ∈ l' ∧ d ∈ add_matches ∅ f) as Himp.
  { intros l l' Heq (f & Hf & Hd).
    assert (extension f
            ∈ (list_to_set (filter (λ e, e ≠ "") (extension <$> l')) : gset string))
      as Hin.
    { rewrite <- Heq. apply elem_of_list_to_set, list_elem_of_filter.
      split; [by eapply add_matches_carries_extension|].
      apply list_elem_of_fmap_2, Hf. }
    apply elem_of_list_to_set, list_elem_of_filter in Hin as [_ Hin].
    apply list_elem_of_fmap in Hin as (f' & Hff' & Hf').
    exists f'. split; [done|]. by rewrite <- (add_matches_extension _ _ _ Hff'). }
  split; apply Himp; done.
Qed.

(** Whatever [classify] raises is one of the two [ValueError]s. *)
Lemma classify_raises found b e :
  classify found b = Raise e →
  e = ValueError unknown_message
  ∨ e = ValueError (ambiguous_message (show_types found)).
Proof.
  unfold classify. destruct (decide (size found = 0)) as [H0|H0].
  { destruct b; [|discriminate]. intros [= <-]. by left. }
  destruct (decide (size found = 1)) as [H1|H1].
  - apply size_1_elem_of in H1 as (t & Ht). apply leibniz_equiv in Ht.
    rewrite Ht, elements_singleton. discriminate.
  - destruct b; [|discriminate]. intros [= <-]. by right.
Qed.

(** [get_data_type] step by step: one line is printed, the matched types
    are classified, and a second line is printed unless that raised. *)
Lemma get_data_type_eq p b w :
  get_data_type p b w
  = let w1 := World (fs w) (stdout w ++ ["Checking input type(s)..."]) (entered w) in
    match classify (found_types (files_under (fs w) p)) b with
    | Ok dtype =>
        (Ok dtype,
         World (fs w)
           (stdout w1 ++ ["Determined input type to be " +:+ Fore_CYAN +:+ "'"
                          +:+ DataType_name dtype +:+ "'" +:+ Fore_RESET])
           (entered w))
    | Raise e => (Raise e, w1)
    end.
Proof.
  unfold get_data_type, mbind, M_bind, mret, M_ret, print, get_fs, lift_result.
  simpl. by destruct (classify _ b).
Qed.

(** [get_data_type] only reads the files: it prints, and leaves the file
    system and the record of calls alone. *)
Lemma get_data_type_frame p b w :
  fs (get_data_type p b w).2 = fs w
  ∧ entered (get_data_type p b w).2 = entered w.
Proof. rewrite get_data_type_eq. simpl. by destruct (classify _ b). Qed.

(** The outcome and the printed lines are a function of the matched types. *)
Lemma get_data_type_found p p' b w w' :
  found_types (files_under (fs w) p) = found_types (files_under (fs w') p') →
  (get_data_type p b w).1 = (get_data_type p' b w').1
  ∧ printed w (get_data_type p b w).2 = printed w' (get_data_type p' b w').2.
Proof.
  intros Hfound. unfold printed. rewrite !get_data_type_eq, Hfound. simpl.
  destruct (classify _ b); simpl;
    rewrite <- ?(assoc_L (++)), ?drop_app_length; done.
Qed.

(** C8. The result of [get_data_type] depends only on the extensions of
    the regular files under the path: two inputs whose files carry the
    same set of extensions get the same [DataType], or raise the same of
    the two [ValueError]s, for the same [raise_exception], and the same
    lines are printed. File contents play no part, and neither do files
    whose names have no suffix. *)
Theorem get_data_type_depends_on_extensions p p' b w w' :
  extensions (fs w) p = extensions (fs w') p' →
  same_outcome (get_data_type p b w).1 (get_data_type p' b w').1
  ∧ printed w (get_data_type p b w).2 = printed w' (get_data_type p' b w').2.
Proof.
  intros Hext%found_types_extensions. unfold printed.
  rewrite !get_data_type_eq, Hext. cbv zeta.
  destruct (classify _ b) as [t|e] eqn:Hcl; simpl;
    rewrite <- ?(assoc_L (++)), ?drop_app_length; (split; [|done]); [done|].
  apply classify_raises in Hcl as [->| ->]; [by left|right; eauto].
Qed.

Lemma files_under_missing w p :
  is_file (fs w) p = false → is_dir (fs w) p = false → files_under (fs w) p = [].
Proof. unfold files_under. by intros -> ->. Qed.

(** C10. For a path that is neither an existing file nor an existing
    directory, [get_data_type(path, raise_exception=False)] returns
    [DataType.UNKNOWN] without raising, with the same result and the same
    printed lines as for any path under which no file has a recognised
    extension; with [raise_exception=True] it raises [ValueError]. *)
Theorem get_data_type_missing_path w p :
  is_file (fs w) p = false → is_dir (fs w) p = false →
  (get_data_type p false w).1 = Ok UNKNOWN
  ∧ (∀ w' p', found_types (files_under (fs w') p') = ∅ →
       (get_data_type p' false w').1 = (get_data_type p false w).1
       ∧ printed w' (get_data_type p' false w').2
         = printed w (get_data_type p false w).2)
  ∧ (get_data_type p true w).1
    = Raise (ValueError "Unknown source data type. No known file types we matched.").
Proof.
  intros Hfile Hdir.
  pose proof (files_under_missing _ _ Hfile Hdir) as Hfiles.
  split; [|split].
  - rewrite get_data_type_eq, Hfiles. done.
  - intros w' p' Hnone. apply get_data_type_found. by rewrite Hnone, Hfiles.
  - rewrite get_data_type_eq, Hfiles. done.
Qed.

End DetectionFacts.

Lemma get_data_type_depends_on_extensions_witness :
  let w := World (<[ ["d"; "a.wav"] := File [Byte.x01] ]>
                    (<[ ["d"; "README"] := File [] ]> {[ ["d"] := Dir ]})) [] [] in
  let w' := World {[ ["b.wav"] := File [] ]} [] [] in
  extensions (fs w) ["d"] = extensions (fs w') ["b.wav"]
  ∧ same_outcome (get_data_type ["d"] true w).1 (get_data_type ["b.wav"] true w').1
  ∧ printed w (get_data_type ["d"] true w).2
    = printed w' (get_data_type ["b.wav"] true w').2.
Proof.
  cbv zeta.
  assert (extensions (<[ ["d"; "a.wav"] := File [Byte.x01] ]>
                        (<[ ["d"; "README"] := File [] ]> {[ ["d"] := Dir ]})) ["d"]
          = extensions {[ ["b.wav"] := File [] ]} ["b.wav"]) as Hext
    by (vm_compute; reflexivity).
  split; [exact Hext|].
  exact (get_data_type_depends_on_extensions ["d"] ["b.wav"] true
           (World _ [] []) (World _ [] []) Hext).
Defined.

Lemma get_data_type_missing_path_witness :
  let w := World {[ ["b.wav"] := File [] ]} [] [] in
  let p := ["missing"] in
  (is_file (fs w) p = false ∧ is_dir (fs w) p = false)
  ∧ (get_data_type p false w).1 = Ok UNKNOWN
  ∧ (∀ w' p', found_types (files_under (fs w') p') = ∅ →
       (get_data_type p' false w').1 = (get_data_type p false w).1
       ∧ printed w' (get_data_type p' false w').2
         = printed w (get_data_type p false w).2)
  ∧ (get_data_type p true w).1
    = Raise (ValueError "Unknown source data type. No known file types we matched.").
Proof.
  simpl.
  assert (is_file {[ ["b.wav"] := File [] ]} ["missing"] = false) as Hfile
    by (vm_compute; reflexivity).
  assert (is_dir {[ ["b.wav"] := File [] ]} ["missing"] = false) as Hdir
    by (vm_compute; reflexivity).
  split; [done|].
  exact (get_data_type_missing_path (World _ [] []) ["missing"] Hfile Hdir).
Defined.

(** ** Effects: what a computation leaves alone *)

Section FrameFacts.
Context {A B : Type}.

Lemma keeps_entered_ret (a : A) : keeps_entered (mret a).
Proof. by intros w. Qed.

Lemma keeps_entered_raise (e : exn) : keeps_entered (raise e : M A).
Proof. by intros w. Qed.

Lemma keeps_entered_lift_result (r : result A) : keeps_entered (lift_result r).
Proof. by intros w. Qed.

Lemma keeps_entered_lift_read (f : gmap path entry → result A) :
  keeps_entered (lift_read f).
Proof. by intros w. Qed.

Lemma keeps_entered_lift_fs (f : gmap path entry → result A * gmap path entry) :
  keeps_entered (lift_fs f).
Proof. intros w. unfold lift_fs. by destruct (f (fs w)). Qed.

Lemma keeps_entered_bind (m : M A) (k : A → M B) :
  keeps_entered m → (∀ a, keeps_entered (k a)) → keeps_entered (m ≫= k).
Proof.
  intros Hm Hk w. unfold mbind, M_bind. specialize (Hm w).
  destruct (m w) as [[a|e] w1]; simpl in *; [|done].
  by rewrite Hk.
Qed.

End FrameFacts.

Lemma keeps_entered_get_fs : keeps_entered get_fs.
Proof. by intros w. Qed.

Lemma keeps_entered_print s : keeps_entered (print s).
Proof. by intros w. Qed.

Lemma keeps_entered_for_enumerate {X St} (body : nat → X → St → M St) xs :
  (∀ i x st, keeps_entered (body i x st)) →
  ∀ i st, keeps_entered (for_enumerate body i xs st).
Proof.
  intros Hbody. induction xs as [|x xs IH]; intros i st; simpl.
  - apply keeps_entered_ret.
  - apply keeps_entered_bind; [apply Hbody|]. intros st'. apply IH.
Qed.

Lemma keeps_entered_skip_loop {St} skip (step : path → St → M St) paths st :
  (∀ p st, keeps_entered (step p st)) → keeps_entered (skip_loop skip step paths st).
Proof.
  intros Hstep. apply keeps_entered_for_enumerate. intros i p st'.
  case_bool_decide; [apply keeps_entered_ret|apply Hstep].
Qed.

(** Going through a computation built from the steps above. *)
Ltac frame :=
  repeat (intros;
    lazymatch goal with
    | |- keeps_entered (_ ≫= _) => apply keeps_entered_bind
    | |- keeps_entered (mret _) => apply keeps_entered_ret
    | |- keeps_entered (raise _) => apply keeps_entered_raise
    | |- keeps_entered (lift_result _) => apply keeps_entered_lift_result
    | |- keeps_entered (lift_read _) => apply keeps_entered_lift_read
    | |- keeps_entered (lift_fs _) => apply keeps_entered_lift_fs
    | |- keeps_entered get_fs => apply keeps_entered_get_fs
    | |- keeps_entered (print _) => apply keeps_entered_print
    | |- keeps_entered (tqdm_write _) => apply keeps_entered_print
    | |- keeps_entered (for_enumerate _ _ _ _) => apply keeps_entered_for_enumerate
    | |- keeps_entered (skip_loop _ _ _ _) => apply keeps_entered_skip_loop
    | |- keeps_entered (if ?b then _ else _) => destruct b
    | |- keeps_entered (match ?x with _ => _ end) => destruct x
    | |- keeps_entered _ => solve [auto]
    end).

Section ConverterFrames.
Context (L : Library) (TOP_DB : R) (N_MELS : nat).

Lemma keeps_entered_input_paths inp : keeps_entered (input_paths L inp).
Proof. unfold input_paths. frame. Qed.

Lemma keeps_entered_image_to_audio_paths inp :
  keeps_entered (image_to_audio_paths L inp).
Proof. unfold image_to_audio_paths. frame. Qed.

(** A computation that starts by entering [c] and enters nothing else. *)
Lemma invoked_enter {X} (c : converter) (m : M X) w :
  keeps_entered m → invoked w ((enter c;; m) w).2 = [c].
Proof.
  intros Hm. unfold invoked, mbind, M_bind, enter.
  destruct (m _) as [[a|e] w1] eqn:Hrun;
    pose proof (Hm (World (fs w) (stdout w) (entered w ++ [c]))) as Hent;
    rewrite Hrun in Hent; simpl in *; rewrite Hent; by rewrite drop_app_length.
Qed.

Lemma invoked_convert_audio_to_numpy inp out_dir sr offset duration res_type
    n_fft hop_length n_mels chunk_size truncate skip w :
  invoked w (convert_audio_to_numpy L TOP_DB inp out_dir sr offset duration res_type
               n_fft hop_length n_mels chunk_size truncate skip w).2 = [AudioToNumpy].
Proof.
  apply invoked_enter. pose proof keeps_entered_input_paths.
  unfold audio_to_numpy_file. frame.
Qed.

Lemma invoked_convert_image_to_numpy inp out_dir flip skip w :
  invoked w (convert_image_to_numpy inp out_dir flip skip w).2 = [ImageToNumpy].
Proof. apply invoked_enter. frame. Qed.

Lemma invoked_convert_audio_to_image inp out_dir sr offset duration res_type
    n_fft hop_length n_mels chunk_size truncate flip skip w :
  invoked w (convert_audio_to_image L inp out_dir sr offset duration res_type
               n_fft hop_length n_mels chunk_size truncate flip skip w).2 = [AudioToImage].
Proof.
  apply invoked_enter. pose proof keeps_entered_input_paths.
  unfold audio_to_image_file. frame.
Qed.

Lemma invoked_convert_numpy_to_image inp out_dir flip skip w :
  invoked w (convert_numpy_to_image L inp out_dir flip skip w).2 = [NumpyToImage].
Proof.
  apply invoked_enter. pose proof keeps_entered_input_paths.
  unfold numpy_to_image_file. frame.
Qed.

Lemma invoked_convert_numpy_to_audio inp out_dir sr n_fft hop_length fmt
    offset duration skip w :
  invoked w (convert_numpy_to_audio L TOP_DB inp out_dir sr n_fft hop_length fmt
               offset duration skip w).2 = [NumpyToAudio].
Proof.
  apply invoked_enter. pose proof keeps_entered_input_paths.
  unfold numpy_to_audio_file. frame.
Qed.

Lemma invoked_convert_image_to_audio inp out_dir sr n_fft hop_length fmt
    offset duration flip skip w :
  invoked w (convert_image_to_audio L inp out_dir sr n_fft hop_length fmt
               offset duration flip skip w).2 = [ImageToAudio].
Proof.
  apply invoked_enter. pose proof keeps_entered_image_to_audio_paths.
  frame.
Qed.

End ConverterFrames.

(** ** The dispatchers *)

(** Settling the tests [dtype == DataType.X] on a known [dtype]. *)
Ltac decide_types :=
  repeat match goal with
         | |- context [decide (?a = ?b)] =>
             first [ rewrite (decide_True (P := a = b)) by done
                   | rewrite (decide_False (P := a = b)) by done ]
         end;
  try done.

Section DispatchFacts.
Context (L : Library) (TOP_DB : R) (N_MELS : nat).
Implicit Types (w : world) (found : gset DataType).

Lemma classify_singleton t b : classify {[t]} b = Ok t.
Proof.
  unfold classify. rewrite size_singleton, elements_singleton.
  rewrite decide_False by done. by rewrite decide_True by done.
Qed.

Lemma classify_not_one found :
  size found ≠ 1 → ∃ msg, classify found true = Raise (ValueError msg).
Proof.
  intros Hsize. unfold classify.
  destruct (decide (size found = 0)); [by eexists|].
  rewrite decide_False by done. by eexists.
Qed.

Lemma size_one_singleton found : size found = 1 → ∃ t, found = {[t]}.
Proof.
  intros (t & Ht)%size_1_elem_of. exists t. by apply leibniz_equiv.
Qed.

Lemma invoked_same_entered w w1 w' :
  entered w1 = entered w → invoked w w' = invoked w1 w'.
Proof. unfold invoked. by intros ->. Qed.

Lemma invoked_refl w w' : entered w' = entered w → invoked w w' = [].
Proof. unfold invoked. intros ->. apply drop_all. Qed.

(** A dispatcher is detection followed by a choice on the detected type. *)
Lemma dispatch_outcome_intro target (body : DataType → M unit) inp w :
  (∀ t, match converter_for target t with
        | Some c => ∀ w1, invoked w1 (body t w1).2 = [c]
        | None => ∀ w1, body t w1 = (Ok (), w1)
        end) →
  dispatch_outcome target (found_types (files_under (fs w) inp)) w
    ((get_data_type inp true ≫= body) w).
Proof.
  intros Hbody. unfold mbind, M_bind. rewrite get_data_type_eq. cbv zeta.
  set (found := found_types (files_under (fs w) inp)).
  destruct (decide (size found = 1)) as [Hone|Hnot].
  - destruct (size_one_singleton _ Hone) as [t Ht]. rewrite Ht.
    rewrite classify_singleton.
    set (w1 := World (fs w) _ (entered w)).
    assert (entered w1 = entered w) as Hent by done.
    specialize (Hbody t). split.
    + rewrite size_singleton. split; [|done]. intros [[msg Hmsg] Hinv].
      rewrite (invoked_same_entered _ _ _ Hent) in Hinv.
      destruct (converter_for target t).
      * by rewrite Hbody in Hinv.
      * by rewrite Hbody in Hmsg.
    + intros t' Heq%(inj singleton). subst t'.
      rewrite (invoked_same_entered _ _ _ Hent).
      destruct (converter_for target t); [done|].
      rewrite Hbody. simpl. split; [|done]. by apply invoked_refl.
  - destruct (classify_not_one _ Hnot) as [msg ->]. simpl. split.
    + split; [done|]. intros _. split; [by exists msg|]. by apply invoked_refl.
    + intros t Ht. rewrite Ht, size_singleton in Hnot. done.
Qed.

(** C6 (amended). Each dispatcher ([convert_to_numpy], [convert_to_image],
    [convert_to_audio]) raises the [ValueError] of detection, before any
    converter is called, if and only if the number of data types matched
    under the input path is 0 or more than 1. With a single detected type
    it calls exactly the converter for that type when there is one
    ([convert_to_audio] calls [convert_numpy_to_audio] for NUMPY input and
    [convert_image_to_audio] for IMAGE input), and when the detected type
    is already the dispatcher's own output type (NUMPY for
    [convert_to_numpy], IMAGE for [convert_to_image], AUDIO for
    [convert_to_audio]) it calls no converter and returns [None]. *)
Theorem dispatchers_follow_detection inp out_dir sr offset duration res_type
    n_fft hop_length n_mels chunk_size truncate flip fmt skip w :
  let found := found_types (files_under (fs w) inp) in
  dispatch_outcome NUMPY found w
    (convert_to_numpy L TOP_DB inp out_dir sr offset duration res_type
       n_fft hop_length n_mels chunk_size truncate flip skip w)
  ∧ dispatch_outcome IMAGE found w
      (convert_to_image L N_MELS inp out_dir sr offset duration res_type
         n_fft hop_length chunk_size truncate flip skip w)
  ∧ dispatch_outcome AUDIO found w
      (convert_to_audio L TOP_DB inp out_dir sr n_fft hop_length fmt
         offset duration flip skip w).
Proof.
  intros found. split; [|split].
  - apply dispatch_outcome_intro.
    intros []; cbv [converter_for]; intros w1; decide_types.
    + apply invoked_convert_audio_to_numpy.
    + apply invoked_convert_image_to_numpy.
  - apply dispatch_outcome_intro.
    intros []; cbv [converter_for]; intros w1; decide_types.
    + apply invoked_convert_audio_to_image.
    + apply invoked_convert_numpy_to_image.
  - apply dispatch_outcome_intro.
    intros []; cbv [converter_for]; intros w1; decide_types.
    + apply invoked_convert_numpy_to_audio.
    + apply invoked_convert_image_to_audio.
Qed.

(** C9. [convert_image_to_numpy] returns [None], writes no file and prints
    nothing, whatever its arguments; so [convert_to_numpy] on an input
    whose detected data type is IMAGE converts nothing: it returns [None],
    the only converter it calls is [convert_image_to_numpy], and no file,
    in the output directory or elsewhere, is changed. *)
Theorem convert_image_to_numpy_is_noop :
  (∀ inp out_dir flip skip w,
     convert_image_to_numpy inp out_dir flip skip w
     = (Ok (), World (fs w) (stdout w) (entered w ++ [ImageToNumpy])))
  ∧ (∀ inp out_dir sr offset duration res_type
       n_fft hop_length n_mels chunk_size truncate flip skip w,
     (get_data_type inp true w).1 = Ok IMAGE →
     let out := convert_to_numpy L TOP_DB inp out_dir sr offset duration res_type
                  n_fft hop_length n_mels chunk_size truncate flip skip w in
     out.1 = Ok () ∧ fs out.2 = fs w ∧ invoked w out.2 = [ImageToNumpy]).
Proof.
  split; [done|].
  intros inp out_dir sr offset duration res_type
    n_fft hop_length n_mels chunk_size truncate flip skip w Hdet out.
  subst out. unfold convert_to_numpy, mbind, M_bind.
  pose proof (get_data_type_frame inp true w) as [Hfs Hent].
  destruct (get_data_type inp true w) as [[dtype|e] w1]; simpl in *; [|done].
  injection Hdet as ->. simpl.
  split; [done|]. split; [done|].
  unfold invoked. simpl. rewrite Hent. by rewrite drop_app_length.
Qed.

End DispatchFacts.

(** C6 as stated fails when the single detected type is the dispatcher's
    own output type: on a lone file [a.npy], [convert_to_numpy] neither
    raises nor calls any converter. *)
Lemma convert_to_numpy_on_numpy_calls_nothing :
  let w := World {[ ["a.npy"] := File [] ]} [] [] in
  let out := convert_to_numpy (example_library (Array2 [] 0)) 80
               ["a.npy"] ["out"] 0 0 None "" 0 0 0 0 false false 0 w in
  found_types (files_under (fs w) ["a.npy"]) = {[NUMPY]}
  ∧ out.1 = Ok ()
  ∧ invoked w out.2 = []
  ∧ ¬ ∃ c, invoked w out.2 = [c].
Proof.
  simpl.
  assert (found_types (files_under {[ ["a.npy"] := File [] ]} ["a.npy"]) = {[NUMPY]})
    as Hfound by (vm_compute; reflexivity).
  split; [exact Hfound|].
  unfold convert_to_numpy, mbind, M_bind.
  rewrite get_data_type_eq. cbn [fs]. rewrite Hfound, classify_singleton.
  decide_types. simpl. split; [done|]. split; [done|].
  intros [c Hc]. discriminate Hc.
Qed.

Lemma convert_image_to_numpy_is_noop_witness :
  let L := example_library (Array2 [] 0) in
  let w := World (<[ ["imgs"; "0.tiff"] := File [] ]> {[ ["imgs"] := Dir ]}) [] [] in
  let out := convert_to_numpy L 80 ["imgs"] ["out"] 0 0 None "" 0 0 0 0 false false 0 w in
  (get_data_type ["imgs"] true w).1 = Ok IMAGE
  ∧ out.1 = Ok () ∧ fs out.2 = fs w ∧ invoked w out.2 = [ImageToNumpy].
Proof.
  simpl.
  assert ((get_data_type ["imgs"] true
             (World (<[ ["imgs"; "0.tiff"] := File [] ]> {[ ["imgs"] := Dir ]}) [] [])).1
          = Ok IMAGE) as Hdet by (vm_compute; reflexivity).
  split; [exact Hdet|].
  exact (proj2 (convert_image_to_numpy_is_noop (example_library (Array2 [] 0)) 80)
           ["imgs"] ["out"] 0%Z 0%R None "" 0 0 0 0 false false 0%Z _ Hdet).
Defined.

(** ** The batch loops *)

Section LoopFacts.
Context {St : Type} (step : path → St → M St).

Lemma for_enumerate_skip (k : nat) paths : ∀ i st w,
  for_enumerate
    (λ i p st, if bool_decide (Z.of_nat i < Z.of_nat k)%Z then mret st else step p st)
    i paths st w
  = for_each step (drop (k - i) paths) st w.
Proof.
  induction paths as [|p paths IH]; intros i st w.
  - by rewrite drop_nil.
  - cbn [for_enumerate]. unfold mbind at 1, M_bind at 1.
    case_bool_decide as Hlt.
    + replace (k - i) with (S (k - S i)) by lia. cbn [drop]. apply IH.
    + replace (k - i) with 0 by lia. cbn [drop for_each].
      unfold mbind, M_bind.
      destruct (step p st w) as [[st'|e] w1]; [|done].
      rewrite IH. by replace (k - S i) with 0 by lia.
Qed.

Lemma for_each_log (paths : list path) : ∀ (log : list path) w,
  for_each (λ p log, mret (log ++ [p])) paths log w = (Ok (log ++ paths), w).
Proof.
  induction paths as [|p paths IH]; intros log w; simpl.
  - by rewrite app_nil_r.
  - unfold mbind, M_bind, mret at 1, M_ret at 1. rewrite IH.
    by rewrite <- (assoc_L (++)).
Qed.

End LoopFacts.

Lemma bind_ext {A B} (m : M A) (k k' : A → M B) w :
  (∀ a w', k a w' = k' a w') → (m ≫= k) w = (m ≫= k') w.
Proof.
  intros Hk. unfold mbind, M_bind. by destruct (m w) as [[a|e] w'].
Qed.

(** The converters themselves, with the loop of C5 replaced by a walk over
    the paths from index [k] on. *)
Lemma convert_audio_to_numpy_skip L TOP_DB inp out_dir sr offset duration res_type
    n_fft hop_length n_mels chunk_size truncate (k : nat) w :
  convert_audio_to_numpy L TOP_DB inp out_dir sr offset duration res_type
    n_fft hop_length n_mels chunk_size truncate (Z.of_nat k) w
  = (enter AudioToNumpy;;
     paths ← input_paths L inp;
     print ("Converting files in " +:+ quoted inp +:+ " to Numpy arrays...");;
     print ("Arrays will be saved in " +:+ quoted out_dir +:+ newline);;
     for_each
       (audio_to_numpy_file L TOP_DB inp out_dir offset duration res_type
          n_fft hop_length n_mels chunk_size truncate)
       (drop k paths) sr;;
     mret ()) w.
Proof.
  unfold convert_audio_to_numpy. repeat (apply bind_ext; intros).
  unfold mbind, M_bind, skip_loop. by rewrite for_enumerate_skip, Nat.sub_0_r.
Qed.

Lemma convert_audio_to_image_skip L inp out_dir sr offset duration res_type
    n_fft hop_length n_mels chunk_size truncate flip (k : nat) w :
  convert_audio_to_image L inp out_dir sr offset duration res_type
    n_fft hop_length n_mels chunk_size truncate flip (Z.of_nat k) w
  = (enter AudioToImage;;
     paths ← input_paths L inp;
     print ("Converting files in " +:+ quoted inp +:+ " to images...");;
     print ("Images will be saved in " +:+ quoted out_dir +:+ newline);;
     for_each
       (audio_to_image_file L inp out_dir offset duration res_type
          n_fft hop_length n_mels chunk_size truncate flip)
       (drop k paths) sr;;
     mret ()) w.
Proof.
  unfold convert_audio_to_image. repeat (apply bind_ext; intros).
  unfold mbind, M_bind, skip_loop. by rewrite for_enumerate_skip, Nat.sub_0_r.
Qed.

Lemma convert_numpy_to_audio_skip L TOP_DB inp out_dir sr n_fft hop_length fmt
    offset duration (k : nat) w :
  convert_numpy_to_audio L TOP_DB inp out_dir sr n_fft hop_length fmt
    offset duration (Z.of_nat k) w
  = (enter NumpyToAudio;;
     paths ← input_paths L inp;
     print ("Converting files in " +:+ quoted inp +:+ " to audio...");;
     print ("Images will be saved in " +:+ quoted out_dir +:+ newline);;
     for_each (numpy_to_audio_file L TOP_DB inp out_dir sr n_fft hop_length fmt)
       (drop k paths) ()) w.
Proof.
  unfold convert_numpy_to_audio. repeat (apply bind_ext; intros).
  unfold skip_loop. by rewrite for_enumerate_skip, Nat.sub_0_r.
Qed.

(** The unfinished [convert_image_to_audio] walks directories and prints
    them, from index [k] on. *)
Lemma convert_image_to_audio_skip L inp out_dir sr n_fft hop_length fmt
    offset duration flip (k : nat) w :
  convert_image_to_audio L inp out_dir sr n_fft hop_length fmt
    offset duration flip (Z.of_nat k) w
  = (enter ImageToAudio;;
     paths ← image_to_audio_paths L inp;
     print ("Converting files in " +:+ quoted inp +:+ " to images...");;
     print ("Images will be saved in " +:+ quoted out_dir +:+ newline);;
     for_each (λ p (_ : unit), print (str p)) (drop k paths) ()) w.
Proof.
  unfold convert_image_to_audio. repeat (apply bind_ext; intros).
  unfold skip_loop. by rewrite for_enumerate_skip, Nat.sub_0_r.
Qed.

Lemma convert_numpy_to_image_skip L inp out_dir flip (k : nat) w :
  convert_numpy_to_image L inp out_dir flip (Z.of_nat k) w
  = (enter NumpyToImage;;
     paths ← input_paths L inp;
     print ("Converting files in " +:+ quoted inp +:+ " to images...");;
     print ("Images will be saved in " +:+ quoted out_dir +:+ newline);;
     for_each (numpy_to_image_file L inp out_dir flip) (drop k paths) ()) w.
Proof.
  unfold convert_numpy_to_image. repeat (apply bind_ext; intros).
  unfold skip_loop. by rewrite for_enumerate_skip, Nat.sub_0_r.
Qed.

(** The walk over the remaining paths, step by step. *)
Lemma for_each_nil {St} (step : path → St → M St) st w :
  for_each step [] st w = (Ok st, w).
Proof. reflexivity. Qed.

Lemma for_each_cons {St} (step : path → St → M St) p rest st w :
  for_each step (p :: rest) st w
  = match step p st w with
    | (Ok st', w') => for_each step rest st' w'
    | (Raise e, w') => (Raise e, w')
    end.
Proof. reflexivity. Qed.

Section StepFacts.
Context (L : Library) (TOP_DB : R).
Implicit Types (w : world) (inp out_dir p rel : path).

(** The paths that are walked. *)
Lemma input_paths_eq inp w :
  input_paths L inp w
  = (if negb (exists_ (fs w) inp) then
       Raise (ValueError ("Input must be a valid file or directory. Got '"
                          +:+ str inp +:+ "'"))
     else if is_dir (fs w) inp then Ok (natsorted L (rglob_files (fs w) inp))
     else Ok [inp], w).
Proof.
  unfold input_paths, mbind, M_bind, get_fs.
  destruct (negb _); [done|]. by destruct (is_dir _ _).
Qed.

Lemma image_to_audio_paths_eq inp w :
  image_to_audio_paths L inp w
  = (if negb (exists_ (fs w) inp) then
       Raise (ValueError ("Input must be a valid file or directory. Got '"
                          +:+ str inp +:+ "'"))
     else if is_dir (fs w) inp then
       Ok (natsorted L (elements (list_to_set (parent <$> rglob_files (fs w) inp)
                                   : gset path)))
     else Ok [inp], w).
Proof.
  unfold image_to_audio_paths, mbind, M_bind, get_fs.
  destruct (negb _); [done|]. by destruct (is_dir _ _).
Qed.

(** One path, when every library call succeeds: what is read, computed
    and written. *)
Lemma audio_to_numpy_file_writes inp out_dir offset duration res_type
    (n_fft hop_length n_mels chunk_size : nat) truncate p sr w
    audio sr' chunks rel fs1 r fs2 :
  let output := joinpath (parent (joinpath out_dir rel))
                         (segment (stem (joinpath out_dir rel))) in
  librosa_load L p sr offset duration res_type (fs w) = Ok (audio, sr') →
  audio_to_numpy_chunks L TOP_DB audio sr' n_fft hop_length n_mels chunk_size truncate
  = Ok chunks →
  relative_to L p inp = Ok rel →
  Path_mkdir L (parent output) (fs w) = (Ok (), fs1) →
  np_savez_compressed L output chunks fs1 = (r, fs2) →
  audio_to_numpy_file L TOP_DB inp out_dir offset duration res_type
    n_fft hop_length n_mels chunk_size truncate p sr w
  = (match r with Ok _ => Ok sr' | Raise e => Raise e end,
     World fs2 (stdout w ++ ["Converting " +:+ quoted p +:+ "..."]) (entered w)).
Proof.
  intros output Hload Hchunks Hrel Hmkdir Hsave. subst output.
  unfold audio_to_numpy_file, mbind, M_bind, tqdm_write, print, lift_read,
    lift_result, lift_fs. cbn [fs stdout entered].
  rewrite Hload, Hchunks, Hrel. cbv zeta. cbn [fs stdout entered].
  rewrite Hmkdir. cbn [fs stdout entered].
  rewrite Hsave. by destruct r as [[]|e].
Qed.

Lemma audio_to_image_file_writes inp out_dir offset duration res_type
    (n_fft hop_length n_mels chunk_size : nat) truncate flip p sr w
    audio sr' chunks rel fs1 :
  let output := joinpath (parent (joinpath out_dir rel))
                         (segment (stem (joinpath out_dir rel))) in
  let line := "Converting " +:+ quoted p +:+ "..." in
  librosa_load L p sr offset duration res_type (fs w) = Ok (audio, sr') →
  audio_to_image_chunks L audio sr' n_fft hop_length n_mels chunk_size truncate
  = Ok chunks →
  relative_to L p inp = Ok rel →
  Path_mkdir L output (fs w) = (Ok (), fs1) →
  audio_to_image_file L inp out_dir offset duration res_type
    n_fft hop_length n_mels chunk_size truncate flip p sr w
  = (for_enumerate
       (λ j chunk (_ : unit),
          lift_fs (Image_save L chunk (joinpath output (segment (pretty j +:+ ".tiff")))))
       0 (if flip then flip_rows <$> chunks else chunks) ();;
     mret sr')
      (World fs1 (stdout w ++ [line; line]) (entered w)).
Proof.
  intros output line Hload Hchunks Hrel Hmkdir. subst output line.
  unfold audio_to_image_file. unfold mbind at 1 2 3 4 5 6, M_bind at 1 2 3 4 5 6.
  unfold tqdm_write, print, lift_read, lift_result, lift_fs. cbn [fs stdout entered].
  rewrite Hload, Hchunks, Hrel. cbv zeta. cbn [fs stdout entered].
  rewrite Hmkdir. cbn [fs stdout entered].
  by rewrite <- (assoc_L (++)).
Qed.

Lemma numpy_to_image_file_writes inp out_dir flip p w rel fs1 chunks :
  let output := joinpath (parent (joinpath out_dir rel))
                         (segment (stem (joinpath out_dir rel))) in
  relative_to L p inp = Ok rel →
  Path_mkdir L output (fs w) = (Ok (), fs1) →
  np_load L p fs1 = Ok chunks →
  numpy_to_image_file L inp out_dir flip p () w
  = for_enumerate
      (λ j chunk (_ : unit),
         lift_fs (Image_save L (if flip then flip_rows chunk else chunk)
                    (joinpath output (segment (pretty j +:+ ".tiff")))))
      0 chunks ()
      (World fs1 (stdout w ++ ["Converting " +:+ quoted p +:+ "..."]) (entered w)).
Proof.
  intros output Hrel Hmkdir Hchunks. subst output.
  unfold numpy_to_image_file. unfold mbind at 1 2 3 4, M_bind at 1 2 3 4.
  unfold tqdm_write, print, lift_read, lift_result, lift_fs. cbn [fs stdout entered].
  rewrite Hrel. cbv zeta. cbn [fs stdout entered].
  rewrite Hmkdir. cbn [fs stdout entered].
  by rewrite Hchunks.
Qed.

Lemma numpy_to_audio_file_writes inp out_dir sr (n_fft hop_length : nat) fmt p w
    rel output fs1 chunks spec audio r fs2 :
  relative_to L p inp = Ok rel →
  with_suffix L (joinpath (parent (joinpath out_dir rel))
                          (segment (name (joinpath out_dir rel)))) ("." +:+ fmt)
  = Ok output →
  Path_mkdir L (parent output) (fs w) = (Ok (), fs1) →
  np_load L p fs1 = Ok chunks →
  np_concatenate chunks = Ok spec →
  mel_to_audio L (db_to_power L (denormalize TOP_DB spec) 50000) sr n_fft hop_length
  = Ok audio →
  sf_write L output audio sr fs1 = (r, fs2) →
  numpy_to_audio_file L TOP_DB inp out_dir sr n_fft hop_length fmt p () w
  = (r, World fs2 (stdout w ++ ["Converting " +:+ quoted p +:+ "..."]) (entered w)).
Proof.
  intros Hrel Hout Hmkdir Hchunks Hspec Haudio Hwrite.
  unfold numpy_to_audio_file, mbind, M_bind, tqdm_write, print, lift_read,
    lift_result, lift_fs. cbn [fs stdout entered].
  rewrite Hrel. cbv zeta. rewrite Hout. cbn [fs stdout entered].
  rewrite Hmkdir. cbn [fs stdout entered].
  rewrite Hchunks, Hspec. cbv zeta. rewrite Haudio. cbn [fs stdout entered].
  by rewrite Hwrite.
Qed.

(** C5 (amended). With [skip = k >= 0] every converter enumerates its
    input paths (the input itself for a file, the natural-sorted regular
    files below it for a directory; their parent directories in the
    unfinished [convert_image_to_audio]), prints its two banner lines, and
    then runs its per-path step on the paths whose zero-based index is
    [>= k], in that order, until a step raises: the exception ends the
    run, and the paths after it are not processed. No step runs on the
    first [k] paths, so nothing is printed or written for them. A step
    whose library calls succeed prints its progress line, reads and
    transforms the file and writes the output:
    [convert_audio_to_numpy] saves the chunks of the file with
    [np.savez_compressed], [convert_audio_to_image] and
    [convert_numpy_to_image] save one image per chunk, and
    [convert_numpy_to_audio] writes the audio with [sf.write]. *)
Theorem skip_processes_suffix (k : nat) :
  (* the five batch loops *)
  (∀ inp out_dir sr offset duration res_type
     n_fft hop_length n_mels chunk_size truncate w,
     convert_audio_to_numpy L TOP_DB inp out_dir sr offset duration res_type
       n_fft hop_length n_mels chunk_size truncate (Z.of_nat k) w
     = (enter AudioToNumpy;;
        paths ← input_paths L inp;
        print ("Converting files in " +:+ quoted inp +:+ " to Numpy arrays...");;
        print ("Arrays will be saved in " +:+ quoted out_dir +:+ newline);;
        for_each
          (audio_to_numpy_file L TOP_DB inp out_dir offset duration res_type
             n_fft hop_length n_mels chunk_size truncate)
          (drop k paths) sr;;
        mret ()) w)
  ∧ (∀ inp out_dir sr offset duration res_type
       n_fft hop_length n_mels chunk_size truncate flip w,
       convert_audio_to_image L inp out_dir sr offset duration res_type
         n_fft hop_length n_mels chunk_size truncate flip (Z.of_nat k) w
       = (enter AudioToImage;;
          paths ← input_paths L inp;
          print ("Converting files in " +:+ quoted inp +:+ " to images...");;
          print ("Images will be saved in " +:+ quoted out_dir +:+ newline);;
          for_each
            (audio_to_image_file L inp out_dir offset duration res_type
               n_fft hop_length n_mels chunk_size truncate flip)
            (drop k paths) sr;;
          mret ()) w)
  ∧ (∀ inp out_dir flip w,
       convert_numpy_to_image L inp out_dir flip (Z.of_nat k) w
       = (enter NumpyToImage;;
          paths ← input_paths L inp;
          print ("Converting files in " +:+ quoted inp +:+ " to images...");;
          print ("Images will be saved in " +:+ quoted out_dir +:+ newline);;
          for_each (numpy_to_image_file L inp out_dir flip) (drop k paths) ()) w)
  ∧ (∀ inp out_dir sr n_fft hop_length fmt offset duration w,
       convert_numpy_to_audio L TOP_DB inp out_dir sr n_fft hop_length fmt
         offset duration (Z.of_nat k) w
       = (enter NumpyToAudio;;
          paths ← input_paths L inp;
          print ("Converting files in " +:+ quoted inp +:+ " to audio...");;
          print ("Images will be saved in " +:+ quoted out_dir +:+ newline);;
          for_each (numpy_to_audio_file L TOP_DB inp out_dir sr n_fft hop_length fmt)
            (drop k paths) ()) w)
  ∧ (∀ inp out_dir sr n_fft hop_length fmt offset duration flip w,
       convert_image_to_audio L inp out_dir sr n_fft hop_length fmt
         offset duration flip (Z.of_nat k) w
       = (enter ImageToAudio;;
          paths ← image_to_audio_paths L inp;
          print ("Converting files in " +:+ quoted inp +:+ " to images...");;
          print ("Images will be saved in " +:+ quoted out_dir +:+ newline);;
          for_each (λ p (_ : unit), print (str p)) (drop k paths) ()) w)
  (* the paths *)
  ∧ (∀ inp w,
       input_paths L inp w
       = (if negb (exists_ (fs w) inp) then
            Raise (ValueError ("Input must be a valid file or directory. Got '"
                               +:+ str inp +:+ "'"))
          else if is_dir (fs w) inp then Ok (natsorted L (rglob_files (fs w) inp))
          else Ok [inp], w))
  ∧ (∀ inp w,
       image_to_audio_paths L inp w
       = (if negb (exists_ (fs w) inp) then
            Raise (ValueError ("Input must be a valid file or directory. Got '"
                               +:+ str inp +:+ "'"))
          else if is_dir (fs w) inp then
            Ok (natsorted L (elements (list_to_set (parent <$> rglob_files (fs w) inp)
                                        : gset path)))
          else Ok [inp], w))
  (* the walk: in order, until a step raises *)
  ∧ (∀ St (step : path → St → M St) st w, for_each step [] st w = (Ok st, w))
  ∧ (∀ St (step : path → St → M St) p rest st w,
       for_each step (p :: rest) st w
       = match step p st w with
         | (Ok st', w') => for_each step rest st' w'
         | (Raise e, w') => (Raise e, w')
         end)
  (* the steps, when the library calls succeed *)
  ∧ (∀ inp out_dir offset duration res_type
       (n_fft hop_length n_mels chunk_size : nat) truncate p sr w
       audio sr' chunks rel fs1 r fs2,
       let output := joinpath (parent (joinpath out_dir rel))
                              (segment (stem (joinpath out_dir rel))) in
       librosa_load L p sr offset duration res_type (fs w) = Ok (audio, sr') →
       audio_to_numpy_chunks L TOP_DB audio sr' n_fft hop_length n_mels
         chunk_size truncate = Ok chunks →
       relative_to L p inp = Ok rel →
       Path_mkdir L (parent output) (fs w) = (Ok (), fs1) →
       np_savez_compressed L output chunks fs1 = (r, fs2) →
       audio_to_numpy_file L TOP_DB inp out_dir offset duration res_type
         n_fft hop_length n_mels chunk_size truncate p sr w
       = (match r with Ok _ => Ok sr' | Raise e => Raise e end,
          World fs2 (stdout w ++ ["Converting " +:+ quoted p +:+ "..."]) (entered w)))
  ∧ (∀ inp out_dir offset duration res_type
       (n_fft hop_length n_mels chunk_size : nat) truncate flip p sr w
       audio sr' chunks rel fs1,
       let output := joinpath (parent (joinpath out_dir rel))
                              (segment (stem (joinpath out_dir rel))) in
       let line := "Converting " +:+ quoted p +:+ "..." in
       librosa_load L p sr offset duration res_type (fs w) = Ok (audio, sr') →
       audio_to_image_chunks L audio sr' n_fft hop_length n_mels chunk_size truncate
       = Ok chunks →
       relative_to L p inp = Ok rel →
       Path_mkdir L output (fs w) = (Ok (), fs1) →
       audio_to_image_file L inp out_dir offset duration res_type
         n_fft hop_length n_mels chunk_size truncate flip p sr w
       = (for_enumerate
            (λ j chunk (_ : unit),
               lift_fs (Image_save L chunk
                          (joinpath output (segment (pretty j +:+ ".tiff")))))
            0 (if flip then flip_rows <$> chunks else chunks) ();;
          mret sr')
           (World fs1 (stdout w ++ [line; line]) (entered w)))
  ∧ (∀ inp out_dir flip p w rel fs1 chunks,
       let output := joinpath (parent (joinpath out_dir rel))
                              (segment (stem (joinpath out_dir rel))) in
       relative_to L p inp = Ok rel →
       Path_mkdir L output (fs w) = (Ok (), fs1) →
       np_load L p fs1 = Ok chunks →
       numpy_to_image_file L inp out_dir flip p () w
       = for_enumerate
           (λ j chunk (_ : unit),
              lift_fs (Image_save L (if flip then flip_rows chunk else chunk)
                         (joinpath output (segment (pretty j +:+ ".tiff")))))
           0 chunks ()
           (World fs1 (stdout w ++ ["Converting " +:+ quoted p +:+ "..."]) (entered w)))
  ∧ (∀ inp out_dir sr (n_fft hop_length : nat) fmt p w
       rel output fs1 chunks spec audio r fs2,
       relative_to L p inp = Ok rel →
       with_suffix L (joinpath (parent (joinpath out_dir rel))
                               (segment (name (joinpath out_dir rel)))) ("." +:+ fmt)
       = Ok output →
       Path_mkdir L (parent output) (fs w) = (Ok (), fs1) →
       np_load L p fs1 = Ok chunks →
       np_concatenate chunks = Ok spec →
       mel_to_audio L (db_to_power L (denormalize TOP_DB spec) 50000) sr n_fft hop_length
       = Ok audio →
       sf_write L output audio sr fs1 = (r, fs2) →
       numpy_to_audio_file L TOP_DB inp out_dir sr n_fft hop_length fmt p () w
       = (r, World fs2 (stdout w ++ ["Converting " +:+ quoted p +:+ "..."]) (entered w))).
Proof.
  split; [intros; apply convert_audio_to_numpy_skip|].
  split; [intros; apply convert_audio_to_image_skip|].
  split; [intros; apply convert_numpy_to_image_skip|].
  split; [intros; apply convert_numpy_to_audio_skip|].
  split; [intros; apply convert_image_to_audio_skip|].
  split; [intros; apply input_paths_eq|].
  split; [intros; apply image_to_audio_paths_eq|].
  split; [intros; apply for_each_nil|].
  split; [intros; apply for_each_cons|].
  split; [intros; by eapply audio_to_numpy_file_writes|].
  split; [intros; by eapply audio_to_image_file_writes|].
  split; [intros; by eapply numpy_to_image_file_writes|].
  intros; by eapply numpy_to_audio_file_writes.
Qed.

End StepFacts.

Lemma skip_processes_suffix_witness :
  let L := memory_library (Array2 [] 0) [Array2 [[NaN]] 1] in
  let w := World (<[ ["in"; "1.npz"] := written ]> {[ ["in"] := Dir ]}) [] [] in
  let fs1 := <[ ["out"; "1"] := Dir ]> (fs w) in
  (relative_to L ["in"; "1.npz"] ["in"] = Ok ["1.npz"]
   ∧ Path_mkdir L ["out"; "1"] (fs w) = (Ok (), fs1)
   ∧ np_load L ["in"; "1.npz"] fs1 = Ok [Array2 [[NaN]] 1])
  ∧ numpy_to_image_file L ["in"] ["out"] false ["in"; "1.npz"] () w
    = (Ok (),
       World (<[ ["out"; "1"; "0.tiff"] := written ]> fs1)
         ["Converting " +:+ quoted ["in"; "1.npz"] +:+ "..."] []).
Proof.
  cbv zeta.
  set (L := memory_library (Array2 [] 0) [Array2 [[NaN]] 1]).
  set (w := World (<[ ["in"; "1.npz"] := written ]> {[ ["in"] := Dir ]}) [] []).
  assert (relative_to L ["in"; "1.npz"] ["in"] = Ok ["1.npz"]) as Hrel
    by (vm_compute; reflexivity).
  assert (Path_mkdir L ["out"; "1"] (fs w)
          = (Ok (), <[ ["out"; "1"] := Dir ]> (fs w))) as Hmkdir by reflexivity.
  assert (np_load L ["in"; "1.npz"] (<[ ["out"; "1"] := Dir ]> (fs w))
          = Ok [Array2 [[NaN]] 1]) as Hload by (vm_compute; reflexivity).
  split; [done|].
  pose proof (skip_processes_suffix L 80%R 0)
    as (_ & _ & _ & _ & _ & _ & _ & _ & _ & _ & _ & Hstep & _).
  rewrite (Hstep ["in"] ["out"] false ["in"; "1.npz"] w ["1.npz"] _ _ Hrel Hmkdir Hload).
  reflexivity.
Defined.

(** C5 as stated fails when a file cannot be converted. A directory holds
    [0.npz] to [3.npz], and [2.npz] cannot be loaded. With [skip=1],
    [convert_numpy_to_image] leaves [0.npz] alone, writes the image of
    [1.npz], creates the directory for [2.npz] and raises on loading it:
    nothing is printed or written for [3.npz], whose index is [>= 1]. *)
Lemma skip_loop_ends_at_unreadable_file :
  let L := memory_library (Array2 [] 0) [Array2 [[NaN]] 1] in
  let w := World (<[ ["in"; "0.npz"] := written ]>
                 (<[ ["in"; "1.npz"] := written ]>
                 (<[ ["in"; "2.npz"] := File [] ]>
                 (<[ ["in"; "3.npz"] := written ]> {[ ["in"] := Dir ]})))) [] [] in
  let out := convert_numpy_to_image L ["in"] ["out"] false 1 w in
  natsorted L (rglob_files (fs w) ["in"])
  = [["in"; "0.npz"]; ["in"; "1.npz"]; ["in"; "2.npz"]; ["in"; "3.npz"]]
  ∧ out.1 = Raise (LibraryError "no data in file")
  ∧ printed w out.2
    = ["Converting files in " +:+ quoted ["in"] +:+ " to images...";
       "Images will be saved in " +:+ quoted ["out"] +:+ newline;
       "Converting " +:+ quoted ["in"; "1.npz"] +:+ "...";
       "Converting " +:+ quoted ["in"; "2.npz"] +:+ "..."]
  ∧ fs out.2 !! ["out"; "1"; "0.tiff"] = Some written
  ∧ fs out.2 !! ["out"; "2"] = Some Dir
  ∧ exists_ (fs out.2) ["out"; "3"] = false
  ∧ rglob (fs out.2) ["out"; "3"] = [].
Proof. vm_compute. repeat split; reflexivity. Qed.

(** ** One feature extraction, two converters *)

Section FeatureFacts.
Local Open Scope R_scope.

(** With [settings.TOP_DB] at librosa's default of 80 the two converters
    compute the same chunks. *)
Lemma audio_chunks_agree_at_default_top_db L audio sr
    (n_fft hop_length n_mels chunk_size : nat) truncate :
  audio_to_numpy_chunks L default_top_db audio sr n_fft hop_length n_mels chunk_size truncate
  = audio_to_image_chunks L audio sr n_fft hop_length n_mels chunk_size truncate.
Proof. reflexivity. Qed.

Lemma power_to_db_three_bands top_db :
  0 <= top_db →
  power_to_db (Array2 [[1; / 10 ^ 2; / 10 ^ 6]] 3) top_db
  = Ok (Array2 [[Rmax 0 (- top_db); Rmax (-20) (- top_db); Rmax (-60) (- top_db)]] 3).
Proof.
  intros Htop. pose proof (inv_pow10_le_1 2). pose proof (inv_pow10_le_1 6).
  rewrite (power_to_db_eq _ _ 1); [|extremum|lra].
  unfold amap; cbn [rows width fmap list_fmap].
  rewrite decibels_one_one, !decibels_one_inv_pow by lia. simpl INR.
  repeat f_equal; lra.
Qed.

Lemma row3_ext (a b c a' b' c' : R) :
  a = a' → b = b' → c = c' →
  Ok (Array2 [[Fin a; Fin b; Fin c]] 3) = Ok (Array2 [[Fin a'; Fin b'; Fin c']] 3).
Proof. by intros -> -> ->. Qed.

Lemma normalized_chunk_40 :
  normalize (Array2 [[0; -20; -40]] 3)
  = Ok (Array2 [[Fin 1; Fin (1 / 2); Fin 0]] 3).
Proof.
  rewrite (normalize_nonconstant _ (-40) 0); [|extremum|extremum|lra].
  unfold amap; cbn [rows width fmap list_fmap]. apply row3_ext; field.
Qed.

Lemma normalized_chunk_60 :
  normalize (Array2 [[0; -20; -60]] 3)
  = Ok (Array2 [[Fin 1; Fin (2 / 3); Fin 0]] 3).
Proof.
  rewrite (normalize_nonconstant _ (-60) 0); [|extremum|extremum|lra].
  unfold amap; cbn [rows width fmap list_fmap]. apply row3_ext; field.
Qed.

(** C7 (the code departs from the claim). [convert_audio_to_numpy] passes
    [top_db=settings.TOP_DB] to [power_to_db]; [convert_audio_to_image]
    leaves [top_db] out and gets librosa's default, 80. With
    [settings.TOP_DB = 40] and a mel power spectrogram [[1, 0.01, 0.000001]]
    the normalised chunks are [[1, 1/2, 0]] for the first and
    [[1, 2/3, 0]] for the second. *)
Theorem audio_chunks_differ_when_top_db_differs :
  let L := example_library (Array2 [[1; / 10 ^ 2; / 10 ^ 6]] 3) in
  audio_to_numpy_chunks L 40 [] 0 0 0 0 4 false
  = Ok [Array2 [[Fin 1; Fin (1 / 2); Fin 0]] 3]
  ∧ audio_to_image_chunks L [] 0 0 0 0 4 false
    = Ok [Array2 [[Fin 1; Fin (2 / 3); Fin 0]] 3]
  ∧ audio_to_numpy_chunks L 40 [] 0 0 0 0 4 false
    ≠ audio_to_image_chunks L [] 0 0 0 0 4 false.
Proof.
  cbv zeta.
  assert (audio_to_numpy_chunks (example_library (Array2 [[1; / 10 ^ 2; / 10 ^ 6]] 3))
            40 [] 0 0 0 0 4 false
          = Ok [Array2 [[Fin 1; Fin (1 / 2); Fin 0]] 3]) as Hnumpy.
  { unfold audio_to_numpy_chunks. cbn [melspectrogram example_library].
    change (Ok ?x ≫= ?k) with (k x). cbv beta.
    rewrite power_to_db_three_bands by lra.
    rewrite (Rmax_left 0), (Rmax_left (-20)), (Rmax_right (-60)) by lra.
    replace (Ropp 40) with (-40) by lra.
    change (Ok ?x ≫= ?k) with (k x). cbv beta.
    rewrite normalized_chunk_40. change (Ok ?x ≫= ?k) with (k x). cbv beta.
    by apply spec_to_chunks_short; unfold shape1; simpl; lia. }
  assert (audio_to_image_chunks (example_library (Array2 [[1; / 10 ^ 2; / 10 ^ 6]] 3))
            [] 0 0 0 0 4 false
          = Ok [Array2 [[Fin 1; Fin (2 / 3); Fin 0]] 3]) as Himage.
  { unfold audio_to_image_chunks, default_top_db. cbn [melspectrogram example_library].
    change (Ok ?x ≫= ?k) with (k x). cbv beta.
    rewrite power_to_db_three_bands by lra.
    rewrite (Rmax_left 0), (Rmax_left (-20)), (Rmax_left (-60)) by lra.
    change (Ok ?x ≫= ?k) with (k x). cbv beta.
    rewrite normalized_chunk_60. change (Ok ?x ≫= ?k) with (k x). cbv beta.
    by apply spec_to_chunks_short; unfold shape1; simpl; lia. }
  split; [exact Hnumpy|]. split; [exact Himage|].
  rewrite Hnumpy, Himage. intros [= H]. lra.
Qed.

End FeatureFacts.

(** ** The definitions at work *)

Example spec_to_chunks_pads_last_chunk :
  spec_to_chunks (Fin 0) (Array2 [[Fin 1; Fin 2; Fin 3]; [Fin 4; Fin 5; Fin 6]] 3) 2 false
  = Ok [Array2 [[Fin 1; Fin 2]; [Fin 4; Fin 5]] 2;
        Array2 [[Fin 3; Fin 0]; [Fin 6; Fin 0]] 2].
Proof. reflexivity. Qed.

Example spec_to_chunks_drops_remainder :
  spec_to_chunks (Fin 0) (Array2 [[Fin 1; Fin 2; Fin 3]; [Fin 4; Fin 5; Fin 6]] 3) 2 true
  = Ok [Array2 [[Fin 1; Fin 2]; [Fin 4; Fin 5]] 2].
Proof. reflexivity. Qed.

Example suffix_of_names :
  suffix ["music"; "song.tar.gz"] = ".gz"
  ∧ stem ["music"; "song.tar.gz"] = "song.tar"
  ∧ suffix [".hidden"] = ""
  ∧ suffix ["trailing."] = ""
  ∧ extension ["a"; "b.wav"] = "wav".
Proof. repeat split; reflexivity. Qed.

Example get_data_type_mixed_directory :
  let w := World (<[ ["d"; "a.npy"] := File [] ]>
                    (<[ ["d"; "b.wav"] := File [] ]> {[ ["d"] := Dir ]})) [] [] in
  (get_data_type ["d"] false w).1 = Ok AMBIGUOUS
  ∧ (get_data_type ["d"; "a.npy"] true w).1 = Ok NUMPY
  ∧ printed w (get_data_type ["d"; "b.wav"] true w).2
    = ["Checking input type(s)...";
       "Determined input type to be " +:+ Fore_CYAN +:+ "'AUDIO'" +:+ Fore_RESET].
Proof. vm_compute. repeat split; reflexivity. Qed.

Example skip_loop_prints_from_index :
  let w := World ∅ [] [] in
  (skip_loop 1 (λ p (_ : unit), print (str p)) [["a"]; ["b"]; ["c"]] () w).2
  = World ∅ ["b"; "c"] [].
Proof. reflexivity. Qed.

Example convert_to_audio_calls_numpy_to_audio :
  let w := World {[ ["a.npy"] := File [] ]} [] [] in
  invoked w (convert_to_audio (example_library (Array2 [] 0)) 80
               ["a.npy"] ["out"] 0 0 0 "wav" 0 None false 0 w).2
  = [NumpyToAudio].
Proof. vm_compute. reflexivity. Qed.

Example convert_to_image_rejects_empty_directory :
  let w := World {[ ["d"] := Dir ]} [] [] in
  let out := convert_to_image (example_library (Array2 [] 0)) 128
               ["d"] ["out"] 0 0 None "" 0 0 0 false false 0 w in
  out.1 = Raise (ValueError "Unknown source data type. No known file types we matched.")
  ∧ invoked w out.2 = [].
Proof. vm_compute. split; reflexivity. Qed.

(** * Further properties of the code *)

(** ** Chunking: what the chunks hold *)

Section ChunkContents.
Context {A : Type} (zero : A).
Implicit Types (a spec : array2 A) (r : list A).

Lemma wf_take_rows a k :
  wf a → k ≤ width a → wf (Array2 (take k <$> rows a) k).
Proof.
  unfold wf; simpl. intros Hwf Hk. apply Forall_fmap.
  eapply Forall_impl; [exact Hwf|]. intros r Hr; simpl in *.
  rewrite length_take. lia.
Qed.

Lemma np_split_inv a sections chunks :
  np_split a sections = Ok chunks →
  sections ≠ 0 ∧ width a `mod` sections = 0
  ∧ chunks = (λ i, col_block (width a `div` sections) i a) <$> seq 0 sections.
Proof.
  unfold np_split. destruct (decide (sections = 0)); [discriminate|].
  destruct (decide (width a `mod` sections = 0)); [|discriminate].
  by intros [= <-].
Qed.

Lemma wf_col_block a w i n :
  wf a → width a = n * w → i < n → wf (col_block w i a).
Proof.
  unfold wf, col_block; simpl. intros Hwf Hw Hi. apply Forall_fmap.
  eapply Forall_impl; [exact Hwf|]. intros r Hr; simpl in *.
  rewrite length_take, length_drop. nia.
Qed.

Lemma elem_of_entries (v : A) a :
  v ∈ entries a ↔ ∃ r, r ∈ rows a ∧ v ∈ r.
Proof.
  unfold entries. rewrite list_elem_of_In, in_concat.
  split; intros (r & H1 & H2); exists r; by rewrite <- ?list_elem_of_In in *.
Qed.

Lemma entries_col_block (v : A) w i a :
  v ∈ entries (col_block w i a) → v ∈ entries a.
Proof.
  rewrite !elem_of_entries. unfold col_block; simpl.
  intros (r' & (r & -> & Hr)%list_elem_of_fmap & Hv). exists r. split; [done|].
  eapply elem_of_sublist; [|apply (sublist_drop r (i * w))].
  eapply elem_of_sublist; [exact Hv|apply sublist_take].
Qed.

Lemma entries_take_cols (v : A) stop a :
  v ∈ entries (take_cols stop a) → v ∈ entries a.
Proof.
  rewrite !elem_of_entries. unfold take_cols; simpl.
  intros (r' & (r & -> & Hr)%list_elem_of_fmap & Hv). exists r. split; [done|].
  eapply elem_of_sublist; [exact Hv|apply sublist_take].
Qed.

Lemma entries_pad_right (v : A) p a :
  v ∈ entries (pad_right zero p a) → v ∈ entries a ∨ v = zero.
Proof.
  rewrite !elem_of_entries. unfold pad_right; simpl.
  intros (r' & (r & -> & Hr)%list_elem_of_fmap & Hv).
  apply elem_of_app in Hv as [Hv|Hv]; [left; by exists r|].
  right. by apply elem_of_replicate in Hv as [-> _].
Qed.

(** X1. With [truncate=True] and a width [>= chunk_size] that is no
    multiple of [chunk_size], the chunks joined along the last axis are
    [spec] cut to its first [chunk_size * (shape[-1] // chunk_size)]
    columns: only the last [shape[-1] % chunk_size] columns, fewer than
    [chunk_size], are lost. *)
Theorem truncated_chunks_join spec cs :
  wf spec → 1 ≤ cs ≤ shape1 spec → shape1 spec `mod` cs ≠ 0 →
  spec_to_chunks zero spec cs true ≫= np_concatenate
  = Ok (Array2 (take (cs * (shape1 spec `div` cs)) <$> rows spec)
          (cs * (shape1 spec `div` cs)))
  ∧ shape1 spec - cs * (shape1 spec `div` cs) = shape1 spec `mod` cs
  ∧ shape1 spec `mod` cs < cs.
Proof.
  intros Hwf Hcs Hr.
  split; [|pose proof (Nat.div_mod_eq (shape1 spec) cs);
           pose proof (Nat.mod_upper_bound (shape1 spec) cs); lia].
  rewrite spec_to_chunks_truncate by done.
  change (Ok ?x ≫= ?k) with (k x). unfold shape1 in *.
  pose proof (Nat.div_mod_eq (width spec) cs).
  pose proof (Nat.mod_upper_bound (width spec) cs).
  assert (take_cols (- Z.of_nat (width spec `mod` cs)) spec
          = Array2 (take (cs * (width spec `div` cs)) <$> rows spec)
              (cs * (width spec `div` cs))) as ->.
  { unfold take_cols. rewrite slice_stop_neg by lia.
    by replace (width spec - width spec `mod` cs)
      with (cs * (width spec `div` cs)) by lia. }
  apply np_concatenate_blocks.
  - apply wf_take_rows; [done|lia].
  - assert (width spec `div` cs ≠ 0); [|lia]. intros Hq. rewrite Hq in *. lia.
  - simpl. lia.
Qed.

End ChunkContents.

Lemma truncated_chunks_join_witness :
  let spec := Array2 [[Fin 1; Fin 2; Fin 3]; [Fin 4; Fin 5; Fin 6]] 3 in
  (wf spec ∧ 1 ≤ 2 ≤ shape1 spec ∧ shape1 spec `mod` 2 ≠ 0)
  ∧ spec_to_chunks (Fin 0) spec 2 true ≫= np_concatenate
    = Ok (Array2 (take (2 * (shape1 spec `div` 2)) <$> rows spec)
            (2 * (shape1 spec `div` 2)))
  ∧ shape1 spec - 2 * (shape1 spec `div` 2) = shape1 spec `mod` 2
  ∧ shape1 spec `mod` 2 < 2.
Proof.
  cbv zeta.
  assert (wf (Array2 [[Fin 1; Fin 2; Fin 3]; [Fin 4; Fin 5; Fin 6]] 3)) as Hwf
    by (by repeat constructor).
  assert (1 ≤ 2 ≤ shape1 (Array2 [[Fin 1; Fin 2; Fin 3]; [Fin 4; Fin 5; Fin 6]] 3))
    as Hcs by (unfold shape1; simpl; lia).
  assert (shape1 (Array2 [[Fin 1; Fin 2; Fin 3]; [Fin 4; Fin 5; Fin 6]] 3) `mod` 2 ≠ 0)
    as Hr by (unfold shape1; simpl; lia).
  split; [done|].
  exact (truncated_chunks_join (Fin 0) _ 2 Hwf Hcs Hr).
Defined.

Section ChunkShape.
Context {A : Type} (zero : A).
Implicit Types (a spec : array2 A) (r : list A).

Lemma col_block_pad_inside p w i a :
  wf a → (i + 1) * w ≤ width a →
  col_block w i (pad_right zero p a) = col_block w i a.
Proof.
  intros Hwf Hi. unfold col_block, pad_right; simpl. f_equal.
  rewrite <- list_fmap_compose. apply list_fmap_ext. intros j r Hr. simpl.
  pose proof (Forall_lookup_1 _ _ _ _ Hwf Hr) as Hlen. simpl in Hlen.
  rewrite drop_app_le by lia. rewrite take_app_le; [done|].
  rewrite length_drop. lia.
Qed.

Lemma col_block_pad_beyond w n a :
  wf a → width a = n * w →
  col_block w n (pad_right zero w a)
  = Array2 ((λ _, replicate w zero) <$> rows a) w.
Proof.
  intros Hwf Hw. unfold col_block, pad_right; simpl. f_equal.
  rewrite <- list_fmap_compose. apply list_fmap_ext. intros j r Hr. simpl.
  pose proof (Forall_lookup_1 _ _ _ _ Hwf Hr) as Hlen. simpl in Hlen.
  rewrite drop_app_length' by lia. apply take_ge. by rewrite length_replicate.
Qed.

(** X2. With [truncate=False] and a width that is an exact multiple of
    [chunk_size], [spec_to_chunks] returns the [shape[-1] // chunk_size]
    chunks of [spec] itself (they join to [spec]) followed by one more
    chunk that holds only zeros. *)
Theorem padded_exact_multiple_adds_zero_chunk spec cs :
  wf spec → 1 ≤ cs ≤ shape1 spec → shape1 spec `mod` cs = 0 →
  ∃ chunks,
    spec_to_chunks zero spec cs false
    = Ok (chunks ++ [Array2 ((λ _, replicate cs zero) <$> rows spec) cs])
    ∧ length chunks = shape1 spec `div` cs
    ∧ np_concatenate chunks = Ok spec.
Proof.
  intros Hwf Hcs Hr. unfold shape1 in *.
  pose proof (Nat.div_mod_eq (width spec) cs) as Hdm. rewrite Hr in Hdm.
  set (n := width spec `div` cs) in *.
  assert (0 < n) by (destruct n; lia).
  exists ((λ i, col_block cs i spec) <$> seq 0 n).
  split; [|split].
  - rewrite spec_to_chunks_pad by done. unfold shape1. fold n.
    rewrite Hr, Nat.sub_0_r. f_equal.
    rewrite seq_app, fmap_app. cbn [seq fmap list_fmap]. f_equal.
    + apply list_fmap_ext. intros j i Hi.
      apply lookup_seq in Hi as [-> Hj]. apply col_block_pad_inside; [done|nia].
    + simpl. f_equal. apply col_block_pad_beyond; [done|lia].
  - by rewrite length_fmap, length_seq.
  - apply np_concatenate_blocks; [done|done|lia].
Qed.

Lemma spec_to_chunks_entries spec cs truncate chunks c v :
  spec_to_chunks zero spec cs truncate = Ok chunks →
  c ∈ chunks → v ∈ entries c →
  v ∈ entries spec ∨ (truncate = false ∧ v = zero).
Proof.
  unfold spec_to_chunks. intros Hrun Hc Hv.
  destruct (decide (cs ≤ shape1 spec)).
  - destruct (decide (cs = 0)); [discriminate Hrun|].
    apply np_split_inv in Hrun as (_ & _ & ->).
    apply list_elem_of_fmap in Hc as (i & -> & _).
    apply entries_col_block in Hv. destruct truncate.
    + left. by eapply entries_take_cols.
    + apply (entries_pad_right zero) in Hv as [Hv| ->]; [by left|by right].
  - injection Hrun as <-. apply list_elem_of_singleton in Hc as ->. by left.
Qed.

(** X3. Chunking invents no values: every entry of every chunk is an
    entry of [spec], or, with [truncate=False] only, the padding zero. *)
Theorem chunk_entries_come_from_spec spec cs truncate chunks c v :
  spec_to_chunks zero spec cs truncate = Ok chunks →
  c ∈ chunks → v ∈ entries c →
  v ∈ entries spec ∨ (truncate = false ∧ v = zero).
Proof. apply spec_to_chunks_entries. Qed.

(** X4. Chunking keeps arrays rectangular: when [spec_to_chunks] returns,
    every chunk is well formed and has the rows count of [spec]; there is
    one chunk when [shape[-1] < chunk_size], [shape[-1] // chunk_size]
    chunks with [truncate=True] and one more than that with
    [truncate=False]. *)
Theorem chunks_are_rectangular spec cs truncate chunks :
  wf spec → spec_to_chunks zero spec cs truncate = Ok chunks →
  Forall (λ c, wf c ∧ shape0 c = shape0 spec) chunks
  ∧ length chunks
    = (if decide (cs ≤ shape1 spec) then
         if truncate then shape1 spec `div` cs else shape1 spec `div` cs + 1
       else 1).
Proof.
  intros Hwf Hrun. destruct (decide (cs ≤ shape1 spec)) as [Hle|Hlt].
  - destruct (decide (cs = 0)) as [->|Hcs].
    { unfold spec_to_chunks in Hrun. rewrite decide_True in Hrun by lia.
      discriminate Hrun. }
    unfold shape1 in *.
    pose proof (Nat.div_mod_eq (width spec) cs).
    pose proof (Nat.mod_upper_bound (width spec) cs Hcs).
    destruct truncate.
    + destruct (decide (width spec `mod` cs = 0)) as [Hr|Hr].
      { rewrite spec_to_chunks_truncate_exact in Hrun by (unfold shape1; lia || done).
        discriminate Hrun. }
      rewrite spec_to_chunks_truncate in Hrun by (unfold shape1; lia || done).
      injection Hrun as <-. unfold shape1. split; [|by rewrite length_fmap, length_seq].
      apply Forall_fmap, Forall_forall. intros i Hi%elem_of_seq. simpl. split.
      * apply (wf_col_block _ _ _ (width spec `div` cs)); [|simpl|lia].
        -- unfold take_cols. rewrite slice_stop_neg by lia.
           apply wf_take_rows; [done|lia].
        -- rewrite slice_stop_neg by lia. lia.
      * unfold shape0, col_block, take_cols; simpl. by rewrite !length_fmap.
    + rewrite spec_to_chunks_pad in Hrun by (unfold shape1; lia).
      injection Hrun as <-. unfold shape1. split; [|by rewrite length_fmap, length_seq].
      apply Forall_fmap, Forall_forall. intros i Hi%elem_of_seq. simpl. split.
      * apply (wf_col_block _ _ _ (width spec `div` cs + 1)); [|simpl|lia].
        -- by apply wf_pad_right.
        -- lia.
      * unfold shape0, col_block, pad_right; simpl. by rewrite !length_fmap.
  - rewrite spec_to_chunks_short in Hrun by lia. injection Hrun as <-.
    split; [|done]. by repeat constructor.
Qed.

End ChunkShape.

Lemma padded_exact_multiple_adds_zero_chunk_witness :
  let spec := Array2 [[Fin 1; Fin 2]; [Fin 3; Fin 4]] 2 in
  (wf spec ∧ 1 ≤ 1 ≤ shape1 spec ∧ shape1 spec `mod` 1 = 0)
  ∧ ∃ chunks,
      spec_to_chunks (Fin 0) spec 1 false
      = Ok (chunks ++ [Array2 ((λ _, replicate 1 (Fin 0)) <$> rows spec) 1])
      ∧ length chunks = shape1 spec `div` 1
      ∧ np_concatenate chunks = Ok spec.
Proof.
  cbv zeta.
  assert (wf (Array2 [[Fin 1; Fin 2]; [Fin 3; Fin 4]] 2)) as Hwf
    by (by repeat constructor).
  assert (1 ≤ 1 ≤ shape1 (Array2 [[Fin 1; Fin 2]; [Fin 3; Fin 4]] 2)) as Hcs
    by (unfold shape1; simpl; lia).
  assert (shape1 (Array2 [[Fin 1; Fin 2]; [Fin 3; Fin 4]] 2) `mod` 1 = 0) as Hr
    by reflexivity.
  split; [done|].
  exact (padded_exact_multiple_adds_zero_chunk (Fin 0) _ 1 Hwf Hcs Hr).
Defined.

Lemma chunk_entries_come_from_spec_witness :
  let spec := Array2 [[Fin 1; Fin 2; Fin 3]] 3 in
  let chunks := [Array2 [[Fin 1; Fin 2]] 2; Array2 [[Fin 3; Fin 0]] 2] in
  let c := Array2 [[Fin 3; Fin 0]] 2 in
  (spec_to_chunks (Fin 0) spec 2 false = Ok chunks
   ∧ c ∈ chunks ∧ Fin 0 ∈ entries c)
  ∧ (Fin 0 ∈ entries spec ∨ (false = false ∧ Fin 0 = Fin 0)).
Proof.
  cbv zeta.
  assert (spec_to_chunks (Fin 0) (Array2 [[Fin 1; Fin 2; Fin 3]] 3) 2 false
          = Ok [Array2 [[Fin 1; Fin 2]] 2; Array2 [[Fin 3; Fin 0]] 2]) as Hrun
    by reflexivity.
  assert (Array2 [[Fin 3; Fin 0]] 2
          ∈ [Array2 [[Fin 1; Fin 2]] 2; Array2 [[Fin 3; Fin 0]] 2]) as Hc
    by (right; left).
  assert (Fin 0 ∈ entries (Array2 [[Fin 3; Fin 0]] 2)) as Hv
    by (unfold entries; simpl; right; left).
  split; [done|].
  exact (chunk_entries_come_from_spec (Fin 0) _ 2 false _ _ _ Hrun Hc Hv).
Defined.

Lemma chunks_are_rectangular_witness :
  let spec := Array2 [[Fin 1; Fin 2; Fin 3]] 3 in
  let chunks := [Array2 [[Fin 1; Fin 2]] 2; Array2 [[Fin 3; Fin 0]] 2] in
  (wf spec ∧ spec_to_chunks (Fin 0) spec 2 false = Ok chunks)
  ∧ Forall (λ c, wf c ∧ shape0 c = shape0 spec) chunks
  ∧ length chunks
    = (if decide (2 ≤ shape1 spec) then
         if false then shape1 spec `div` 2 else shape1 spec `div` 2 + 1
       else 1).
Proof.
  cbv zeta.
  assert (wf (Array2 [[Fin 1; Fin 2; Fin 3]] 3)) as Hwf by (by repeat constructor).
  assert (spec_to_chunks (Fin 0) (Array2 [[Fin 1; Fin 2; Fin 3]] 3) 2 false
          = Ok [Array2 [[Fin 1; Fin 2]] 2; Array2 [[Fin 3; Fin 0]] 2]) as Hrun
    by reflexivity.
  split; [done|].
  exact (chunks_are_rectangular (Fin 0) _ 2 false _ Hwf Hrun).
Defined.

Section FlipFacts.
Context {A : Type} (zero : A).
Implicit Types (a spec : array2 A).

Lemma flip_rows_col_block w i a :
  col_block w i (flip_rows a) = flip_rows (col_block w i a).
Proof. unfold col_block, flip_rows; simpl. by rewrite fmap_reverse. Qed.

Lemma flip_rows_pad_right p a :
  pad_right zero p (flip_rows a) = flip_rows (pad_right zero p a).
Proof. unfold pad_right, flip_rows; simpl. by rewrite fmap_reverse. Qed.

Lemma flip_rows_take_cols stop a :
  take_cols stop (flip_rows a) = flip_rows (take_cols stop a).
Proof. unfold take_cols, flip_rows; simpl. by rewrite fmap_reverse. Qed.

Lemma np_split_flip_rows a sections :
  np_split (flip_rows a) sections
  = match np_split a sections with
    | Ok chunks => Ok (flip_rows <$> chunks)
    | Raise e => Raise e
    end.
Proof.
  unfold np_split. cbn [flip_rows width].
  destruct (decide (sections = 0)); [done|].
  destruct (decide (width a `mod` sections = 0)); [|done].
  f_equal. rewrite <- list_fmap_compose. apply list_fmap_ext.
  intros j i _. simpl. apply flip_rows_col_block.
Qed.

(** X5. Reversing the rows commutes with chunking: the chunks that
    [convert_audio_to_image] flips one by one ([chunk[::-1]]) are the
    chunks of the flipped spectrogram, and chunking fails on the one exactly
    when it fails on the other. *)
Theorem flip_commutes_with_chunking spec cs truncate :
  spec_to_chunks zero (flip_rows spec) cs truncate
  = match spec_to_chunks zero spec cs truncate with
    | Ok chunks => Ok (flip_rows <$> chunks)
    | Raise e => Raise e
    end.
Proof.
  unfold spec_to_chunks, shape1. cbn [flip_rows width].
  destruct (decide (cs ≤ width spec)); [|done].
  destruct (decide (cs = 0)); [done|].
  destruct truncate.
  - rewrite flip_rows_take_cols. cbn [flip_rows width]. apply np_split_flip_rows.
  - rewrite flip_rows_pad_right. cbn [flip_rows width]. apply np_split_flip_rows.
Qed.

End FlipFacts.

(** ** Normalisation and its inverse: what survives *)

Section ScaleFacts.
Local Open Scope R_scope.
Implicit Types (a d spec : array2 R).

Lemma unit_interval_quotient m M e :
  m <= e <= M → m < M → 0 <= (e - m) / (M - m) <= 1.
Proof.
  intros [H1 H2] Hlt.
  assert (0 < / (M - m)) as Hinv by (apply Rinv_0_lt_compat; lra).
  unfold Rdiv. split; [nra|].
  apply (Rmult_le_reg_r (M - m)); [lra|].
  rewrite Rmult_assoc, Rinv_l by lra. lra.
Qed.

Lemma normalize_empty spec :
  entries spec = [] →
  normalize spec
  = Raise (ValueError "zero-size array to reduction operation minimum which has no identity").
Proof. intros Hnil. unfold normalize, np_min. by rewrite Hnil. Qed.

(** X7. Whatever range a non-constant decibel array has, normalising it
    and mapping it back with [TOP_DB * (v - 1)] gives finite values that
    span exactly [-TOP_DB .. 0]. *)
Theorem roundtrip_spans_top_db d x y TOP_DB :
  x ∈ entries d → y ∈ entries d → x ≠ y → 0 < TOP_DB →
  ∃ out, normalize_then_denormalize TOP_DB d = Ok (amap Fin out)
    ∧ np_max out = Ok 0 ∧ np_min out = Ok (- TOP_DB).
Proof.
  intros Hx Hy Hxy Htop.
  destruct (np_min_max_exist _ _ Hx) as (m & M & Hmin & Hmax).
  pose proof Hmin as [_ Hge]%np_min_spec.
  pose proof Hmax as [_ Hle]%np_max_spec.
  assert (m < M) as Hlt.
  { pose proof (Hge _ Hx). pose proof (Hge _ Hy).
    pose proof (Hle _ Hx). pose proof (Hle _ Hy). lra. }
  assert (0 < / (M - m)) as Hinv by (apply Rinv_0_lt_compat; lra).
  set (f := λ e, TOP_DB * ((e - m) / (M - m) - 1)).
  assert (∀ u v, u <= v → f u <= f v) as Hmono.
  { intros u v Huv. unfold f, Rdiv.
    assert ((u - m) * / (M - m) <= (v - m) * / (M - m)) by nra. nra. }
  exists (amap f d). split; [|split].
  - unfold normalize_then_denormalize.
    rewrite (normalize_nonconstant _ _ _ Hmin Hmax Hlt).
    change (Ok ?u ≫= ?g) with (g u). cbv beta.
    unfold denormalize. by rewrite !amap_amap.
  - replace 0 with (f M) by (unfold f; field; lra).
    by apply np_max_monotone.
  - replace (- TOP_DB) with (f m) by (unfold f; field; lra).
    by apply np_min_monotone.
Qed.

(** X8. A constant decibel array (silence) does not survive: normalising
    it and mapping it back gives [nan] in every entry, whatever [TOP_DB]. *)
Theorem constant_spectrogram_becomes_nan d c TOP_DB :
  c ∈ entries d → (∀ x, x ∈ entries d → x = c) →
  normalize_then_denormalize TOP_DB d = Ok (amap (λ _, NaN) d).
Proof.
  intros Hc Hall.
  assert (np_min d = Ok c) as Hmin.
  { apply np_min_spec. split; [done|]. intros e ->%Hall. lra. }
  assert (np_max d = Ok c) as Hmax.
  { apply np_max_spec. split; [done|]. intros e ->%Hall. lra. }
  unfold normalize_then_denormalize. rewrite (normalize_constant _ _ Hmin Hmax).
  change (Ok ?u ≫= ?g) with (g u). cbv beta.
  unfold denormalize. by rewrite amap_amap.
Qed.

(** X9. De-normalisation turns the zero padding of the chunks into the
    floor value [-TOP_DB]: mapping a zero-padded array back is the same as
    mapping the array back and padding it with [-TOP_DB]. *)
Theorem denormalize_pad_right TOP_DB p (a : array2 npfloat) :
  denormalize TOP_DB (pad_right (Fin 0) p a)
  = pad_right (Fin (- TOP_DB)) p (denormalize TOP_DB a).
Proof.
  unfold denormalize, amap, pad_right; simpl. f_equal.
  rewrite <- !list_fmap_compose. apply list_fmap_ext. intros i r _. simpl.
  rewrite fmap_app, fmap_replicate. do 3 f_equal. simpl. f_equal. lra.
Qed.

(** What [normalize] can return: [nan]s or numbers in [0 .. 1]. *)
Lemma normalize_entries d out v :
  normalize d = Ok out → v ∈ entries out →
  v = NaN ∨ ∃ r, v = Fin r ∧ 0 <= r <= 1.
Proof.
  intros Hrun Hv.
  destruct (entries d) as [|x l] eqn:Hent.
  { rewrite normalize_empty in Hrun by done. discriminate Hrun. }
  assert (x ∈ entries d) as Hx by (rewrite Hent; left).
  destruct (np_min_max_exist _ _ Hx) as (m & M & Hmin & Hmax).
  pose proof Hmin as [_ Hge]%np_min_spec.
  pose proof Hmax as [_ Hle]%np_max_spec.
  destruct (Rle_lt_or_eq_dec m M) as [Hlt|Heq].
  { pose proof (Hge _ Hx). pose proof (Hle _ Hx). lra. }
  - rewrite (normalize_nonconstant _ _ _ Hmin Hmax Hlt) in Hrun.
    injection Hrun as <-. rewrite amap_amap, entries_amap in Hv.
    apply list_elem_of_fmap in Hv as (e & -> & He). right. eexists. split; [done|].
    apply unit_interval_quotient; [|done]. split; auto.
  - subst M. rewrite (normalize_constant _ _ Hmin Hmax) in Hrun.
    injection Hrun as <-. rewrite entries_amap in Hv.
    apply list_elem_of_fmap in Hv as (e & -> & _). by left.
Qed.

End ScaleFacts.

Lemma roundtrip_spans_top_db_witness :
  let d := Array2 [[0; -40]]%R 2 in
  (0%R ∈ entries d ∧ (-40)%R ∈ entries d ∧ 0%R ≠ (-40)%R ∧ (0 < 80)%R)
  ∧ ∃ out, normalize_then_denormalize 80 d = Ok (amap Fin out)
      ∧ np_max out = Ok 0%R ∧ np_min out = Ok (- 80)%R.
Proof.
  cbv zeta.
  assert (0%R ∈ entries (Array2 [[0; -40]]%R 2)) as H0 by (left).
  assert ((-40)%R ∈ entries (Array2 [[0; -40]]%R 2)) as H1 by (right; left).
  assert (0%R ≠ (-40)%R) as Hne by lra.
  assert (0 < 80)%R as Htop by lra.
  split; [done|].
  exact (roundtrip_spans_top_db _ _ _ 80 H0 H1 Hne Htop).
Defined.

Lemma constant_spectrogram_becomes_nan_witness :
  let d := Array2 [[0; 0]]%R 2 in
  (0%R ∈ entries d ∧ ∀ x, x ∈ entries d → x = 0%R)
  ∧ normalize_then_denormalize 80 d = Ok (amap (λ _, NaN) d).
Proof.
  cbv zeta.
  assert (0%R ∈ entries (Array2 [[0; 0]]%R 2)) as H0 by (left).
  assert (∀ x, x ∈ entries (Array2 [[0; 0]]%R 2) → x = 0%R) as Hall.
  { intros x Hx. unfold entries in Hx; simpl in Hx. set_unfold. by destruct_or!. }
  split; [done|].
  exact (constant_spectrogram_becomes_nan _ 0%R 80 H0 Hall).
Defined.

(** ** The saved chunks *)

Section SavedChunks.
Local Open Scope R_scope.
Context (L : Library).

Lemma feature_chunks_entries top_db audio sr
    (n_fft hop_length n_mels chunk_size : nat) truncate chunks c v :
  audio_to_numpy_chunks L top_db audio sr n_fft hop_length n_mels chunk_size truncate
  = Ok chunks →
  c ∈ chunks → v ∈ entries c →
  v = NaN ∨ ∃ r, v = Fin r ∧ 0 <= r <= 1.
Proof.
  unfold audio_to_numpy_chunks. intros Hrun Hc Hv.
  destruct (melspectrogram L audio sr n_fft hop_length n_mels) as [mel|];
    [|discriminate Hrun].
  change (Ok ?u ≫= ?g) with (g u) in Hrun. cbv beta in Hrun.
  destruct (power_to_db mel top_db) as [d|]; [|discriminate Hrun].
  change (Ok ?u ≫= ?g) with (g u) in Hrun. cbv beta in Hrun.
  destruct (normalize d) as [out|] eqn:Hnorm; [|discriminate Hrun].
  change (Ok ?u ≫= ?g) with (g u) in Hrun. cbv beta in Hrun.
  destruct (spec_to_chunks_entries _ _ _ _ _ _ _ Hrun Hc Hv) as [Hin|[_ ->]].
  - by eapply normalize_entries.
  - right. exists 0. split; [done|lra].
Qed.

(** X10. Whatever [convert_audio_to_numpy] and [convert_audio_to_image]
    save is normalised: when the feature extraction of a file succeeds,
    every entry of every chunk is a number in [0 .. 1] (padding included)
    or [nan]. *)
Theorem saved_chunks_are_normalized TOP_DB audio sr
    (n_fft hop_length n_mels chunk_size : nat) truncate chunks c v :
  audio_to_numpy_chunks L TOP_DB audio sr n_fft hop_length n_mels chunk_size truncate
  = Ok chunks
  ∨ audio_to_image_chunks L audio sr n_fft hop_length n_mels chunk_size truncate
    = Ok chunks →
  c ∈ chunks → v ∈ entries c →
  v = NaN ∨ ∃ r, v = Fin r ∧ 0 <= r <= 1.
Proof.
  intros [Hrun|Hrun]; [by eapply feature_chunks_entries|].
  change (audio_to_numpy_chunks L default_top_db audio sr n_fft hop_length n_mels
            chunk_size truncate = Ok chunks) in Hrun.
  by eapply feature_chunks_entries.
Qed.

End SavedChunks.

Lemma audio_to_numpy_chunks_example :
  audio_to_numpy_chunks (example_library (Array2 [[1; / 10 ^ 2; / 10 ^ 6]]%R 3))
    40 [] 0 0 0 0 4 false
  = Ok [Array2 [[Fin 1; Fin (1 / 2); Fin 0]] 3].
Proof.
  unfold audio_to_numpy_chunks. cbn [melspectrogram example_library].
  change (Ok ?x ≫= ?k) with (k x). cbv beta.
  rewrite power_to_db_three_bands by lra.
  rewrite (Rmax_left 0), (Rmax_left (-20)), (Rmax_right (-60)) by lra.
  replace (Ropp 40) with (-40)%R by lra.
  change (Ok ?x ≫= ?k) with (k x). cbv beta.
  rewrite normalized_chunk_40. change (Ok ?x ≫= ?k) with (k x). cbv beta.
  by apply spec_to_chunks_short; unfold shape1; simpl; lia.
Qed.

Lemma saved_chunks_are_normalized_witness :
  let L := example_library (Array2 [[1; / 10 ^ 2; / 10 ^ 6]]%R 3) in
  let c := Array2 [[Fin 1; Fin (1 / 2); Fin 0]] 3 in
  ((audio_to_numpy_chunks L 40 [] 0 0 0 0 4 false = Ok [c]
    ∨ audio_to_image_chunks L [] 0 0 0 0 4 false = Ok [c])
   ∧ c ∈ [c] ∧ Fin (1 / 2) ∈ entries c)
  ∧ (Fin (1 / 2) = NaN ∨ ∃ r, Fin (1 / 2) = Fin r ∧ (0 <= r <= 1)%R).
Proof.
  cbv zeta.
  pose proof (or_introl audio_to_numpy_chunks_example
    : _ ∨ audio_to_image_chunks (example_library (Array2 [[1; / 10 ^ 2; / 10 ^ 6]]%R 3))
            [] 0 0 0 0 4 false = Ok [Array2 [[Fin 1; Fin (1 / 2); Fin 0]] 3]) as Hrun.
  assert (Array2 [[Fin 1; Fin (1 / 2); Fin 0]] 3
          ∈ [Array2 [[Fin 1; Fin (1 / 2); Fin 0]] 3]) as Hc by (left).
  assert (Fin (1 / 2) ∈ entries (Array2 [[Fin 1; Fin (1 / 2); Fin 0]] 3)) as Hv
    by (unfold entries; simpl; right; left).
  split; [done|].
  exact (saved_chunks_are_normalized _ 40 [] 0 0 0 0 4 false _ _ _ Hrun Hc Hv).
Defined.

(** ** Detection: which results are possible *)

Section DetectionResults.
Implicit Types (w : world) (p f : path) (found : gset DataType) (b : bool).

Lemma add_matches_supported f d :
  d ∈ add_matches ∅ f → d = AUDIO ∨ d = NUMPY ∨ d = IMAGE.
Proof.
  unfold add_matches, SUPPORTED_EXTENSIONS. cbn [foldl].
  split_tests; set_solver.
Qed.

Lemma add_matches_listed f d exts :
  (d, exts) ∈ SUPPORTED_EXTENSIONS → extension f ∈ exts → d ∈ add_matches ∅ f.
Proof.
  unfold add_matches, SUPPORTED_EXTENSIONS. cbn [foldl]. intros Hd Hext.
  set_unfold in Hd. destruct Hd as [[= -> ->]|[[= -> ->]|[[= -> ->]|[]]]];
    split_tests; set_solver.
Qed.

Lemma found_types_supported files d :
  d ∈ found_types files → d = AUDIO ∨ d = NUMPY ∨ d = IMAGE.
Proof.
  intros (f & _ & Hd)%found_types_spec. by eapply add_matches_supported.
Qed.

Lemma classify_ok found b t :
  classify found b = Ok t →
  (size found = 1 ∧ found = {[t]})
  ∨ (b = false ∧ ((size found = 0 ∧ t = UNKNOWN) ∨ (1 < size found ∧ t = AMBIGUOUS))).
Proof.
  unfold classify. destruct (decide (size found = 0)) as [H0|H0].
  { destruct b; [discriminate|]. intros [= <-]. right. auto. }
  destruct (decide (size found = 1)) as [H1|H1].
  - destruct (size_one_singleton _ H1) as [t' ->].
    rewrite elements_singleton. intros [= <-]. left. by rewrite size_singleton.
  - destruct b; [discriminate|]. intros [= <-]. right.
    split; [done|]. right. split; [lia|done].
Qed.

(** X11. What [get_data_type] returns, and when. It returns a type [t]
    exactly when [t] is the one type matched, or, with
    [raise_exception=False] only, when nothing is matched and [t] is
    UNKNOWN, or several types are matched and [t] is AMBIGUOUS. The one
    type matched is AUDIO, NUMPY or IMAGE, and ERROR is never returned. *)
Theorem get_data_type_possible_results p b w t :
  let found := found_types (files_under (fs w) p) in
  ((get_data_type p b w).1 = Ok t
   ↔ found = {[t]}
     ∨ (b = false ∧ ((found = ∅ ∧ t = UNKNOWN) ∨ (1 < size found ∧ t = AMBIGUOUS))))
  ∧ (found = {[t]} → t = AUDIO ∨ t = NUMPY ∨ t = IMAGE)
  ∧ (get_data_type p b w).1 ≠ Ok ERROR.
Proof.
  intros found.
  assert (∀ t', found = {[t']} → t' = AUDIO ∨ t' = NUMPY ∨ t' = IMAGE) as Hsup.
  { intros t' Hone. apply (found_types_supported (files_under (fs w) p)).
    fold found. rewrite Hone. set_solver. }
  assert (∀ t', (get_data_type p b w).1 = Ok t' → classify found b = Ok t') as Hrun.
  { intros t'. rewrite get_data_type_eq. cbv zeta. fold found.
    by destruct (classify found b). }
  split; [split|split; [apply Hsup|]].
  - intros Hcl%Hrun.
    apply classify_ok in Hcl as [[_ Hone]|[-> [[Hz ->]|[Hm ->]]]].
    + by left.
    + right. split; [done|]. left. split; [|done]. by apply size_empty_iff, leibniz_equiv in Hz.
    + right. split; [done|]. by right.
  - rewrite get_data_type_eq. cbv zeta. fold found.
    intros [Hone|[-> [[Hz ->]|[Hm ->]]]].
    + by rewrite Hone, classify_singleton.
    + rewrite Hz. unfold classify. by rewrite size_empty.
    + unfold classify. rewrite !decide_False by lia. done.
  - intros Hcl%Hrun.
    apply classify_ok in Hcl as [[_ Hone]|[_ [[_ [=]]|[_ [=]]]]].
    by destruct (Hsup _ Hone) as [|[|]].
Qed.

(** X13. Files of two different recognised types under the path make the
    input ambiguous: AMBIGUOUS is returned, or [ValueError] raised with
    [raise_exception=True]. *)
Theorem get_data_type_mixed_types p w f1 f2 d1 d2 exts1 exts2 :
  f1 ∈ files_under (fs w) p → f2 ∈ files_under (fs w) p →
  (d1, exts1) ∈ SUPPORTED_EXTENSIONS → extension f1 ∈ exts1 →
  (d2, exts2) ∈ SUPPORTED_EXTENSIONS → extension f2 ∈ exts2 →
  d1 ≠ d2 →
  (get_data_type p false w).1 = Ok AMBIGUOUS
  ∧ ∃ msg, (get_data_type p true w).1 = Raise (ValueError msg).
Proof.
  intros Hf1 Hf2 Hd1 He1 Hd2 He2 Hne.
  set (found := found_types (files_under (fs w) p)).
  assert (d1 ∈ found) as H1.
  { apply found_types_spec. exists f1. split; [done|]. by eapply add_matches_listed. }
  assert (d2 ∈ found) as H2.
  { apply found_types_spec. exists f2. split; [done|]. by eapply add_matches_listed. }
  assert (size found ≠ 0) as Hn0.
  { intros Hz%size_empty_iff. set_solver. }
  assert (size found ≠ 1) as Hn1.
  { intros (t & Ht)%size_one_singleton. rewrite Ht in H1, H2. set_solver. }
  rewrite !get_data_type_eq. cbv zeta. fold found. unfold classify.
  rewrite !decide_False by done. simpl. split; [done|by eexists].
Qed.

(** X12. For a single regular file the result is read off its extension:
    AUDIO for wav, flac, mp3 and ogg, NUMPY for npy and npz, IMAGE for
    tiff, and otherwise UNKNOWN (or the [ValueError] of an unknown type).
    A single file is never ambiguous. *)
Theorem get_data_type_of_file p b w :
  is_file (fs w) p = true →
  (get_data_type p b w).1
  = if decide (extension p ∈ ["wav"; "flac"; "mp3"; "ogg"]) then Ok AUDIO
    else if decide (extension p ∈ ["npy"; "npz"]) then Ok NUMPY
    else if decide (extension p ∈ ["tiff"]) then Ok IMAGE
    else if b
         then Raise (ValueError "Unknown source data type. No known file types we matched.")
         else Ok UNKNOWN.
Proof.
  intros Hfile. rewrite get_data_type_eq. cbv zeta.
  unfold files_under. rewrite Hfile.
  unfold found_types. cbn [foldl].
  unfold add_matches, SUPPORTED_EXTENSIONS. cbn [foldl].
  destruct (decide (extension p ∈ ["wav"; "flac"; "mp3"; "ogg"])) as [Ha|Ha];
  destruct (decide (extension p ∈ ["npy"; "npz"])) as [Hn|Hn];
  destruct (decide (extension p ∈ ["tiff"])) as [Hi|Hi];
    try (exfalso; set_unfold; destruct_or!; congruence).
  - rewrite (left_id_L ∅ (∪)), classify_singleton. done.
  - rewrite (left_id_L ∅ (∪)), classify_singleton. done.
  - rewrite (left_id_L ∅ (∪)), classify_singleton. done.
  - unfold classify. rewrite size_empty. simpl. by destruct b.
Qed.

End DetectionResults.

Lemma get_data_type_possible_results_witness :
  let w := World (<[ ["d"; "a.npy"] := File [] ]>
                    (<[ ["d"; "b.wav"] := File [] ]> {[ ["d"] := Dir ]})) [] [] in
  ((get_data_type ["d"; "a.npy"] true w).1 = Ok NUMPY
   ↔ found_types (files_under (fs w) ["d"; "a.npy"]) = {[NUMPY]}
     ∨ (true = false
        ∧ ((found_types (files_under (fs w) ["d"; "a.npy"]) = ∅ ∧ NUMPY = UNKNOWN)
           ∨ (1 < size (found_types (files_under (fs w) ["d"; "a.npy"]))
              ∧ NUMPY = AMBIGUOUS))))
  ∧ (get_data_type ["d"; "a.npy"] true w).1 = Ok NUMPY
  ∧ (get_data_type ["d"] false w).1 = Ok AMBIGUOUS.
Proof.
  cbv zeta.
  split; [exact (proj1 (get_data_type_possible_results ["d"; "a.npy"] true
                          (World _ [] []) NUMPY))|].
  split; vm_compute; reflexivity.
Defined.

Lemma get_data_type_mixed_types_witness :
  let w := World (<[ ["d"; "a.npy"] := File [] ]>
                    (<[ ["d"; "b.wav"] := File [] ]> {[ ["d"] := Dir ]})) [] [] in
  (["d"; "a.npy"] ∈ files_under (fs w) ["d"]
   ∧ ["d"; "b.wav"] ∈ files_under (fs w) ["d"]
   ∧ (NUMPY, ["npy"; "npz"]) ∈ SUPPORTED_EXTENSIONS
   ∧ extension ["d"; "a.npy"] ∈ ["npy"; "npz"]
   ∧ (AUDIO, ["wav"; "flac"; "mp3"; "ogg"]) ∈ SUPPORTED_EXTENSIONS
   ∧ extension ["d"; "b.wav"] ∈ ["wav"; "flac"; "mp3"; "ogg"]
   ∧ NUMPY ≠ AUDIO)
  ∧ (get_data_type ["d"] false w).1 = Ok AMBIGUOUS
  ∧ ∃ msg, (get_data_type ["d"] true w).1 = Raise (ValueError msg).
Proof.
  cbv zeta.
  set (w := World (<[ ["d"; "a.npy"] := File [] ]>
                     (<[ ["d"; "b.wav"] := File [] ]> {[ ["d"] := Dir ]})) [] []).
  assert (files_under (fs w) ["d"] = [["d"; "a.npy"]; ["d"; "b.wav"]]) as Hfiles
    by (vm_compute; reflexivity).
  assert (["d"; "a.npy"] ∈ files_under (fs w) ["d"]) as H1
    by (rewrite Hfiles; left).
  assert (["d"; "b.wav"] ∈ files_under (fs w) ["d"]) as H2
    by (rewrite Hfiles; right; left).
  assert ((NUMPY, ["npy"; "npz"]) ∈ SUPPORTED_EXTENSIONS) as H3 by (right; left).
  assert (extension ["d"; "a.npy"] ∈ ["npy"; "npz"]) as H4 by (left).
  assert ((AUDIO, ["wav"; "flac"; "mp3"; "ogg"]) ∈ SUPPORTED_EXTENSIONS) as H5 by (left).
  assert (extension ["d"; "b.wav"] ∈ ["wav"; "flac"; "mp3"; "ogg"]) as H6 by (left).
  assert (NUMPY ≠ AUDIO) as H7 by discriminate.
  split; [repeat split; assumption|].
  exact (get_data_type_mixed_types ["d"] w _ _ _ _ _ _ H1 H2 H3 H4 H5 H6 H7).
Defined.

Lemma get_data_type_of_file_witness :
  let w := World {[ ["song.flac"] := File [] ]} [] [] in
  is_file (fs w) ["song.flac"] = true
  ∧ (get_data_type ["song.flac"] true w).1
    = if decide (extension ["song.flac"] ∈ ["wav"; "flac"; "mp3"; "ogg"]) then Ok AUDIO
      else if decide (extension ["song.flac"] ∈ ["npy"; "npz"]) then Ok NUMPY
      else if decide (extension ["song.flac"] ∈ ["tiff"]) then Ok IMAGE
      else if true
           then Raise (ValueError "Unknown source data type. No known file types we matched.")
           else Ok UNKNOWN.
Proof.
  cbv zeta.
  assert (is_file (fs (World {[ ["song.flac"] := File [] ]} [] [])) ["song.flac"] = true)
    as Hfile by (vm_compute; reflexivity).
  split; [exact Hfile|].
  exact (get_data_type_of_file ["song.flac"] true (World _ [] []) Hfile).
Defined.

(** ** The batch loops: skipping, stopping, missing input *)

Section LoopEdges.
Context {St : Type} (step : path → St → M St).

Lemma for_enumerate_none_skipped (skip : Z) paths : ∀ i st w,
  (skip ≤ Z.of_nat i)%Z →
  for_enumerate
    (λ i p st, if bool_decide (Z.of_nat i < skip)%Z then mret st else step p st)
    i paths st w
  = for_each step paths st w.
Proof.
  induction paths as [|p paths IH]; intros i st w Hi; [done|].
  cbn [for_enumerate for_each]. unfold mbind, M_bind.
  rewrite bool_decide_eq_false_2 by lia.
  destruct (step p st w) as [[st'|e] w1]; [|done]. apply IH. lia.
Qed.


Lemma for_each_app l1 l2 st w :
  for_each step (l1 ++ l2) st w
  = match for_each step l1 st w with
    | (Ok st1, w1) => for_each step l2 st1 w1
    | (Raise e, w1) => (Raise e, w1)
    end.
Proof.
  revert st w. induction l1 as [|p l1 IH]; intros st w; [done|].
  cbn [app for_each]. unfold mbind, M_bind.
  destruct (step p st w) as [[st'|e] w1]; [|done]. apply IH.
Qed.

(** X18. One failing file stops the batch: when the step raises on a path,
    the loop ends with that exception in the world the step left, and the
    step is not run on any path after it. What the steps before it did
    stays done. *)
Theorem batch_stops_at_first_failure skipped processed p rest st st1 w w1 w2 e :
  for_each step processed st w = (Ok st1, w1) →
  step p st1 w1 = (Raise e, w2) →
  skip_loop (Z.of_nat (length skipped)) step
    (skipped ++ processed ++ p :: rest) st w
  = (Raise e, w2).
Proof.
  intros Hdone Hfail. unfold skip_loop.
  rewrite for_enumerate_skip, Nat.sub_0_r, drop_app_length.
  rewrite for_each_app, Hdone. cbn [for_each]. unfold mbind, M_bind.
  by rewrite Hfail.
Qed.

(** X16. A skip of zero or less skips nothing: the step runs on every
    path. *)
Theorem nonpositive_skip_processes_all (skip : Z) paths st w :
  (skip ≤ 0)%Z → skip_loop skip step paths st w = for_each step paths st w.
Proof. intros Hskip. unfold skip_loop. apply for_enumerate_none_skipped. lia. Qed.

End LoopEdges.

Lemma batch_stops_at_first_failure_witness :
  let step := λ (p : path) (_ : unit),
    if decide (p = ["bad"]) then raise (LibraryError "unreadable") else print (str p) in
  let w := World ∅ [] [] in
  (for_each step [["a"]] () w = (Ok (), World ∅ ["a"] [])
   ∧ step ["bad"] () (World ∅ ["a"] [])
     = (Raise (LibraryError "unreadable"), World ∅ ["a"] []))
  ∧ skip_loop (Z.of_nat (length [["s"]])) step
      ([["s"]] ++ [["a"]] ++ ["bad"] :: [["z"]]) () w
    = (Raise (LibraryError "unreadable"), World ∅ ["a"] []).
Proof.
  cbv zeta.
  set (step := λ (p : path) (_ : unit),
    if decide (p = ["bad"]) then raise (LibraryError "unreadable") else print (str p)).
  assert (for_each step [["a"]] () (World ∅ [] []) = (Ok (), World ∅ ["a"] []))
    as Hdone by reflexivity.
  assert (step ["bad"] () (World ∅ ["a"] [])
          = (Raise (LibraryError "unreadable"), World ∅ ["a"] [])) as Hfail
    by reflexivity.
  split; [done|].
  exact (batch_stops_at_first_failure step [["s"]] [["a"]] ["bad"] [["z"]]
           () () _ _ _ _ Hdone Hfail).
Defined.

Lemma nonpositive_skip_processes_all_witness :
  let step := λ (p : path) (_ : unit), print (str p) in
  ((-3) ≤ 0)%Z
  ∧ skip_loop (-3) step [["a"]; ["b"]] () (World ∅ [] [])
    = for_each step [["a"]; ["b"]] () (World ∅ [] []).
Proof.
  cbv zeta. assert ((-3) ≤ 0)%Z as Hskip by lia.
  split; [exact Hskip|].
  exact (nonpositive_skip_processes_all _ (-3) [["a"]; ["b"]] () (World ∅ [] []) Hskip).
Defined.

Section ConverterEdges.
Context (L : Library) (TOP_DB : R) (N_MELS : nat).
Implicit Types (w : world) (inp out_dir : path).

Lemma input_paths_missing inp w :
  exists_ (fs w) inp = false →
  input_paths L inp w
  = (Raise (ValueError ("Input must be a valid file or directory. Got '"
                        +:+ str inp +:+ "'")), w).
Proof.
  intros Hmiss. unfold input_paths, mbind, M_bind, get_fs. by rewrite Hmiss.
Qed.

Lemma input_paths_existing inp w :
  exists_ (fs w) inp = true →
  input_paths L inp w
  = (Ok (if is_dir (fs w) inp then natsorted L (rglob_files (fs w) inp) else [inp]), w).
Proof.
  intros Hex. unfold input_paths, mbind, M_bind, get_fs. rewrite Hex. simpl.
  by destruct (is_dir (fs w) inp).
Qed.

(** X15. Every converter checks its input first: when the input path does
    not exist it raises [ValueError] before printing anything or touching
    a file. *)
Theorem converters_reject_missing_input inp out_dir sr offset duration res_type
    n_fft hop_length n_mels chunk_size truncate flip fmt skip w :
  exists_ (fs w) inp = false →
  let e := ValueError ("Input must be a valid file or directory. Got '"
                       +:+ str inp +:+ "'") in
  let after c := World (fs w) (stdout w) (entered w ++ [c]) in
  convert_audio_to_numpy L TOP_DB inp out_dir sr offset duration res_type
    n_fft hop_length n_mels chunk_size truncate skip w = (Raise e, after AudioToNumpy)
  ∧ convert_audio_to_image L inp out_dir sr offset duration res_type
      n_fft hop_length n_mels chunk_size truncate flip skip w = (Raise e, after AudioToImage)
  ∧ convert_numpy_to_image L inp out_dir flip skip w = (Raise e, after NumpyToImage)
  ∧ convert_numpy_to_audio L TOP_DB inp out_dir sr n_fft hop_length fmt
      offset duration skip w = (Raise e, after NumpyToAudio)
  ∧ convert_image_to_audio L inp out_dir sr n_fft hop_length fmt
      offset duration flip skip w = (Raise e, after ImageToAudio).
Proof.
  intros Hmiss e after.
  unfold convert_audio_to_numpy, convert_audio_to_image, convert_numpy_to_image,
    convert_numpy_to_audio, convert_image_to_audio.
  unfold mbind, M_bind, enter. rewrite !input_paths_missing by done.
  repeat split; try done.
  unfold image_to_audio_paths, mbind, M_bind, get_fs. simpl. by rewrite Hmiss.
Qed.


End ConverterEdges.

(** ** What changes no file *)

Section FsFrames.
Context {A B : Type}.

Lemma keeps_fs_ret (a : A) : keeps_fs (mret a).
Proof. by intros w. Qed.

Lemma keeps_fs_raise (e : exn) : keeps_fs (raise e : M A).
Proof. by intros w. Qed.

Lemma keeps_fs_bind (m : M A) (k : A → M B) :
  keeps_fs m → (∀ a, keeps_fs (k a)) → keeps_fs (m ≫= k).
Proof.
  intros Hm Hk w. unfold mbind, M_bind. specialize (Hm w).
  destruct (m w) as [[a|e] w1]; simpl in *; [|done].
  by rewrite Hk.
Qed.

End FsFrames.

Lemma keeps_fs_print s : keeps_fs (print s).
Proof. by intros w. Qed.

Lemma keeps_fs_enter c : keeps_fs (enter c).
Proof. by intros w. Qed.

Lemma keeps_fs_get_fs : keeps_fs get_fs.
Proof. by intros w. Qed.

Lemma keeps_fs_for_enumerate {X St} (body : nat → X → St → M St) xs :
  (∀ i x st, keeps_fs (body i x st)) →
  ∀ i st, keeps_fs (for_enumerate body i xs st).
Proof.
  intros Hbody. induction xs as [|x xs IH]; intros i st; simpl.
  - apply keeps_fs_ret.
  - apply keeps_fs_bind; [apply Hbody|]. intros st'. apply IH.
Qed.

Lemma print_loop_returns (skip : Z) (paths : list path) : ∀ i w,
  (for_enumerate
     (λ i p (st : unit),
        if bool_decide (Z.of_nat i < skip)%Z then mret st else print (str p))
     i paths () w).1 = Ok ().
Proof.
  induction paths as [|p paths IH]; intros i w; [done|].
  cbn [for_enumerate]. unfold mbind at 1, M_bind at 1.
  case_bool_decide; simpl; apply IH.
Qed.

Section StubFacts.
Context (L : Library).

Lemma keeps_fs_image_to_audio_paths inp : keeps_fs (image_to_audio_paths L inp).
Proof.
  unfold image_to_audio_paths. apply keeps_fs_bind; [apply keeps_fs_get_fs|].
  intros fs0. destruct (negb _); [apply keeps_fs_raise|].
  destruct (is_dir _ _); apply keeps_fs_ret.
Qed.

(** X19. The unfinished [convert_image_to_audio] only prints: whatever its
    arguments it changes no file, and when the input path exists it
    returns [None]. *)
Theorem convert_image_to_audio_only_prints inp out_dir sr n_fft hop_length fmt
    offset duration flip skip w :
  let out := convert_image_to_audio L inp out_dir sr n_fft hop_length fmt
               offset duration flip skip w in
  fs out.2 = fs w ∧ (exists_ (fs w) inp = true → out.1 = Ok ()).
Proof.
  cbv zeta. split.
  - unfold convert_image_to_audio.
    apply (keeps_fs_bind (enter ImageToAudio)); [apply keeps_fs_enter|]. intros _.
    apply keeps_fs_bind; [apply keeps_fs_image_to_audio_paths|]. intros paths.
    apply keeps_fs_bind; [apply keeps_fs_print|]. intros _.
    apply keeps_fs_bind; [apply keeps_fs_print|]. intros _.
    apply keeps_fs_for_enumerate. intros i p st.
    case_bool_decide; [apply keeps_fs_ret|apply keeps_fs_print].
  - intros Hex. unfold convert_image_to_audio, mbind, M_bind, enter.
    unfold image_to_audio_paths, mbind, M_bind, get_fs. cbn [fs].
    rewrite Hex. simpl. destruct (is_dir (fs w) inp); simpl; apply print_loop_returns.
Qed.

End StubFacts.

(** ** The dispatchers: failure and success of detection *)

Section DispatchEdges.
Context (L : Library) (TOP_DB : R) (N_MELS : nat).
Implicit Types (w : world) (inp out_dir : path).

Lemma dispatch_detection_fails (body : DataType → M unit) inp w msg :
  classify (found_types (files_under (fs w) inp)) true = Raise (ValueError msg) →
  (get_data_type inp true ≫= body) w
  = (Raise (ValueError msg),
     World (fs w) (stdout w ++ ["Checking input type(s)..."]) (entered w)).
Proof.
  intros Hcl. unfold mbind, M_bind. rewrite get_data_type_eq. cbv zeta.
  by rewrite Hcl.
Qed.

(** X22. When detection fails (no type or more than one type matched), a
    dispatcher stops there: it raises the [ValueError] of [get_data_type],
    has printed only the line [Checking input type(s)...], and has neither
    changed a file nor called a converter. *)
Theorem dispatchers_stop_at_failed_detection inp out_dir sr offset duration res_type
    n_fft hop_length n_mels chunk_size truncate flip fmt skip w :
  size (found_types (files_under (fs w) inp)) ≠ 1 →
  ∃ msg,
    let stopped :=
      (Raise (ValueError msg),
       World (fs w) (stdout w ++ ["Checking input type(s)..."]) (entered w)) in
    convert_to_numpy L TOP_DB inp out_dir sr offset duration res_type
      n_fft hop_length n_mels chunk_size truncate flip skip w = stopped
    ∧ convert_to_image L N_MELS inp out_dir sr offset duration res_type
        n_fft hop_length chunk_size truncate flip skip w = stopped
    ∧ convert_to_audio L TOP_DB inp out_dir sr n_fft hop_length fmt
        offset duration flip skip w = stopped.
Proof.
  intros Hsize. destruct (classify_not_one _ Hsize) as [msg Hcl].
  exists msg. cbv zeta.
  unfold convert_to_numpy, convert_to_image, convert_to_audio.
  rewrite !(dispatch_detection_fails _ _ _ _ Hcl). done.
Qed.

Lemma found_nonempty_exists inp w t :
  found_types (files_under (fs w) inp) = {[t]} → exists_ (fs w) inp = true.
Proof.
  unfold files_under, is_file, is_dir, exists_.
  destruct (fs w !! inp) as [[|data]|]; [done|done|].
  unfold found_types. simpl. intros Hnil. set_solver.
Qed.

Lemma image_to_audio_paths_existing inp w :
  exists_ (fs w) inp = true →
  image_to_audio_paths L inp w
  = (Ok (if is_dir (fs w) inp
         then natsorted L (elements (list_to_set (parent <$> rglob_files (fs w) inp)
                                      : gset path))
         else [inp]), w).
Proof.
  intros Hex. unfold image_to_audio_paths, mbind, M_bind, get_fs. rewrite Hex. simpl.
  by destruct (is_dir (fs w) inp).
Qed.

(** A dispatcher whose detection returns [t] goes on with its choice on
    [t], in the world that detection left. *)
Lemma dispatch_detected (body : DataType → M unit) inp w t :
  (get_data_type inp true w).1 = Ok t →
  (get_data_type inp true ≫= body) w = body t (get_data_type inp true w).2.
Proof.
  unfold mbind, M_bind. destruct (get_data_type inp true w) as [[t'|e] w1]; simpl.
  - by intros [= ->].
  - discriminate.
Qed.

Lemma detected_exists inp w t :
  (get_data_type inp true w).1 = Ok t →
  found_types (files_under (fs w) inp) = {[t]} ∧ exists_ (fs w) inp = true.
Proof.
  intros Hrun.
  assert (found_types (files_under (fs w) inp) = {[t]}) as Hone.
  { rewrite get_data_type_eq in Hrun. cbv zeta in Hrun.
    destruct (classify _ true) as [t'|e] eqn:Hcl; [|discriminate Hrun].
    simpl in Hrun. injection Hrun as ->.
    by apply classify_ok in Hcl as [[_ Hone]|[[=] _]]. }
  split; [done|]. by eapply found_nonempty_exists.
Qed.

(** X23. A converter called by a dispatcher never fails its own input
    check. When [get_data_type(inp, raise_exception=True)] returns, the
    input path exists, and the dispatcher runs the converter for the
    detected type past that check: the converter prints its two banner
    lines and runs its loop over [inp] itself for a file and over the
    natural-sorted regular files below [inp] for a directory
    ([convert_audio_to_numpy], [convert_audio_to_image],
    [convert_numpy_to_image], [convert_numpy_to_audio]), or over the
    natural-sorted parent directories of these files (the unfinished
    [convert_image_to_audio]). *)
Theorem detected_input_is_walked inp out_dir sr offset duration res_type
    n_fft hop_length n_mels chunk_size truncate flip fmt skip w t :
  (get_data_type inp true w).1 = Ok t →
  let w1 := (get_data_type inp true w).2 in
  let files :=
    if is_dir (fs w) inp then natsorted L (rglob_files (fs w) inp) else [inp] in
  let dirs :=
    if is_dir (fs w) inp
    then natsorted L (elements (list_to_set (parent <$> rglob_files (fs w) inp)
                                 : gset path))
    else [inp] in
  exists_ (fs w) inp = true
  ∧ (t = AUDIO →
     convert_to_numpy L TOP_DB inp out_dir sr offset duration res_type
       n_fft hop_length n_mels chunk_size truncate flip skip w
     = (enter AudioToNumpy;;
        print ("Converting files in " +:+ quoted inp +:+ " to Numpy arrays...");;
        print ("Arrays will be saved in " +:+ quoted out_dir +:+ newline);;
        skip_loop skip
          (audio_to_numpy_file L TOP_DB inp out_dir offset duration res_type
             n_fft hop_length n_mels chunk_size truncate)
          files sr;;
        mret ()) w1)
  ∧ (t = AUDIO →
     convert_to_image L N_MELS inp out_dir sr offset duration res_type
       n_fft hop_length chunk_size truncate flip skip w
     = (enter AudioToImage;;
        print ("Converting files in " +:+ quoted inp +:+ " to images...");;
        print ("Images will be saved in " +:+ quoted out_dir +:+ newline);;
        skip_loop skip
          (audio_to_image_file L inp out_dir offset duration res_type
             n_fft hop_length N_MELS chunk_size truncate flip)
          files sr;;
        mret ()) w1)
  ∧ (t = NUMPY →
     convert_to_image L N_MELS inp out_dir sr offset duration res_type
       n_fft hop_length chunk_size truncate flip skip w
     = (enter NumpyToImage;;
        print ("Converting files in " +:+ quoted inp +:+ " to images...");;
        print ("Images will be saved in " +:+ quoted out_dir +:+ newline);;
        skip_loop skip (numpy_to_image_file L inp out_dir flip) files ()) w1)
  ∧ (t = NUMPY →
     convert_to_audio L TOP_DB inp out_dir sr n_fft hop_length fmt
       offset duration flip skip w
     = (enter NumpyToAudio;;
        print ("Converting files in " +:+ quoted inp +:+ " to audio...");;
        print ("Images will be saved in " +:+ quoted out_dir +:+ newline);;
        skip_loop skip (numpy_to_audio_file L TOP_DB inp out_dir sr n_fft hop_length fmt)
          files ()) w1)
  ∧ (t = IMAGE →
     convert_to_audio L TOP_DB inp out_dir sr n_fft hop_length fmt
       offset duration flip skip w
     = (enter ImageToAudio;;
        print ("Converting files in " +:+ quoted inp +:+ " to images...");;
        print ("Images will be saved in " +:+ quoted out_dir +:+ newline);;
        skip_loop skip (λ p (_ : unit), print (str p)) dirs ()) w1).
Proof.
  intros Hrun w1 files dirs.
  destruct (detected_exists _ _ _ Hrun) as [_ Hex].
  pose proof (get_data_type_frame inp true w) as [Hfs _]. fold w1 in Hfs.
  split; [done|].
  unfold convert_to_numpy, convert_to_image, convert_to_audio.
  rewrite !(dispatch_detected _ _ _ _ Hrun). fold w1.
  repeat split; intros ->; decide_types.
  - unfold convert_audio_to_numpy, mbind, M_bind, enter.
    rewrite input_paths_existing by (cbn [fs]; by rewrite Hfs).
    cbn [fs]. by rewrite Hfs.
  - unfold convert_audio_to_image, mbind, M_bind, enter.
    rewrite input_paths_existing by (cbn [fs]; by rewrite Hfs).
    cbn [fs]. by rewrite Hfs.
  - unfold convert_numpy_to_image, mbind, M_bind, enter.
    rewrite input_paths_existing by (cbn [fs]; by rewrite Hfs).
    cbn [fs]. by rewrite Hfs.
  - unfold convert_numpy_to_audio, mbind, M_bind, enter.
    rewrite input_paths_existing by (cbn [fs]; by rewrite Hfs).
    cbn [fs]. by rewrite Hfs.
  - unfold convert_image_to_audio, mbind, M_bind, enter.
    rewrite image_to_audio_paths_existing by (cbn [fs]; by rewrite Hfs).
    cbn [fs]. by rewrite Hfs.
Qed.

End DispatchEdges.

Lemma converters_reject_missing_input_witness :
  let L := example_library (Array2 [] 0) in
  let w := World {[ ["a.wav"] := File [] ]} [] [] in
  exists_ (fs w) ["missing"] = false
  ∧ convert_audio_to_numpy L 80 ["missing"] ["out"] 0 0 None "" 0 0 0 0 false 0 w
    = (Raise (ValueError ("Input must be a valid file or directory. Got '"
                          +:+ str ["missing"] +:+ "'")),
       World (fs w) (stdout w) (entered w ++ [AudioToNumpy])).
Proof.
  cbv zeta.
  assert (exists_ (fs (World {[ ["a.wav"] := File [] ]} [] [])) ["missing"] = false)
    as Hmiss by (vm_compute; reflexivity).
  split; [exact Hmiss|].
  exact (proj1 (converters_reject_missing_input (example_library (Array2 [] 0)) 80
                  ["missing"] ["out"] 0%Z 0%R None "" 0 0 0 0 false false "wav" 0%Z
                  (World _ [] []) Hmiss)).
Defined.


Lemma dispatchers_stop_at_failed_detection_witness :
  let L := example_library (Array2 [] 0) in
  let w := World {[ ["d"] := Dir ]} [] [] in
  size (found_types (files_under (fs w) ["d"])) ≠ 1
  ∧ ∃ msg,
      convert_to_numpy L 80 ["d"] ["out"] 0 0 None "" 0 0 0 0 false false 0 w
      = (Raise (ValueError msg),
         World (fs w) (stdout w ++ ["Checking input type(s)..."]) (entered w)).
Proof.
  cbv zeta.
  set (w := World {[ ["d"] := Dir ]} [] []).
  assert (size (found_types (files_under (fs w) ["d"])) ≠ 1) as Hsize.
  { replace (found_types (files_under (fs w) ["d"])) with (∅ : gset DataType)
      by (vm_compute; reflexivity).
    rewrite size_empty. discriminate. }
  split; [exact Hsize|].
  destruct (dispatchers_stop_at_failed_detection (example_library (Array2 [] 0)) 80 128
              ["d"] ["out"] 0%Z 0%R None "" 0 0 0 0 false false "wav" 0%Z w Hsize)
    as (msg & Hnumpy & _).
  exists msg. exact Hnumpy.
Defined.

Lemma detected_input_is_walked_witness :
  let L := example_library (Array2 [] 0) in
  let w := World {[ ["a.npy"] := File [] ]} [] [] in
  let w1 := (get_data_type ["a.npy"] true w).2 in
  (get_data_type ["a.npy"] true w).1 = Ok NUMPY
  ∧ exists_ (fs w) ["a.npy"] = true
  ∧ convert_to_image L 128 ["a.npy"] ["out"] 0 0 None "" 0 0 0 false false 0 w
    = (enter NumpyToImage;;
       print ("Converting files in " +:+ quoted ["a.npy"] +:+ " to images...");;
       print ("Images will be saved in " +:+ quoted ["out"] +:+ newline);;
       skip_loop 0 (numpy_to_image_file L ["a.npy"] ["out"] false)
         (if is_dir (fs w) ["a.npy"]
          then natsorted L (rglob_files (fs w) ["a.npy"]) else [["a.npy"]]) ()) w1.
Proof.
  cbv zeta.
  assert ((get_data_type ["a.npy"] true (World {[ ["a.npy"] := File [] ]} [] [])).1
          = Ok NUMPY) as Hrun by (vm_compute; reflexivity).
  split; [exact Hrun|].
  destruct (detected_input_is_walked (example_library (Array2 [] 0)) 80 128
              ["a.npy"] ["out"] 0%Z 0%R None "" 0 0 0 0 false false "wav" 0%Z
              (World _ [] []) NUMPY Hrun) as (Hex & _ & _ & Himage & _).
  split; [exact Hex|]. exact (Himage eq_refl).
Defined.

(** ** More edges of detection and of the per-file steps *)

Section NoRegularFiles.
Implicit Types (w : world) (p : path).

Lemma rglob_below fs0 p q : q ∈ rglob fs0 p → p `prefix_of` q.
Proof. unfold rglob. by intros [[H _] _]%list_elem_of_filter. Qed.

(** X14. Only regular files count: when no regular file lies at or below
    the path (a missing path, an empty directory, a tree of directories,
    whatever their names), the result is UNKNOWN, or [ValueError] with
    [raise_exception=True]. *)
Theorem get_data_type_without_regular_files p w :
  (∀ q, p `prefix_of` q → is_file (fs w) q = false) →
  (get_data_type p false w).1 = Ok UNKNOWN
  ∧ (get_data_type p true w).1
    = Raise (ValueError "Unknown source data type. No known file types we matched.").
Proof.
  intros Hnone.
  assert (files_under (fs w) p = []) as Hfiles.
  { unfold files_under. rewrite (Hnone p) by done.
    destruct (is_dir (fs w) p); [|done].
    unfold rglob_files. destruct (filter _ _) as [|q l] eqn:Hfilter; [done|].
    assert (q ∈ filter (λ q, is_file (fs w) q) (rglob (fs w) p)) as Hq
      by (rewrite Hfilter; left).
    apply list_elem_of_filter in Hq as [Hfile Hin].
    apply rglob_below in Hin. rewrite (Hnone q Hin) in Hfile. done. }
  rewrite !get_data_type_eq, Hfiles. done.
Qed.

End NoRegularFiles.

Lemma get_data_type_without_regular_files_witness :
  let w := World (<[ ["d"; "music.wav"] := Dir ]> {[ ["d"] := Dir ]}) [] [] in
  (∀ q, ["d"] `prefix_of` q → is_file (fs w) q = false)
  ∧ (get_data_type ["d"] false w).1 = Ok UNKNOWN
  ∧ (get_data_type ["d"] true w).1
    = Raise (ValueError "Unknown source data type. No known file types we matched.").
Proof.
  cbv zeta.
  set (w := World (<[ ["d"; "music.wav"] := Dir ]> {[ ["d"] := Dir ]}) [] []).
  assert (∀ q, ["d"] `prefix_of` q → is_file (fs w) q = false) as Hnone.
  { intros q _. unfold is_file, w. cbn [fs].
    destruct (decide (q = ["d"; "music.wav"])) as [->|Hne1].
    { by rewrite lookup_insert_eq. }
    rewrite lookup_insert_ne by done.
    destruct (decide (q = ["d"])) as [->|Hne2].
    { by rewrite lookup_singleton_eq. }
    by rewrite lookup_singleton_ne. }
  split; [exact Hnone|].
  exact (get_data_type_without_regular_files ["d"] w Hnone).
Defined.

Section FailingFiles.
Local Open Scope R_scope.
Context (L : Library) (TOP_DB : R).

Lemma power_to_db_ok mel top_db (x : R) :
  x ∈ entries mel → 0 <= top_db →
  ∃ d, power_to_db mel top_db = Ok d ∧ width d = width mel
       ∧ ∃ y, y ∈ entries d.
Proof.
  intros Hx Htop. destruct (np_min_max_exist _ _ Hx) as (_ & M & _ & Hmax).
  rewrite (power_to_db_eq _ _ _ Hmax Htop). eexists. split; [done|].
  split; [done|]. eexists. rewrite entries_amap. by apply list_elem_of_fmap_2.
Qed.

Lemma normalize_ok d (y : R) :
  y ∈ entries d → ∃ out, normalize d = Ok out ∧ width out = width d.
Proof.
  intros Hy. destruct (np_min_max_exist _ _ Hy) as (m & M & Hmin & Hmax).
  rewrite (normalize_eq _ _ _ Hmin Hmax). by eexists.
Qed.

(** X20. The missed case of [spec_to_chunks] reaches the converter: with
    [truncate=True], the feature extraction of [convert_audio_to_numpy]
    raises [ZeroDivisionError] for every file whose mel spectrogram has a
    number of frames that is a multiple of [chunk_size] (and at least
    [chunk_size]). *)
Theorem truncating_extraction_fails_at_exact_multiple audio sr
    (n_fft hop_length n_mels chunk_size : nat) mel x :
  melspectrogram L audio sr n_fft hop_length n_mels = Ok mel →
  x ∈ entries mel → 0 <= TOP_DB →
  (1 ≤ chunk_size ≤ shape1 mel)%nat → (shape1 mel `mod` chunk_size = 0)%nat →
  audio_to_numpy_chunks L TOP_DB audio sr n_fft hop_length n_mels chunk_size true
  = Raise (ZeroDivisionError "integer division or modulo by zero").
Proof.
  intros Hmel Hx Htop Hcs Hr. unfold audio_to_numpy_chunks. rewrite Hmel.
  change (Ok ?u ≫= ?g) with (g u). cbv beta.
  destruct (power_to_db_ok _ _ _ Hx Htop) as (d & -> & Hwd & y & Hy).
  change (Ok ?u ≫= ?g) with (g u). cbv beta.
  destruct (normalize_ok _ _ Hy) as (out & -> & Hwo).
  change (Ok ?u ≫= ?g) with (g u). cbv beta.
  apply spec_to_chunks_truncate_exact; unfold shape1 in *; by rewrite Hwo, Hwd.
Qed.

(** X21. Nothing is written for a file that cannot be converted: when
    loading the file raises, or its feature extraction does, the per-file
    step of [convert_audio_to_numpy], and likewise that of
    [convert_audio_to_image], raises the same exception, having printed
    one line and changed no file. *)
Theorem failed_file_is_not_written inp out_dir offset duration res_type
    (n_fft hop_length n_mels chunk_size : nat) truncate flip p sr e w :
  let line := "Converting " +:+ quoted p +:+ "..." in
  let stopped := (Raise e, World (fs w) (stdout w ++ [line]) (entered w)) in
  let load := librosa_load L p sr offset duration res_type (fs w) in
  (load = Raise e
   ∨ (∃ audio sr', load = Ok (audio, sr')
        ∧ audio_to_numpy_chunks L TOP_DB audio sr' n_fft hop_length n_mels
            chunk_size truncate = Raise e) →
   audio_to_numpy_file L TOP_DB inp out_dir offset duration res_type
     n_fft hop_length n_mels chunk_size truncate p sr w = stopped)
  ∧ (load = Raise e
     ∨ (∃ audio sr', load = Ok (audio, sr')
          ∧ audio_to_image_chunks L audio sr' n_fft hop_length n_mels
              chunk_size truncate = Raise e) →
     audio_to_image_file L inp out_dir offset duration res_type
       n_fft hop_length n_mels chunk_size truncate flip p sr w = stopped).
Proof.
  cbv zeta. unfold audio_to_numpy_file, audio_to_image_file.
  unfold mbind, M_bind, tqdm_write, print, lift_read, lift_result. cbn [fs].
  split; (intros [Hload|(audio & sr' & Hload & Hchunks)]; rewrite Hload;
          [done|by rewrite Hchunks]).
Qed.

End FailingFiles.

Lemma truncating_extraction_fails_at_exact_multiple_witness :
  let mel := Array2 [[1; 2]]%R 2 in
  let L := example_library mel in
  (melspectrogram L [] 0 0 0 0 = Ok mel ∧ 1%R ∈ entries mel ∧ (0 <= 80)%R
   ∧ 1 ≤ 2 ≤ shape1 mel ∧ shape1 mel `mod` 2 = 0)
  ∧ audio_to_numpy_chunks L 80 [] 0 0 0 0 2 true
    = Raise (ZeroDivisionError "integer division or modulo by zero").
Proof.
  cbv zeta.
  set (mel := Array2 [[1; 2]]%R 2).
  assert (melspectrogram (example_library mel) [] 0 0 0 0 = Ok mel) as Hmel
    by reflexivity.
  assert (1%R ∈ entries mel) as Hx by (left).
  assert (0 <= 80)%R as Htop by lra.
  assert (1 ≤ 2 ≤ shape1 mel) as Hcs by (unfold shape1; simpl; lia).
  assert (shape1 mel `mod` 2 = 0) as Hr by reflexivity.
  split; [repeat split; assumption || (simpl; lia)|].
  exact (truncating_extraction_fails_at_exact_multiple (example_library mel) 80
           [] 0%Z 0 0 0 2 mel 1%R Hmel Hx Htop Hcs Hr).
Defined.

Lemma failed_file_is_not_written_witness :
  let L := example_library (Array2 [] 0) in
  let w := World {[ ["a.wav"] := File [] ]} [] [] in
  let e := LibraryError "unavailable" in
  librosa_load L ["a.wav"] 0 0 None "" (fs w) = Raise e
  ∧ audio_to_numpy_file L 80 [] ["out"] 0 None "" 0 0 0 0 false ["a.wav"] 0 w
    = (Raise e, World (fs w) (stdout w ++ ["Converting " +:+ quoted ["a.wav"] +:+ "..."])
                  (entered w)).
Proof.
  cbv zeta.
  set (w := World {[ ["a.wav"] := File [] ]} [] []).
  assert (librosa_load (example_library (Array2 [] 0)) ["a.wav"] 0 0 None "" (fs w)
          = Raise (LibraryError "unavailable")) as Hload by reflexivity.
  split; [exact Hload|].
  exact (proj1 (failed_file_is_not_written (example_library (Array2 [] 0)) 80
                  [] ["out"] 0%R None "" 0 0 0 0 false false ["a.wav"] 0%Z
                  (LibraryError "unavailable") w) (or_introl Hload)).
Defined.
